(** * AWS Cost Analysis API ([app.py])

    A shallow embedding of the request handlers of [app.py] and the
    properties of their responses.

    The handlers are modelled as they are written: a [try] block run in a
    small exception monad that also records every call made to the billing
    provider, closed by the two [except] clauses of each handler.  What the
    Python runtime and the provider contribute is kept apart from the code
    of the application:

    - [Runtime] collects the library functions the handlers call
            ([datetime.fromisoformat], comparison of datetimes, [strftime],
      [timedelta] arithmetic, [float], [sum], [str] of an [HTTPException]),
      so that every theorem holds whatever these do;
    - [World] is what one request meets outside the process: whether
      [boto3.client] can be built, what the provider answers, the clock.

    Python's [float] is IEEE 754 binary64, which is the primitive [float] of
    the standard library; integers are unbounded, hence [Z]. *)

From Stdlib Require Import ZArith List String Ascii Bool Lia.
From Stdlib Require Import Sorted Permutation.
From Stdlib Require Import Floats DecimalString.
Import ListNotations.

Local Open Scope string_scope.
Local Open Scope list_scope.
Local Open Scope Z_scope.

Set Implicit Arguments.

(* ================================================================= *)
(** ** Strings *)

Module Str.

(** [s.replace(old, new)]: every non-overlapping occurrence of [old],
    scanning from the left.  [skip] counts the characters of an occurrence
    still to be dropped.  [old] is never empty in [app.py] (['Z'],
    ['rgb'], [')']). *)
Fixpoint replace_from (old new : string) (skip : nat) (s : string) : string :=
  match s with
  | EmptyString => EmptyString
  | String c s' =>
      match skip with
      | S k => replace_from old new k s'
      | O =>
          if String.prefix old s
          then String.append new (replace_from old new (String.length old - 1) s')
          else String c (replace_from old new O s')
      end
  end.

Definition replace (old new s : string) : string := replace_from old new O s.

(** Truth value of a string: empty is false. *)
Definition truthy (s : string) : bool :=
  match s with EmptyString => false | _ => true end.

(** Truth value of an [Optional[str]]: [None] is false as well. *)
Definition truthy_option (o : option string) : bool :=
  match o with Some s => truthy s | None => false end.

End Str.

(* ================================================================= *)
(** ** Floats *)

Module PyFloat.

Definition add (x y : float) : float := PrimFloat.add x y.

(** The integer nearest to [n / d] for [0 <= n] and [0 < d], a tie going to
    the even neighbour. *)
Definition round_half_even (n d : Z) : Z :=
  let q := n / d in
  let r := n mod d in
  match 2 * r ?= d with
  | Lt => q
  | Gt => q + 1
  | Eq => if Z.even q then q else q + 1
  end.

(** [round(x, 2)].  CPython prints the exact binary value of [x] with two
    digits after the point, correctly rounded with ties to even, and reads
    the decimal string back as the nearest double; zeros, infinities and
    nan round to themselves.  A finite [x = m * 2^e] with [0 <= e] is an
    integer and is returned as it is; otherwise the hundredths
    [n = round_half_even (100 * m) (2^-e)] are divided by 100, once, with
    the correctly rounded division of binary64. *)
Definition round2 (x : float) : float :=
  match Prim2SF x with
  | S754_finite s m e =>
      if 0 <=? e then x
      else
        match round_half_even (Zpos m * 100) (2 ^ (- e)) with
        | Zpos p =>
            SF2Prim (SFdiv prec emax (S754_finite s p 0) (S754_finite false 100 0))
        | _ => if s then neg_zero else zero
        end
  | _ => x
  end.

(** Left-to-right accumulation from [0.0], as [total_cost += cost] does. *)
Definition sum_from_zero (l : list float) : float :=
  fold_left add l PrimFloat.zero.

End PyFloat.

(* ================================================================= *)
(** ** Dictionaries in insertion order *)

(** [groups] and [services] are iterated ([.items()]) after they are built,
    and a Python dict iterates in insertion order: an association list with
    one entry per key, a new key appended at the end, an assignment to an
    existing key done in place. *)
Section Dict.
Context {V : Type}.

Definition dict := list (string * V).

Fixpoint dict_get (k : string) (d : dict) : option V :=
  match d with
  | [] => None
  | (k', v) :: d' => if String.eqb k k' then Some v else dict_get k d'
  end.

(** [k in d] *)
Definition dict_mem (k : string) (d : dict) : bool :=
  match dict_get k d with Some _ => true | None => false end.

(** [d[k] = v] *)
Fixpoint dict_set (k : string) (v : V) (d : dict) : dict :=
  match d with
  | [] => [(k, v)]
  | (k', v') :: d' =>
      if String.eqb k k' then (k', v) :: d' else (k', v') :: dict_set k v d'
  end.

Definition keys (d : dict) : list string := map fst d.

End Dict.

Arguments dict : clear implicits.

(* ================================================================= *)
(** ** [sorted] and slices *)

(** [sorted] copies the list and sorts the copy with [list.sort].  What
    follows is [list.sort] as CPython 3.11 runs it, on a list of items
    compared by [lt] alone ([<] on the keys).  The list is cut into runs:
    [count_run] finds the run that starts what is left, a strictly
    descending run is reversed, and a run shorter than [minrun] is extended
    by binary insertion; the runs wait on a stack and are merged, two
    neighbours at a time, with galloping.  When [<] orders the keys, every
    stable sort returns the same list; when it does not (a nan among float
    keys), the list returned depends on which comparisons are made, so all
    of it is modelled. *)

Section ListSort.
Context {A : Type}.
Variable lt : A -> A -> bool.

Definition len (l : list A) : Z := Z.of_nat (List.length l).

(** *** [count_run] *)

(** The number of items after [prev] that go on strictly descending. *)
Fixpoint descending_run (prev : A) (l : list A) : nat :=
  match l with
  | x :: l' => if lt x prev then S (descending_run x l') else O
  | [] => O
  end.

(** The number of items after [prev] none of which is below the one
    before it. *)
Fixpoint ascending_run (prev : A) (l : list A) : nat :=
  match l with
  | x :: l' => if lt x prev then O else S (ascending_run x l')
  | [] => O
  end.

(** The length of the run that starts [l], and whether it descends. *)
Definition count_run (l : list A) : nat * bool :=
  match l with
  | [] => (O, false)
  | x :: [] => (1%nat, false)
  | x :: y :: l' =>
    if lt y x then (S (S (descending_run y l')), true)
    else (S (S (ascending_run y l')), false)
  end.

(** *** [binarysort] *)

(** Where [pivot] goes in [run], by bisection between [l] and [r]: after
    the items it is not below. *)
Fixpoint bisect (pivot : A) (run : list A) (fuel l r : nat) : nat :=
  match fuel with
  | O => l
  | S fuel' =>
    if (l <? r)%nat then
      let p := (l + (r - l) / 2)%nat in
      if lt pivot (nth p run pivot) then bisect pivot run fuel' l p
      else bisect pivot run fuel' (S p) r
    else l
  end.

Definition binary_insert (run : list A) (pivot : A) : list A :=
  let k := bisect pivot run (List.length run) O (List.length run) in
  firstn k run ++ pivot :: skipn k run.

(** The items of [rest] are inserted into [run], one after the other. *)
Definition binarysort (run rest : list A) : list A :=
  fold_left binary_insert rest run.

(** *** [gallop_left] and [gallop_right] *)

(** The offsets are doubled (1, 3, 7, ...) as long as [continue] holds and
    [maxofs] is not reached. *)
Fixpoint gallop_ofs (continue : Z -> bool) (fuel : nat) (maxofs lastofs ofs : Z)
  : Z * Z :=
  match fuel with
  | O => (lastofs, ofs)
  | S fuel' =>
    if ofs <? maxofs then
      if continue ofs then gallop_ofs continue fuel' maxofs ofs (2 * ofs + 1)
      else (lastofs, ofs)
    else (lastofs, ofs)
  end.

Fixpoint gallop_bisect (right : Z -> bool) (fuel : nat) (lastofs ofs : Z) : Z :=
  match fuel with
  | O => ofs
  | S fuel' =>
    if lastofs <? ofs then
      let m := lastofs + (ofs - lastofs) / 2 in
      if right m then gallop_bisect right fuel' (m + 1) ofs
      else gallop_bisect right fuel' lastofs m
    else ofs
  end.

(** The two searches of [list.sort] differ in the test only: [right i]
    says that the position sought is to the right of index [i].  From
    [hint] the search gallops to the right or to the left until the
    position is bracketed, then bisects. *)
Definition gallop (right : Z -> bool) (fuel : nat) (n hint : Z) : Z :=
  let '(lastofs, ofs) :=
    if right hint then
      let maxofs := n - hint in
      let '(lastofs, ofs) :=
        gallop_ofs (fun ofs => right (hint + ofs)) fuel maxofs 0 1 in
      (lastofs + hint, Z.min ofs maxofs + hint)
    else
      let maxofs := hint + 1 in
      let '(lastofs, ofs) :=
        gallop_ofs (fun ofs => negb (right (hint - ofs))) fuel maxofs 0 1 in
      (hint - Z.min ofs maxofs, hint - lastofs) in
  gallop_bisect right fuel (lastofs + 1) ofs.

(** [gallop_left(key, a, n, hint)]: before the items that [key] is not
    above. *)
Definition gallop_left (key : A) (a : list A) (hint : Z) : nat :=
  Z.to_nat (gallop (fun i => lt (nth (Z.to_nat i) a key) key)
                   (S (List.length a)) (len a) hint).

(** [gallop_right(key, a, n, hint)]: after the items that [key] is not
    below. *)
Definition gallop_right (key : A) (a : list A) (hint : Z) : nat :=
  Z.to_nat (gallop (fun i => negb (lt key (nth (Z.to_nat i) a key)))
                   (S (List.length a)) (len a) hint).

(** *** [merge_lo] and [merge_hi] *)

Definition MIN_GALLOP : Z := 7.

(** A merge takes one item at a time and counts how often each run won in
    a row, or it gallops. *)
Inductive mode : Type :=
| Simple (acount bcount : Z)
| Galloping.

(** After an item was taken one at a time: a run that has won
    [min_gallop] times in a row starts the galloping. *)
Definition next_mode (min_gallop acount bcount : Z) : mode * Z :=
  if (min_gallop <=? acount) || (min_gallop <=? bcount)
  then (Galloping, min_gallop + 1)
  else (Simple acount bcount, min_gallop).

(** After a round of galloping that took [acount] and [bcount] items. *)
Definition after_gallop (min_gallop acount bcount : Z) : mode * Z :=
  if (MIN_GALLOP <=? acount) || (MIN_GALLOP <=? bcount)
  then (Galloping, min_gallop)
  else (Simple 0 0, min_gallop + 1).

(** The loop of [merge_lo]: [out] is what was merged so far, [a] and [b]
    what is left of the runs; [a] has two items at least and [b] one.  The
    result comes with the new [min_gallop]. *)
Fixpoint merge_lo_loop (fuel : nat) (m : mode) (min_gallop : Z)
         (out a b : list A) : list A * Z :=
  match fuel, a, b with
  | S fuel', a0 :: a', b0 :: b' =>
    match m with
    | Simple acount bcount =>
      if lt b0 a0 then
        match b' with
        | [] => (out ++ b0 :: a, min_gallop)
        | _ :: _ =>
          let '(m, min_gallop) := next_mode min_gallop 0 (bcount + 1) in
          merge_lo_loop fuel' m min_gallop (out ++ [b0]) a b'
        end
      else
        match a' with
        | _ :: [] => (out ++ a0 :: b ++ a', min_gallop)
        | _ =>
          let '(m, min_gallop) := next_mode min_gallop (acount + 1) 0 in
          merge_lo_loop fuel' m min_gallop (out ++ [a0]) a' b
        end
    | Galloping =>
      let min_gallop := if 1 <? min_gallop then min_gallop - 1 else min_gallop in
      let k := gallop_right b0 a 0 in
      let out := out ++ firstn k a in
      match skipn k a with
      | [] => (out ++ b, min_gallop)
      | _ :: [] => (out ++ b ++ skipn k a, min_gallop)
      | a1 :: a1' =>
        let out := out ++ [b0] in
        match b' with
        | [] => (out ++ a1 :: a1', min_gallop)
        | _ :: _ =>
          let k' := gallop_left a1 b' 0 in
          let out := out ++ firstn k' b' in
          match skipn k' b' with
          | [] => (out ++ a1 :: a1', min_gallop)
          | b2 =>
            let out := out ++ [a1] in
            match a1' with
            | _ :: [] => (out ++ b2 ++ a1', min_gallop)
            | _ =>
              let '(m, min_gallop) :=
                after_gallop min_gallop (Z.of_nat k) (Z.of_nat k') in
              merge_lo_loop fuel' m min_gallop out a1' b2
            end
          end
        end
      end
    end
  | _, _, _ => (out ++ a ++ b, min_gallop)
  end.

(** [merge_lo]: the first item of [b] goes first. *)
Definition merge_lo (min_gallop : Z) (a b : list A) : list A * Z :=
  match b with
  | [] => (a, min_gallop)
  | b0 :: [] => (b0 :: a, min_gallop)
  | b0 :: b' =>
    match a with
    | _ :: [] => (b0 :: b' ++ a, min_gallop)
    | _ => merge_lo_loop (List.length a + List.length b) (Simple 0 0) min_gallop
                         [b0] a b'
    end
  end.

(** The loop of [merge_hi], which merges from the high end: [ra] and [rb]
    are what is left of the runs, each read from its end, and [out] what
    was merged so far; [rb] has two items at least and [ra] one. *)
Fixpoint merge_hi_loop (fuel : nat) (m : mode) (min_gallop : Z)
         (ra rb out : list A) : list A * Z :=
  match fuel, ra, rb with
  | S fuel', a0 :: ra', b0 :: rb' =>
    match m with
    | Simple acount bcount =>
      if lt b0 a0 then
        match ra' with
        | [] => (rev rb ++ a0 :: out, min_gallop)
        | _ :: _ =>
          let '(m, min_gallop) := next_mode min_gallop (acount + 1) 0 in
          merge_hi_loop fuel' m min_gallop ra' rb (a0 :: out)
        end
      else
        match rb' with
        | _ :: [] => (rev rb' ++ rev ra ++ b0 :: out, min_gallop)
        | _ =>
          let '(m, min_gallop) := next_mode min_gallop 0 (bcount + 1) in
          merge_hi_loop fuel' m min_gallop ra rb' (b0 :: out)
        end
    | Galloping =>
      let min_gallop := if 1 <? min_gallop then min_gallop - 1 else min_gallop in
      let k := (List.length ra - gallop_right b0 (rev ra) (len ra - 1))%nat in
      let out := rev (firstn k ra) ++ out in
      match skipn k ra with
      | [] => (rev rb ++ out, min_gallop)
      | a1 :: ra1' =>
        let out := b0 :: out in
        match rb' with
        | _ :: [] => (rev rb' ++ rev (a1 :: ra1') ++ out, min_gallop)
        | _ =>
          let k' := (List.length rb' - gallop_left a1 (rev rb') (len rb' - 1))%nat in
          let out := rev (firstn k' rb') ++ out in
          match skipn k' rb' with
          | [] => (rev (a1 :: ra1') ++ out, min_gallop)
          | _ :: [] => (rev (skipn k' rb') ++ rev (a1 :: ra1') ++ out, min_gallop)
          | rb2 =>
            let out := a1 :: out in
            match ra1' with
            | [] => (rev rb2 ++ out, min_gallop)
            | _ :: _ =>
              let '(m, min_gallop) :=
                after_gallop min_gallop (Z.of_nat k) (Z.of_nat k') in
              merge_hi_loop fuel' m min_gallop ra1' rb2 out
            end
          end
        end
      end
    end
  | _, _, _ => (rev ra ++ rev rb ++ out, min_gallop)
  end.

(** [merge_hi]: the last item of [a] goes last. *)
Definition merge_hi (min_gallop : Z) (a b : list A) : list A * Z :=
  match rev a with
  | [] => (b, min_gallop)
  | a0 :: [] => (b ++ [a0], min_gallop)
  | a0 :: ra' =>
    match b with
    | _ :: [] => (b ++ rev ra' ++ [a0], min_gallop)
    | _ => merge_hi_loop (List.length a + List.length b) (Simple 0 0) min_gallop
                         ra' (rev b) [a0]
    end
  end.

(** [merge_at]: the neighbours [a] and [b] become one run.  The items of
    [a] that the first of [b] is not below stay where they are, and so do
    those of [b] that the last of [a] is not above; the rest is merged from
    the side of the shorter piece. *)
Definition merge_at (min_gallop : Z) (a b : list A) : list A * Z :=
  match b with
  | [] => (a, min_gallop)
  | b0 :: _ =>
    let k := gallop_right b0 a 0 in
    match rev (skipn k a) with
    | [] => (a ++ b, min_gallop)
    | a_last :: _ =>
      let nb := gallop_left a_last b (len b - 1) in
      match nb with
      | O => (a ++ b, min_gallop)
      | S _ =>
        let '(merged, min_gallop) :=
          if (List.length (skipn k a) <=? nb)%nat
          then merge_lo min_gallop (skipn k a) (firstn nb b)
          else merge_hi min_gallop (skipn k a) (firstn nb b) in
        (firstn k a ++ merged ++ skipn nb b, min_gallop)
      end
    end
  end.

(** *** The pending runs *)

(** [powerloop]: the first bit in which the midpoints of two neighbouring
    runs differ, as fractions of the length [n] of the list. *)
Fixpoint powerloop (fuel : nat) (a b n : Z) (result : Z) : Z :=
  match fuel with
  | O => result
  | S fuel' =>
    if n <=? a then powerloop fuel' (2 * (a - n)) (2 * (b - n)) n (result + 1)
    else if n <=? b then result + 1
    else powerloop fuel' (2 * a) (2 * b) n (result + 1)
  end.

(** The pending runs, the last found first, each with its power. *)
Definition stack : Type := list (list A * Z).

Definition stack_len (p : stack) : Z :=
  fold_right (fun r s => len (fst r) + s) 0 p.

(** The power of the run of length [n1] that lies on [below], the runs
    before it, and is followed by a run of length [n2]. *)
Definition power (below : stack) (n1 n2 n : Z) : Z :=
  let a := 2 * stack_len below + n1 in
  powerloop (S (Z.to_nat n)) a (a + n1 + n2) n 0.

(** The runs on top are merged as long as the run under the top has a
    power above [pw]. *)
Fixpoint merge_above (fuel : nat) (pw : Z) (min_gallop : Z) (p : stack)
  : stack * Z :=
  match fuel, p with
  | S fuel', (b, pb) :: (a, pa) :: rest =>
    if pw <? pa then
      let '(merged, min_gallop) := merge_at min_gallop a b in
      merge_above fuel' pw min_gallop ((merged, pa) :: rest)
    else (p, min_gallop)
  | _, _ => (p, min_gallop)
  end.

(** [found_new_run]: a run of length [n2] was found after those of [p]. *)
Definition found_new_run (n2 n : Z) (min_gallop : Z) (p : stack) : stack * Z :=
  match p with
  | [] => (p, min_gallop)
  | (top, _) :: below =>
    let pw := power below (len top) n2 n in
    let '(p, min_gallop) := merge_above (List.length p) pw min_gallop p in
    match p with
    | (top, _) :: below => ((top, pw) :: below, min_gallop)
    | [] => (p, min_gallop)
    end
  end.

(** [merge_force_collapse]: at the end the runs are merged until one is
    left, the run under the top with the shorter of its neighbours. *)
Fixpoint merge_force_collapse (fuel : nat) (min_gallop : Z) (p : stack)
  : stack :=
  match fuel, p with
  | S fuel', (c, pc) :: (b, pb) :: (a, pa) :: rest =>
    if len a <? len c then
      let '(merged, min_gallop) := merge_at min_gallop a b in
      merge_force_collapse fuel' min_gallop ((c, pc) :: (merged, pa) :: rest)
    else
      let '(merged, min_gallop) := merge_at min_gallop b c in
      merge_force_collapse fuel' min_gallop ((merged, pb) :: (a, pa) :: rest)
  | S fuel', (b, pb) :: (a, pa) :: [] =>
    let '(merged, min_gallop) := merge_at min_gallop a b in
    merge_force_collapse fuel' min_gallop [(merged, pa)]
  | _, _ => p
  end.

(** *** [list.sort] *)

(** [merge_compute_minrun]: the length itself below 64, and else a number
    from 32 to 64. *)
Fixpoint merge_compute_minrun (fuel : nat) (n r : Z) : Z :=
  match fuel with
  | O => n + r
  | S fuel' =>
    if 64 <=? n
    then merge_compute_minrun fuel' (n / 2) (Z.lor r (Z.land n 1))
    else n + r
  end.

(** The next run, in ascending order and extended to [minrun] items if it
    is shorter and the list has them, and what is left of the list. *)
Definition next_run (minrun : nat) (l : list A) : list A * list A :=
  let '(k, descending) := count_run l in
  let run := if descending then rev (firstn k l) else firstn k l in
  if (k <? minrun)%nat then
    let force := Nat.min minrun (List.length l) in
    (binarysort run (firstn (force - k) (skipn k l)), skipn force l)
  else (run, skipn k l).

Fixpoint runs (fuel : nat) (n : Z) (minrun : nat) (min_gallop : Z) (p : stack)
         (l : list A) : stack * Z :=
  match fuel, l with
  | S fuel', _ :: _ =>
    let '(run, rest) := next_run minrun l in
    let '(p, min_gallop) := found_new_run (len run) n min_gallop p in
    runs fuel' n minrun min_gallop ((run, 0) :: p) rest
  | _, _ => (p, min_gallop)
  end.

Definition list_sort (l : list A) : list A :=
  let n := len l in
  let minrun := Z.to_nat (merge_compute_minrun 64 n 0) in
  let '(p, min_gallop) := runs (List.length l) n minrun MIN_GALLOP [] l in
  List.concat (rev (map fst (merge_force_collapse (List.length p) min_gallop p))).

(** *** What sorting means *)

(** [a] is not above [b]. *)
Definition at_most (a b : A) : Prop := lt b a = false.

(** [lt] never tells two items that [p] selects apart. *)
Definition unordered (p : A -> bool) : Prop :=
  forall a b, p a = true -> p b = true -> lt a b = false.

(** [run] is [source] sorted, with the items that [lt] does not tell apart
    in the order that they have in [source]. *)
Definition settled (source run : list A) : Prop :=
  StronglySorted at_most run /\
  forall p, unordered p -> filter p run = filter p source.

(** The plain stable merge: of two heads, the one of [b] goes first only
    if it is below the other. *)
Fixpoint simple_merge (a : list A) : list A -> list A :=
  match a with
  | [] => fun b => b
  | a0 :: a' =>
    fix into (b : list A) : list A :=
      match b with
      | [] => a
      | b0 :: b' =>
        if lt b0 a0 then b0 :: into b' else a0 :: simple_merge a' b
      end
  end.

(** The number of items that [next_run] takes from the list. *)
Definition taken (minrun : nat) (l : list A) : nat :=
  let k := fst (count_run l) in
  if (k <? minrun)%nat then Nat.min minrun (List.length l) else k.

(** The runs pending are, under [Rel], those of consecutive pieces of what
    was read. *)
Definition pending (Rel : list A -> list A -> Prop) (p : stack) (read : list A)
  : Prop :=
  exists pieces,
    Forall2 Rel pieces (map fst p) /\ read = List.concat (rev pieces).

End ListSort.

(** [sorted(l, key=key, reverse=reverse)] on float keys: the keys are
    compared with [<].  With [reverse=True] the list is reversed, sorted
    and reversed again, which is how [list.sort] keeps items of equal key
    in their original order. *)
Definition py_sorted {A : Type} (key : A -> float) (reverse : bool) (l : list A)
  : list A :=
  let lt a b := PrimFloat.ltb (key a) (key b) in
  if reverse then rev (list_sort lt (rev l)) else list_sort lt l.

(** [l[:stop]]: a negative [stop] counts from the end. *)
Definition slice_to {A : Type} (stop : Z) (l : list A) : list A :=
  let n := Z.of_nat (List.length l) in
  let stop' := if stop <? 0 then Z.max 0 (n + stop) else Z.min stop n in
  firstn (Z.to_nat stop') l.

(* ================================================================= *)
(** ** Exceptions *)

(** The exception classes the handlers tell apart.  [ClientError] and
    [NoCredentialsError] are botocore's (the second is not a subclass of the
    first); [PyException] stands for every other subclass of [Exception]
    ([ValueError], [KeyError], [TypeError], [OverflowError], ...).  The
    string carried is [str(e)]. *)
Inductive exn : Type :=
| HTTPException (status_code : Z) (detail : string)
| ClientError (message : string)
| NoCredentialsError (message : string)
| PyException (message : string).

(** A computation that returns or raises. *)
Definition result (A : Type) : Type := (exn + A)%type.

Definition rbind {A B : Type} (r : result A) (k : A -> result B) : result B :=
  match r with
  | inl e => inl e
  | inr a => k a
  end.

(** [key_error k] is [KeyError(k)]; its [str] is the [repr] of the key. *)
Definition key_error (k : string) : exn :=
  PyException (String.append "'" (String.append k "'")).

Definition dict_item {V : Type} (k : string) (d : dict V) : result V :=
  match dict_get k d with
  | Some v => inr v
  | None => inl (key_error k)
  end.

Declare Scope result_scope.
Delimit Scope result_scope with res.
Notation "x <- c ;; k" := (rbind c (fun x => k))
  (at level 61, c at next level, right associativity) : result_scope.

(** [for b in l: s = f(s, b)], stopping at the first exception. *)
Fixpoint for_each {S B : Type} (f : S -> B -> result S) (l : list B) (s : S)
  : result S :=
  match l with
  | [] => inr s
  | b :: l' => rbind (f s b) (for_each f l')
  end.

(** [enumerate(l)] *)
Fixpoint enumerate_from {A : Type} (i : nat) (l : list A) : list (nat * A) :=
  match l with
  | [] => []
  | a :: l' => (i, a) :: enumerate_from (S i) l'
  end.

Definition enumerate {A : Type} (l : list A) : list (nat * A) := enumerate_from O l.

(* ================================================================= *)
(** ** The billing provider (the boto3 [ce] client)

    The shapes of Cost Explorer's requests and responses.  [Total] and
    [Metrics] are dictionaries keyed by metric name: a bucket that was
    grouped carries an empty [Total], so a lookup can fail. *)

Module CE.

Module DateInterval.
Record t : Type := { Start : string; End' : string }.
End DateInterval.

Module GroupDefinition.
Record t : Type := { Type' : string; Key : string }.
End GroupDefinition.

Module MetricValue.
Record t : Type := { Amount : string; Unit : string }.
End MetricValue.

Module Group.
Record t : Type := { Keys : list string; Metrics : dict MetricValue.t }.
End Group.

Module ResultByTime.
Record t : Type :=
  { TimePeriod : DateInterval.t;
    Total : dict MetricValue.t;
    Groups : list Group.t }.
End ResultByTime.

(** The keyword arguments of [get_cost_and_usage]; [GroupBy] is passed
    only when there is a grouping. *)
Module CostAndUsageQuery.
Record t : Type :=
  { TimePeriod : DateInterval.t;
    Granularity : string;
    Metrics : list string;
    GroupBy : option (list GroupDefinition.t) }.
End CostAndUsageQuery.

Module CostAndUsage.
Record t : Type := { ResultsByTime : list ResultByTime.t }.
End CostAndUsage.

Module ForecastResult.
Record t : Type :=
  { TimePeriod : DateInterval.t;
    MeanValue : string;
    PredictionIntervalLowerBound : string;
    PredictionIntervalUpperBound : string }.
End ForecastResult.

Module CostForecastQuery.
Record t : Type :=
  { TimePeriod : DateInterval.t;
    Metric : string;
    Granularity : string }.
End CostForecastQuery.

Module CostForecast.
Record t : Type :=
  { Total : MetricValue.t;
    ForecastResultsByTime : list ForecastResult.t }.
End CostForecast.

End CE.

(** A request sent to the provider. *)
Inductive call : Type :=
| Call_get_cost_and_usage (q : CE.CostAndUsageQuery.t)
| Call_get_cost_forecast (q : CE.CostForecastQuery.t).

(* ================================================================= *)
(** ** The handler monad: exceptions and the log of provider calls *)

Definition M (A : Type) : Type := list call -> result A * list call.

Definition ret {A : Type} (a : A) : M A := fun log => (inr a, log).

Definition raise {A : Type} (e : exn) : M A := fun log => (inl e, log).

Definition bind {A B : Type} (m : M A) (k : A -> M B) : M B :=
  fun log =>
    match m log with
    | (inl e, log') => (inl e, log')
    | (inr a, log') => k a log'
    end.

Definition lift {A : Type} (r : result A) : M A := fun log => (r, log).

Declare Scope handler_scope.
Delimit Scope handler_scope with M.
Notation "x <- c ;; k" := (bind c (fun x => k))
  (at level 61, c at next level, right associativity) : handler_scope.

(* ================================================================= *)
(** ** Runtime and world *)

(** The library functions the handlers call.  A [result] is the value
    returned or the exception raised. *)
Class Runtime : Type :=
  { datetime : Type;
    (** [datetime.fromisoformat(s)]; [ValueError] on a string it rejects *)
    fromisoformat : string -> result datetime;
    (** [a >= b]; [TypeError] between a naive and an aware datetime *)
    datetime_ge : datetime -> datetime -> result bool;
    (** [d.strftime('%Y-%m-%d')] *)
    strftime_Ymd : datetime -> string;
    (** [d + timedelta(days=n)]; [OverflowError] out of range *)
    plus_days : datetime -> Z -> result datetime;
    (** [d - timedelta(days=n)]; [OverflowError] out of range *)
    minus_days : datetime -> Z -> result datetime;
    (** [float(s)] on a string; [ValueError] on one it rejects *)
    float_of_str : string -> result float;
    (** [sum(l)] on a list of floats: addition from the left up to
        CPython 3.11, compensated summation since 3.12; the integer 0 that
        [sum] returns on an empty list is read as the float 0.0 *)
    builtin_sum : list float -> float;
    (** [str(HTTPException(status_code, detail))] *)
    str_HTTPException : Z -> string -> string }.

(** What a request finds outside the process.  [boto3_client] is what
    [boto3.client('ce', ...)] raises, if anything; the two methods of the
    client answer or raise; each handler reads the clock once. *)
Record World {RT : Runtime} : Type :=
  { boto3_client : option exn;
    client_get_cost_and_usage : CE.CostAndUsageQuery.t -> result CE.CostAndUsage.t;
    client_get_cost_forecast : CE.CostForecastQuery.t -> result CE.CostForecast.t;
    datetime_now : datetime }.

Arguments World {RT}.

(* ================================================================= *)
(** ** Request and response models *)

Module CostRequest.
Record t : Type :=
  { start_date : string;
    end_date : string;
    granularity : string;
    group_by : option string }.
End CostRequest.

(** An entry of [data]; [group] is absent on a bucket without groups. *)
Module CostRecord.
Record t : Type :=
  { period_start : string;
    period_end : string;
    group : option string;
    cost : float;
    currency : string }.

(** [item.get('group', 'Unknown')] *)
Definition group_or_unknown (item : t) : string :=
  match group item with
  | Some g => g
  | None => "Unknown"
  end.
End CostRecord.

Module Dataset.
Record t : Type :=
  { label : string;
    data : list float;
    borderColor : string;
    backgroundColor : string }.
End Dataset.

Module ChartData.
Record t : Type := { labels : list string; datasets : list Dataset.t }.
End ChartData.

Module CostResponse.
Record t : Type :=
  { total_cost : float;
    currency : string;
    data : list CostRecord.t;
    chart_data : ChartData.t }.
End CostResponse.

Module ServiceCost.
Record t : Type := { service : string; cost : float }.
End ServiceCost.

Module TopServices.
Record t : Type :=
  { top_services : list ServiceCost.t;
    total_services : Z;
    period_days : Z }.
End TopServices.

Module ForecastPoint.
Record t : Type :=
  { date : string;
    mean_value : float;
    prediction_interval_lower : float;
    prediction_interval_upper : float }.
End ForecastPoint.

Module Forecast.
Record t : Type :=
  { forecast_data : list ForecastPoint.t;
    total_forecast : float;
    currency : string;
    forecast_days : Z }.
End Forecast.

(* ================================================================= *)
(** ** The handlers *)

Section Handlers.
Context {RT : Runtime}.
Variable w : World.

(** [str(e)] *)
Definition str (e : exn) : string :=
  match e with
  | HTTPException status_code detail => str_HTTPException status_code detail
  | ClientError message => message
  | NoCredentialsError message => message
  | PyException message => message
  end.

Definition credentials_detail : string :=
  "AWS credentials not configured. Please set AWS_ACCESS_KEY_ID and AWS_SECRET_ACCESS_KEY environment variables.".

(** [get_cost_explorer_client()]: the client itself carries nothing, its
    methods are those of the world. *)
Definition get_cost_explorer_client : M unit :=
  match boto3_client w with
  | None => ret tt
  | Some (NoCredentialsError _) => raise (HTTPException 500 credentials_detail)
  | Some e => raise e
  end.

(** [ce_client.get_cost_and_usage] applied to the keyword arguments [query];
    the call is logged whatever it answers. *)
Definition get_cost_and_usage (query : CE.CostAndUsageQuery.t)
  : M CE.CostAndUsage.t :=
  fun log =>
    (client_get_cost_and_usage w query, log ++ [Call_get_cost_and_usage query]).

(** [ce_client.get_cost_forecast(...)] *)
Definition get_cost_forecast_call (query : CE.CostForecastQuery.t)
  : M CE.CostForecast.t :=
  fun log =>
    (client_get_cost_forecast w query, log ++ [Call_get_cost_forecast query]).

(** The two [except] clauses that close every handler:
    [except ClientError as e] and [except Exception as e]. *)
Definition except_clauses {A : Type} (body : M A) : M A :=
  fun log =>
    match body log with
    | (inr a, log') => (inr a, log')
    | (inl (ClientError message), log') =>
        (inl (HTTPException 500 (String.append "AWS API Error: " message)), log')
    | (inl e, log') =>
        (inl (HTTPException 500 (String.append "Internal error: " (str e))), log')
    end.

(** [group['Keys'][0] if group['Keys'] else 'Unknown'] *)
Definition first_key (group : CE.Group.t) : string :=
  match CE.Group.Keys group with
  | k :: _ => k
  | [] => "Unknown"
  end.

(** *** [analyze_costs] *)

(** The variables the loop over [ResultsByTime] updates. *)
Record analysis : Type :=
  { acc_total_cost : float;
    acc_currency : string;
    acc_data : list CostRecord.t;
    acc_labels : list string }.

Definition analysis_start : analysis :=
  {| acc_total_cost := PrimFloat.zero;
     acc_currency := "USD";
     acc_data := [];
     acc_labels := [] |}.

(** Body of [for group in result['Groups']]. *)
Definition add_group (period_start period_end : string)
           (st : analysis) (group : CE.Group.t) : result analysis :=
  (let group_key := first_key group in
   blended <- dict_item "BlendedCost" (CE.Group.Metrics group) ;;
   cost <- float_of_str (CE.MetricValue.Amount blended) ;;
   let currency := CE.MetricValue.Unit blended in
   inr {| acc_total_cost := PyFloat.add (acc_total_cost st) cost;
          acc_currency := currency;
          acc_data :=
            acc_data st ++
              [ {| CostRecord.period_start := period_start;
                   CostRecord.period_end := period_end;
                   CostRecord.group := Some group_key;
                   CostRecord.cost := cost;
                   CostRecord.currency := currency |} ];
          acc_labels := acc_labels st |})%res.

(** Body of [for result in response['ResultsByTime']]. *)
Definition add_result (st : analysis) (r : CE.ResultByTime.t) : result analysis :=
  (let period_start := CE.DateInterval.Start (CE.ResultByTime.TimePeriod r) in
   let period_end := CE.DateInterval.End' (CE.ResultByTime.TimePeriod r) in
   match CE.ResultByTime.Groups r with
   | _ :: _ =>
       for_each (add_group period_start period_end) (CE.ResultByTime.Groups r) st
   | [] =>
       blended <- dict_item "BlendedCost" (CE.ResultByTime.Total r) ;;
       cost <- float_of_str (CE.MetricValue.Amount blended) ;;
       let currency := CE.MetricValue.Unit blended in
       inr {| acc_total_cost := PyFloat.add (acc_total_cost st) cost;
              acc_currency := currency;
              acc_data :=
                acc_data st ++
                  [ {| CostRecord.period_start := period_start;
                       CostRecord.period_end := period_end;
                       CostRecord.group := None;
                       CostRecord.cost := cost;
                       CostRecord.currency := currency |} ];
              acc_labels := acc_labels st ++ [period_start] |}
   end)%res.

Definition colors : list string :=
  [ "rgb(255, 99, 132)"; "rgb(54, 162, 235)"; "rgb(255, 205, 86)";
    "rgb(75, 192, 192)"; "rgb(153, 102, 255)"; "rgb(255, 159, 64)" ].

(** [colors[i % len(colors)]] *)
Definition color (i : nat) : string :=
  nth (Nat.modulo i (List.length colors)) colors "".

(** The value at an existing key changed in place ([groups[k].append(c)]). *)
Fixpoint dict_modify {V : Type} (k : string) (f : V -> V) (d : dict V) : dict V :=
  match d with
  | [] => []
  | (k', v) :: d' =>
      if String.eqb k k' then (k', f v) :: d' else (k', v) :: dict_modify k f d'
  end.

(** Body of [for item in data] that fills [groups]. *)
Definition add_to_groups (groups : dict (list float)) (item : CostRecord.t)
  : dict (list float) :=
  let group_name := CostRecord.group_or_unknown item in
  let groups :=
    if negb (dict_mem group_name groups) then dict_set group_name [] groups
    else groups in
  dict_modify group_name (fun costs => costs ++ [CostRecord.cost item]) groups.

Definition group_costs (data : list CostRecord.t) : dict (list float) :=
  fold_left add_to_groups data [].

(** [chart_data['datasets']], by the two branches of
    [if not request.group_by]. *)
Definition make_datasets (group_by : option string) (data : list CostRecord.t)
  : list Dataset.t :=
  if negb (Str.truthy_option group_by) then
    [ {| Dataset.label := "Cost";
         Dataset.data := map CostRecord.cost data;
         Dataset.borderColor := "rgb(75, 192, 192)";
         Dataset.backgroundColor := "rgba(75, 192, 192, 0.2)" |} ]
  else
    map (fun '(i, (group_name, costs)) =>
           {| Dataset.label := group_name;
              Dataset.data := costs;
              Dataset.borderColor := color i;
              Dataset.backgroundColor :=
                Str.replace ")" ", 0.2)" (Str.replace "rgb" "rgba" (color i)) |})
        (enumerate (group_costs data)).

(** [query['GroupBy']], set under [if request.group_by]. *)
Definition group_by_argument (group_by : option string)
  : option (list CE.GroupDefinition.t) :=
  match group_by with
    | Some g =>
      if Str.truthy g
      then Some [ {| CE.GroupDefinition.Type' := "DIMENSION";
                     CE.GroupDefinition.Key := g |} ]
      else None
  | None => None
  end.

(** [query], as built under [# Build the query]. *)
Definition cost_query (request : CostRequest.t) (start_date end_date : datetime)
  : CE.CostAndUsageQuery.t :=
  {| CE.CostAndUsageQuery.TimePeriod :=
       {| CE.DateInterval.Start := strftime_Ymd start_date;
          CE.DateInterval.End' := strftime_Ymd end_date |};
     CE.CostAndUsageQuery.Granularity := CostRequest.granularity request;
     CE.CostAndUsageQuery.Metrics :=
       ["BlendedCost"; "UnblendedCost"; "UsageQuantity"];
     CE.CostAndUsageQuery.GroupBy :=
       group_by_argument (CostRequest.group_by request) |}.

(** The [CostResponse] returned once the loop has ended in [st]. *)
Definition cost_response (request : CostRequest.t) (st : analysis)
  : CostResponse.t :=
  {| CostResponse.total_cost := PyFloat.round2 (acc_total_cost st);
     CostResponse.currency := acc_currency st;
     CostResponse.data := acc_data st;
     CostResponse.chart_data :=
       {| ChartData.labels := acc_labels st;
          ChartData.datasets :=
            make_datasets (CostRequest.group_by request) (acc_data st) |} |}.

(** The [try] block of [analyze_costs]. *)
Definition analyze_costs_body (request : CostRequest.t) : M CostResponse.t :=
  (_ <- get_cost_explorer_client ;;
   start_date <- lift (fromisoformat
                         (Str.replace "Z" "+00:00" (CostRequest.start_date request))) ;;
   end_date <- lift (fromisoformat
                       (Str.replace "Z" "+00:00" (CostRequest.end_date request))) ;;
   inverted <- lift (datetime_ge start_date end_date) ;;
   if inverted : bool
   then raise (HTTPException 400 "Start date must be before end date")
   else
     response <- get_cost_and_usage (cost_query request start_date end_date) ;;
     st <- lift (for_each add_result (CE.CostAndUsage.ResultsByTime response)
                          analysis_start) ;;
     ret (cost_response request st))%M.

Definition analyze_costs (request : CostRequest.t) : M CostResponse.t :=
  except_clauses (analyze_costs_body request).

(** *** [get_top_services] *)

(** Body of [for group in result['Groups']] that fills [services]. *)
Definition add_service (services : dict float) (group : CE.Group.t)
  : result (dict float) :=
  (let service := first_key group in
   blended <- dict_item "BlendedCost" (CE.Group.Metrics group) ;;
   cost <- float_of_str (CE.MetricValue.Amount blended) ;;
   inr match dict_get service services with
       | Some total => dict_set service (PyFloat.add total cost) services
       | None => dict_set service cost services
       end)%res.

Definition add_result_services (services : dict float) (r : CE.ResultByTime.t)
  : result (dict float) :=
  for_each add_service (CE.ResultByTime.Groups r) services.

Definition service_totals (response : CE.CostAndUsage.t) : result (dict float) :=
  for_each add_result_services (CE.CostAndUsage.ResultsByTime response) [].

(** [sorted(services.items(), key=lambda x: x[1], reverse=True)[:limit]] *)
Definition ranked_services (services : dict float) (limit : Z)
  : list (string * float) :=
  slice_to limit (py_sorted snd true services).

(** The keyword arguments of the call in [get_top_services]. *)
Definition services_query (start_date end_date : datetime)
  : CE.CostAndUsageQuery.t :=
  {| CE.CostAndUsageQuery.TimePeriod :=
       {| CE.DateInterval.Start := strftime_Ymd start_date;
          CE.DateInterval.End' := strftime_Ymd end_date |};
     CE.CostAndUsageQuery.Granularity := "MONTHLY";
     CE.CostAndUsageQuery.Metrics := ["BlendedCost"];
     CE.CostAndUsageQuery.GroupBy :=
       Some [ {| CE.GroupDefinition.Type' := "DIMENSION";
                 CE.GroupDefinition.Key := "SERVICE" |} ] |}.

(** An entry of the list returned under ['top_services']. *)
Definition service_entry (item : string * float) : ServiceCost.t :=
  let '(service, cost) := item in
  {| ServiceCost.service := service; ServiceCost.cost := PyFloat.round2 cost |}.

Definition get_top_services_body (days limit : Z) : M TopServices.t :=
  (_ <- get_cost_explorer_client ;;
   let end_date := datetime_now w in
   start_date <- lift (minus_days end_date days) ;;
   response <- get_cost_and_usage (services_query start_date end_date) ;;
   services <- lift (service_totals response) ;;
   let top_services := ranked_services services limit in
   ret {| TopServices.top_services := map service_entry top_services;
          TopServices.total_services := Z.of_nat (List.length services);
          TopServices.period_days := days |})%M.

Definition get_top_services (days limit : Z) : M TopServices.t :=
  except_clauses (get_top_services_body days limit).

(** *** [get_cost_forecast] *)

(** Body of [for result in response['ForecastResultsByTime']]. *)
Definition add_forecast (forecast_data : list ForecastPoint.t)
           (r : CE.ForecastResult.t) : result (list ForecastPoint.t) :=
  (mean <- float_of_str (CE.ForecastResult.MeanValue r) ;;
   lower <- float_of_str (CE.ForecastResult.PredictionIntervalLowerBound r) ;;
   upper <- float_of_str (CE.ForecastResult.PredictionIntervalUpperBound r) ;;
   inr (forecast_data ++
          [ {| ForecastPoint.date :=
                 CE.DateInterval.Start (CE.ForecastResult.TimePeriod r);
               ForecastPoint.mean_value := mean;
               ForecastPoint.prediction_interval_lower := lower;
               ForecastPoint.prediction_interval_upper := upper |} ]))%res.

(** The keyword arguments of the call in [get_cost_forecast]. *)
Definition forecast_query (start_date end_date : datetime)
  : CE.CostForecastQuery.t :=
  {| CE.CostForecastQuery.TimePeriod :=
       {| CE.DateInterval.Start := strftime_Ymd start_date;
          CE.DateInterval.End' := strftime_Ymd end_date |};
     CE.CostForecastQuery.Metric := "BLENDED_COST";
     CE.CostForecastQuery.Granularity := "DAILY" |}.

Definition get_cost_forecast_body (days : Z) : M Forecast.t :=
  (_ <- get_cost_explorer_client ;;
   let start_date := datetime_now w in
   end_date <- lift (plus_days start_date days) ;;
   response <- get_cost_forecast_call (forecast_query start_date end_date) ;;
   forecast_data <- lift (for_each add_forecast
                            (CE.CostForecast.ForecastResultsByTime response) []) ;;
   ret {| Forecast.forecast_data := forecast_data;
          Forecast.total_forecast :=
            builtin_sum (map ForecastPoint.mean_value forecast_data);
          Forecast.currency := "USD";
          Forecast.forecast_days := days |})%M.

Definition get_cost_forecast (days : Z) : M Forecast.t :=
  except_clauses (get_cost_forecast_body days).

End Handlers.

(* ================================================================= *)
(** ** A reference runtime

        An executable [Runtime] for running the handlers on concrete requests.
    It follows CPython 3.11 on the spellings it accepts and raises
    [ValueError] on every other, where CPython accepts more (exponents,
    [inf], [nan], underscores and surrounding blanks for [float];
    fractional seconds, shorter times and compact dates for
    [fromisoformat]).  The theorems below hold for every [Runtime], this
    one included. *)

Module Reference.

(** **** Decimal digits *)

Definition digit (c : ascii) : option Z :=
  let n := Z.of_nat (nat_of_ascii c) in
  if (48 <=? n) && (n <=? 57) then Some (n - 48) else None.

(** The number written by a string of digits, continuing from [acc]. *)
Fixpoint digits_from (acc : Z) (s : string) : option Z :=
  match s with
  | EmptyString => Some acc
  | String c s' =>
      match digit c with
      | Some d => digits_from (10 * acc + d) s'
      | None => None
      end
  end.

(** A non-empty string of digits of the given width. *)
Definition number (width : nat) (s : string) : option Z :=
  if Nat.eqb (String.length s) width && negb (Nat.eqb width O)
  then digits_from 0 s else None.

Definition decimal (n : Z) : string := NilZero.string_of_int (Z.to_int n).

(** [n] in decimal, padded with zeros to [width] characters. *)
Definition padded (width : nat) (n : Z) : string :=
  let s := decimal n in
  String.append
    (string_of_list_ascii (repeat "0"%char (width - String.length s))) s.

(** [repr(s)] for a string without quotes or escapes. *)
Definition repr (s : string) : string :=
  String.append "'" (String.append s "'").

(** **** [float] on decimal literals *)

(** Splits [s] at its first point. *)
Fixpoint split_point (s : string) : string * option string :=
  match s with
  | EmptyString => (EmptyString, None)
  | String c s' =>
      if Ascii.eqb c "."%char then (EmptyString, Some s')
      else let '(a, b) := split_point s' in (String c a, b)
  end.

(** The double nearest to [n / 10^k], with the sign [negative]: one
    correctly rounded division of the two integers. *)
Definition nearest_double (negative : bool) (n : Z) (k : nat) : float :=
  match n with
  | Zpos p =>
      SF2Prim (SFdiv prec emax (S754_finite negative p 0)
                     (S754_finite false (Z.to_pos (10 ^ Z.of_nat k)) 0))
  | _ => if negative then neg_zero else zero
  end.

(** Digits with at most one point among them, and at least one digit. *)
Definition unsigned_literal (negative : bool) (s : string) : option float :=
  let '(int_part, frac) := split_point s in
  let frac_part := match frac with Some f => f | None => EmptyString end in
  if Nat.eqb (String.length int_part + String.length frac_part) O then None
  else
    match digits_from 0 (String.append int_part frac_part) with
    | Some n => Some (nearest_double negative n (String.length frac_part))
    | None => None
    end.

Definition float_of_str (s : string) : result float :=
  let parsed :=
    match s with
    | String "-" s' => unsigned_literal true s'
    | String "+" s' => unsigned_literal false s'
    | _ => unsigned_literal false s
    end in
  match parsed with
  | Some x => inr x
  | None =>
      inl (PyException
             (String.append "could not convert string to float: " (repr s)))
  end.

(** **** Dates *)

(** A datetime: the proleptic Gregorian ordinal of its day (1 is
    0001-01-01), the second of the day, and the offset from UTC in
    seconds, absent on a naive datetime. *)
Record datetime : Type :=
  { ordinal : Z; second_of_day : Z; utcoffset : option Z }.

Definition max_ordinal : Z := 3652059.

Definition is_leap (y : Z) : bool :=
  (y mod 4 =? 0) && (negb (y mod 100 =? 0) || (y mod 400 =? 0)).

Definition days_in_month (y m : Z) : Z :=
  if m =? 2 then (if is_leap y then 29 else 28)
  else if (m =? 4) || (m =? 6) || (m =? 9) || (m =? 11) then 30
  else 31.

Definition days_before_year (y : Z) : Z :=
  let y' := y - 1 in
  y' * 365 + y' / 4 - y' / 100 + y' / 400.

(** Days of year [y] before the first of month [m]. *)
Fixpoint days_before_month_from (y : Z) (months : nat) (m : Z) : Z :=
  match months with
  | O => 0
  | S k => days_before_month_from y k (m - 1) + days_in_month y (m - 1)
  end.

Definition days_before_month (y m : Z) : Z :=
  days_before_month_from y (Z.to_nat (m - 1)) m.

Definition ymd2ord (y m d : Z) : Z :=
  days_before_year y + days_before_month y m + d.

(** The month and day of the [n]-th day (from 0) of year [y], looking
    from month [m] on. *)
Fixpoint month_day_from (y : Z) (fuel : nat) (m n : Z) : Z * Z :=
  match fuel with
  | O => (m, n + 1)
  | S k =>
      if n <? days_in_month y m then (m, n + 1)
      else month_day_from y k (m + 1) (n - days_in_month y m)
  end.

Definition ord2ymd (n : Z) : Z * Z * Z :=
  let n0 := n - 1 in
  let n400 := n0 / 146097 in
  let r400 := n0 mod 146097 in
  let n100 := r400 / 36524 in
  let r100 := r400 mod 36524 in
  let n4 := r100 / 1461 in
  let r4 := r100 mod 1461 in
  let n1 := r4 / 365 in
  let r1 := r4 mod 365 in
  let year := n400 * 400 + n100 * 100 + n4 * 4 + n1 + 1 in
  if (n1 =? 4) || (n100 =? 4) then (year - 1, 12, 31)
  else let '(m, d) := month_day_from year 11 1 r1 in (year, m, d).

Definition value_error (message : string) : exn := PyException message.

Definition invalid_isoformat (s : string) : exn :=
  value_error (String.append "Invalid isoformat string: " (repr s)).

(** What the string spells, before any range is checked: the date, the
    time of day if there is one, the signed offset in seconds if there is
    one. *)
Record iso_fields : Type :=
  { iso_date : Z * Z * Z;
    iso_time : option (Z * Z * Z);
    iso_offset : option Z }.

(** [YYYY-MM-DD] *)
Definition parse_date (s : string) : option (Z * Z * Z) :=
  match number 4 (substring 0 4 s), number 2 (substring 5 2 s),
        number 2 (substring 8 2 s) with
  | Some y, Some m, Some d =>
      if String.eqb (substring 4 1 s) "-" && String.eqb (substring 7 1 s) "-"
      then Some (y, m, d) else None
  | _, _, _ => None
  end.

(** [HH:MM:SS] *)
Definition parse_time (s : string) : option (Z * Z * Z) :=
  match number 2 (substring 0 2 s), number 2 (substring 3 2 s),
        number 2 (substring 6 2 s) with
  | Some h, Some m, Some sec =>
      if String.eqb (substring 2 1 s) ":" && String.eqb (substring 5 1 s) ":"
      then Some (h, m, sec) else None
  | _, _, _ => None
  end.

(** [+HH:MM] or [-HH:MM], as seconds. *)
Definition parse_offset (s : string) : option Z :=
  match number 2 (substring 1 2 s), number 2 (substring 4 2 s) with
  | Some h, Some m =>
      if String.eqb (substring 3 1 s) ":"
      then
        if String.eqb (substring 0 1 s) "+" then Some (h * 3600 + m * 60)
        else if String.eqb (substring 0 1 s) "-" then Some (- (h * 3600 + m * 60))
        else None
      else None
  | _, _ => None
  end.

(** The three accepted spellings: [YYYY-MM-DD], [YYYY-MM-DD?HH:MM:SS] and
    [YYYY-MM-DD?HH:MM:SS+HH:MM], [?] being any one character. *)
Definition parse_isoformat (s : string) : option iso_fields :=
  let len := String.length s in
  match parse_date (substring 0 10 s) with
  | None => None
  | Some date =>
      if Nat.eqb len 10
      then Some {| iso_date := date; iso_time := None; iso_offset := None |}
      else
        match parse_time (substring 11 8 s) with
        | None => None
        | Some time =>
            if Nat.eqb len 19
            then Some {| iso_date := date; iso_time := Some time;
                         iso_offset := None |}
            else if Nat.eqb len 25
            then
              match parse_offset (substring 19 6 s) with
              | Some off =>
                  Some {| iso_date := date; iso_time := Some time;
                          iso_offset := Some off |}
              | None => None
              end
            else None
        end
  end.

(** [repr(timedelta(seconds=t))] for a whole number of seconds [t <> 0]. *)
Definition repr_timedelta (t : Z) : string :=
  let days := t / 86400 in
  let seconds := t mod 86400 in
  let d := String.append "days=" (decimal days) in
  let sec := String.append "seconds=" (decimal seconds) in
  String.append "datetime.timedelta("
    (String.append
       (if days =? 0 then sec
        else if seconds =? 0 then d
        else String.append d (String.append ", " sec))
       ")").

(** The range checks, in the order CPython makes them: the offset when
    the time zone is built, then year, month, day, hour, minute, second
    when the datetime is. *)
Definition check_fields (f : iso_fields) : result datetime :=
  let '(y, m, d) := iso_date f in
  let '(h, mi, sec) :=
    match iso_time f with Some t => t | None => (0, 0, 0) end in
  let offset_ok :=
    match iso_offset f with
    | Some off => Z.abs off <? 86400
    | None => true
    end in
  if negb offset_ok then
    inl (value_error
           (String.append
              "offset must be a timedelta strictly between -timedelta(hours=24) and timedelta(hours=24), not "
              (String.append
                 (repr_timedelta
                    (match iso_offset f with Some off => off | None => 0 end))
                 ".")))
  else if y <? 1 then
    inl (value_error
           (String.append "year " (String.append (decimal y) " is out of range")))
  else if negb ((1 <=? m) && (m <=? 12)) then
    inl (value_error "month must be in 1..12")
  else if negb ((1 <=? d) && (d <=? days_in_month y m)) then
    inl (value_error "day is out of range for month")
  else if negb (h <=? 23) then inl (value_error "hour must be in 0..23")
  else if negb (mi <=? 59) then inl (value_error "minute must be in 0..59")
  else if negb (sec <=? 59) then inl (value_error "second must be in 0..59")
  else
    inr {| ordinal := ymd2ord y m d;
           second_of_day := h * 3600 + mi * 60 + sec;
           utcoffset := iso_offset f |}.

Definition fromisoformat (s : string) : result datetime :=
  match parse_isoformat s with
  | Some f => check_fields f
  | None => inl (invalid_isoformat s)
  end.

(** Seconds since the start of day 0, in local time. *)
Definition local_seconds (d : datetime) : Z := ordinal d * 86400 + second_of_day d.

Definition datetime_ge (a b : datetime) : result bool :=
  match utcoffset a, utcoffset b with
  | None, None => inr (local_seconds b <=? local_seconds a)
  | Some oa, Some ob => inr (local_seconds b - ob <=? local_seconds a - oa)
  | _, _ =>
      inl (PyException "can't compare offset-naive and offset-aware datetimes")
  end.

(** [%Y] is the year as glibc prints it, without padding. *)
Definition strftime_Ymd (d : datetime) : string :=
  let '(y, m, day) := ord2ymd (ordinal d) in
  String.append (decimal y)
    (String.append "-" (String.append (padded 2 m) (String.append "-" (padded 2 day)))).

(** [timedelta(days=n)], as its number of days. *)
Definition timedelta_days (n : Z) : result Z :=
  if 999999999 <? Z.abs n
  then inl (PyException
              (String.append "days="
                 (String.append (decimal n) "; must have magnitude <= 999999999")))
  else inr n.

(** The datetime [n] days after [d]. *)
Definition shifted (d : datetime) (n : Z) : result datetime :=
  let day := ordinal d + n in
  if (1 <=? day) && (day <=? max_ordinal)
  then inr {| ordinal := day; second_of_day := second_of_day d;
              utcoffset := utcoffset d |}
  else inl (PyException "date value out of range").

Definition plus_days (d : datetime) (n : Z) : result datetime :=
  rbind (timedelta_days n) (fun delta => shifted d delta).

Definition minus_days (d : datetime) (n : Z) : result datetime :=
  rbind (timedelta_days n) (fun delta => shifted d (- delta)).

(** [str] of Starlette's [HTTPException]: the status code, a colon, the
    detail. *)
Definition str_HTTPException (status_code : Z) (detail : string) : string :=
  String.append (decimal status_code) (String.append ": " detail).

Definition runtime : Runtime :=
  Build_Runtime fromisoformat datetime_ge strftime_Ymd plus_days minus_days
                float_of_str
                PyFloat.sum_from_zero str_HTTPException.

End Reference.

(* ================================================================= *)
(** ** Vocabulary of the properties *)

(** The labels of a list in the order in which each is first met: what the
    keys of a dict are after the labels were inserted one by one. *)
Definition note_label (seen : list string) (x : string) : list string :=
  if existsb (String.eqb x) seen then seen else seen ++ [x].

Definition first_seen_onto (seen : list string) (l : list string) : list string :=
  fold_left note_label l seen.

Definition first_seen (l : list string) : list string := first_seen_onto [] l.

(** The service label of every group of a provider response, in the order
    in which they are returned. *)
Definition service_labels (response : CE.CostAndUsage.t) : list string :=
  flat_map (fun r => map (fun g => first_key g) (CE.ResultByTime.Groups r))
           (CE.CostAndUsage.ResultsByTime response).

(** Every group of a provider response, bucket after bucket. *)
Definition all_groups (response : CE.CostAndUsage.t) : list CE.Group.t :=
  flat_map (fun r => CE.ResultByTime.Groups r)
           (CE.CostAndUsage.ResultsByTime response).

(** The costs billed to [service] among labelled costs, in their order. *)
Definition costs_of (service : string) (entries : list (string * float))
  : list float :=
  map snd (filter (fun e => String.eqb service (fst e)) entries).

(** [costs] added from the left onto [total]; without a [total] the first
    cost starts the sum, and without any cost there is none. *)
Definition accumulate (total : option float) (costs : list float) : option float :=
  match total, costs with
  | Some t, _ => Some (fold_left PyFloat.add costs t)
  | None, c :: rest => Some (fold_left PyFloat.add rest c)
  | None, [] => None
  end.

(** [request.group_by] as a truth value: [None] and the empty string are
    false. *)
Definition grouping_requested (request : CostRequest.t) : bool :=
  Str.truthy_option (CostRequest.group_by request).

(** [l1] is an initial segment of [l2]. *)
Definition initial_segment {A : Type} (l1 l2 : list A) : Prop :=
  exists rest, l2 = l1 ++ rest.

(** The entries whose cost equals [c], by the [==] of floats. *)
Definition with_cost (c : float) (l : list (string * float)) : list (string * float) :=
  filter (fun e => PrimFloat.eqb (snd e) c) l.

(** No entry costs less than an entry after it. *)
Definition non_increasing (l : list (string * float)) : Prop :=
  StronglySorted (fun a b => PrimFloat.leb (snd b) (snd a) = true) l.

(** A client error is an [HTTPException] with a 4xx status. *)
Definition is_client_error (e : exn) : bool :=
  match e with
  | HTTPException status_code _ => (400 <=? status_code) && (status_code <? 500)
  | _ => false
  end.

Section Vocabulary.
Context {RT : Runtime}.

(** The running total is the left-to-right sum of the costs recorded. *)
Definition total_is_sum (st : analysis) : Prop :=
  acc_total_cost st = PyFloat.sum_from_zero (map CostRecord.cost (acc_data st)).


(** What [except Exception] makes of an exception that is not a
    [ClientError]. *)
Definition internal_error (e : exn) : exn :=
  HTTPException 500 (String.append "Internal error: " (str e)).

(** The [HTTPException] that [get_cost_explorer_client] raises without
    credentials. *)
Definition credentials_error : exn := HTTPException 500 credentials_detail.

(** The [HTTPException] that [analyze_costs] raises on an inverted range. *)
Definition inverted_range_error : exn :=
  HTTPException 400 "Start date must be before end date".

(** [e] is the service and the cost that the loop reads from group [g]. *)
Definition billed (g : CE.Group.t) (e : string * float) : Prop :=
  fst e = first_key g /\
  exists blended,
    dict_get "BlendedCost" (CE.Group.Metrics g) = Some blended /\
    float_of_str (CE.MetricValue.Amount blended) = inr (snd e).

(** [p] is the entry made of the provider's period [r]. *)
Definition entry_of (r : CE.ForecastResult.t) (p : ForecastPoint.t) : Prop :=
  ForecastPoint.date p = CE.DateInterval.Start (CE.ForecastResult.TimePeriod r) /\
  float_of_str (CE.ForecastResult.MeanValue r) = inr (ForecastPoint.mean_value p).

(** The query of the example: 2024-01-01 to 2024-01-03, daily, no
    grouping. *)
Definition example_request : CostRequest.t :=
  {| CostRequest.start_date := "2024-01-01";
     CostRequest.end_date := "2024-01-03";
     CostRequest.granularity := "DAILY";
     CostRequest.group_by := None |}.

End Vocabulary.

(* ================================================================= *)
(** ** Example worlds *)

Module Example.

Definition blended (amount unit : string) : dict CE.MetricValue.t :=
  [ ("BlendedCost",
     {| CE.MetricValue.Amount := amount; CE.MetricValue.Unit := unit |}) ].

Definition bucket (start stop : string) (total : dict CE.MetricValue.t)
           (groups : list CE.Group.t) : CE.ResultByTime.t :=
  {| CE.ResultByTime.TimePeriod :=
       {| CE.DateInterval.Start := start; CE.DateInterval.End' := stop |};
     CE.ResultByTime.Total := total;
     CE.ResultByTime.Groups := groups |}.

Definition group_of (key amount unit : string) : CE.Group.t :=
  {| CE.Group.Keys := [key]; CE.Group.Metrics := blended amount unit |}.

(** Two day-buckets without groups, costing 10.00 and 20.00. *)
Definition two_days : CE.CostAndUsage.t :=
  {| CE.CostAndUsage.ResultsByTime :=
       [ bucket "2024-01-01" "2024-01-02" (blended "10.00" "USD") [];
         bucket "2024-01-02" "2024-01-03" (blended "20.00" "USD") [] ] |}.

(** Two buckets grouped by service; three services total 7.5. *)
Definition by_service : CE.CostAndUsage.t :=
  {| CE.CostAndUsage.ResultsByTime :=
       [ bucket "2024-01-01" "2024-02-01" []
           [ group_of "Amazon EC2" "5.00" "USD";
             group_of "Amazon S3" "7.50" "USD";
             group_of "AWS Lambda" "5.25" "USD" ];
         bucket "2024-02-01" "2024-03-01" []
           [ group_of "Amazon EC2" "2.50" "USD";
             group_of "Amazon RDS" "7.50" "EUR" ] ] |}.

Definition forecast_point (start stop mean lower upper : string)
  : CE.ForecastResult.t :=
  {| CE.ForecastResult.TimePeriod :=
       {| CE.DateInterval.Start := start; CE.DateInterval.End' := stop |};
     CE.ForecastResult.MeanValue := mean;
     CE.ForecastResult.PredictionIntervalLowerBound := lower;
     CE.ForecastResult.PredictionIntervalUpperBound := upper |}.

(** A forecast the provider prices in euros. *)
Definition forecast : CE.CostForecast.t :=
  {| CE.CostForecast.Total :=
       {| CE.MetricValue.Amount := "3.75"; CE.MetricValue.Unit := "EUR" |};
     CE.CostForecast.ForecastResultsByTime :=
       [ forecast_point "2024-01-31" "2024-02-01" "1.5" "1.0" "2.0";
         forecast_point "2024-02-01" "2024-02-02" "2.25" "2.0" "2.5" ] |}.

(** Noon of 2024-01-31, naive. *)
Definition noon : Reference.datetime :=
  {| Reference.ordinal := Reference.ymd2ord 2024 1 31;
     Reference.second_of_day := 43200;
     Reference.utcoffset := None |}.

(** The provider answers a grouped query by service and any other by
    day. *)
Definition world : World (RT := Reference.runtime) :=
  @Build_World Reference.runtime
    None
    (fun q =>
       match CE.CostAndUsageQuery.GroupBy q with
       | Some _ => inr by_service
       | None => inr two_days
       end)
    (fun _ => inr forecast)
    noon.

(** The provider has nothing to report. *)
Definition quiet_world : World (RT := Reference.runtime) :=
  @Build_World Reference.runtime
    None
    (fun _ => inr {| CE.CostAndUsage.ResultsByTime := [] |})
    (fun _ => inr forecast)
    noon.

(** [boto3.client] finds no credentials. *)
Definition no_credentials : World (RT := Reference.runtime) :=
  @Build_World Reference.runtime
    (Some (NoCredentialsError "Unable to locate credentials"))
    (fun _ => inr two_days)
    (fun _ => inr forecast)
    noon.

Definition request (start stop : string) (group_by : option string)
  : CostRequest.t :=
  {| CostRequest.start_date := start;
     CostRequest.end_date := stop;
     CostRequest.granularity := "DAILY";
     CostRequest.group_by := group_by |}.

End Example.

(* ================================================================= *)
(** ** The dashboard script

        The function of the page served by [dashboard()] that posts to
    [analyze_costs], and the controls of the page that it reads. *)

Module Dashboard.

(** What [document.getElementById] finds for the four ids that
    [analyzeCosts] looks up: the [value] of the control, or [None] where
    the page has no element of that id and the lookup gives [null]. *)
Module Controls.
Record t : Type := {
  startDate : option string;
  endDate : option string;
  granularity : option string;
  groupBy : option string
}.
End Controls.

(** What a call of [analyzeCosts] comes to: reading [.value] of [null]
    throws a [TypeError] before the [try] is entered and nothing is sent;
    an empty date is reported with [showError]; otherwise a body is posted
    to [/costs/analyze]. *)
Inductive outcome : Type :=
| TypeError
| showError (message : string)
| fetch (body : CostRequest.t).

(** [analyzeCosts()].  A string of JavaScript is false when it is empty,
    so [groupBy || null] is [null] on the empty choice. *)
Definition analyzeCosts (page : Controls.t) : outcome :=
  match Controls.startDate page with
  | None => TypeError
  | Some startDate =>
    match Controls.endDate page with
    | None => TypeError
    | Some endDate =>
      match Controls.granularity page with
      | None => TypeError
      | Some granularity =>
        match Controls.groupBy page with
        | None => TypeError
        | Some groupBy =>
          if negb (Str.truthy startDate) || negb (Str.truthy endDate)
          then showError "Please select both start and end dates"
          else
            fetch {| CostRequest.start_date := startDate;
                     CostRequest.end_date := endDate;
                     CostRequest.granularity := granularity;
                     CostRequest.group_by :=
                       if Str.truthy groupBy then Some groupBy else None |}
        end
      end
    end
  end.

(** The page as [dashboard()] serves it.  The three controls [endDate],
    [granularity] and [groupBy] hold what the user chose.  No element has
    the id [startDate]: where the start date field should stand, the markup
    reads [< type="date" id="startDate">], which opens no tag. *)
Definition served (endDate granularity groupBy : string) : Controls.t :=
  {| Controls.startDate := None;
     Controls.endDate := Some endDate;
     Controls.granularity := Some granularity;
     Controls.groupBy := Some groupBy |}.

End Dashboard.

(* ================================================================= *)
(** ** Further vocabulary *)

(** What a record of [data] says of its bucket and of its group. *)
Definition record_shape (item : CostRecord.t) : string * string * option string :=
  (CostRecord.period_start item, CostRecord.period_end item, CostRecord.group item).

(** The records that a bucket gives rise to: one per group, or one for the
    bucket when it has no group. *)
Definition bucket_shapes (b : CE.ResultByTime.t)
  : list (string * string * option string) :=
  let start := CE.DateInterval.Start (CE.ResultByTime.TimePeriod b) in
  let stop := CE.DateInterval.End' (CE.ResultByTime.TimePeriod b) in
  match CE.ResultByTime.Groups b with
  | [] => [(start, stop, None)]
  | gs => map (fun g => (start, stop, Some (first_key g))) gs
  end.

(** The record carries no group. *)
Definition ungrouped (item : CostRecord.t) : bool :=
  match CostRecord.group item with
  | None => true
  | Some _ => false
  end.

(** The costs of the records charted under [label], in their order. *)
Definition costs_labelled (label : string) (data : list CostRecord.t) : list float :=
  map CostRecord.cost
      (filter (fun item => String.eqb label (CostRecord.group_or_unknown item)) data).

(** The string has no ['Z'] in it. *)
Fixpoint no_Z (s : string) : bool :=
  match s with
  | EmptyString => true
  | String c s' => negb (Ascii.eqb c "Z"%char) && no_Z s'
  end.

(** What [except_clauses] turns an exception into. *)
Definition reported {RT : Runtime} (e : exn) : exn :=
  match e with
  | ClientError message =>
      HTTPException 500 (String.append "AWS API Error: " message)
  | _ => HTTPException 500 (String.append "Internal error: " (str e))
  end.

Section FurtherVocabulary.
Context {RT : Runtime}.

(** The metrics carry a [BlendedCost] whose amount reads as a float. *)
Definition priced (metrics : dict CE.MetricValue.t) : Prop :=
  exists blended cost,
    dict_get "BlendedCost" metrics = Some blended /\
    float_of_str (CE.MetricValue.Amount blended) = inr cost.

(** Every amount that the loop of [analyze_costs] reads in the bucket is
    there and reads as a float. *)
Definition well_formed_bucket (b : CE.ResultByTime.t) : Prop :=
  match CE.ResultByTime.Groups b with
  | [] => priced (CE.ResultByTime.Total b)
  | gs => Forall (fun g => priced (CE.Group.Metrics g)) gs
  end.

(** The labels track the records without group. *)
Definition labels_track_ungrouped (st : analysis) : Prop :=
  acc_labels st = map CostRecord.period_start (filter ungrouped (acc_data st)).

(** Looking a label up in [groups] gives the costs recorded under it. *)
Definition groups_hold (groups : dict (list float)) (data : list CostRecord.t) : Prop :=
  forall k,
    dict_get k groups
    = if existsb (String.eqb k) (map CostRecord.group_or_unknown data)
      then Some (costs_labelled k data) else None.

(** Every group of the bucket carries an amount that reads as a float:
    all that the loop of [get_top_services] reads in a bucket. *)
Definition billed_groups (b : CE.ResultByTime.t) : Prop :=
  Forall (fun g => priced (CE.Group.Metrics g)) (CE.ResultByTime.Groups b).

(** The mean and both bounds of the period read as floats. *)
Definition readable_forecast (r : CE.ForecastResult.t) : Prop :=
  (exists mean, float_of_str (CE.ForecastResult.MeanValue r) = inr mean) /\
  (exists lower,
      float_of_str (CE.ForecastResult.PredictionIntervalLowerBound r) = inr lower) /\
  (exists upper,
      float_of_str (CE.ForecastResult.PredictionIntervalUpperBound r) = inr upper).

End FurtherVocabulary.

(* ================================================================= *)
(** ** Further example worlds *)

Module Cases.

(** The provider throttles every request. *)
Definition throttled : World (RT := Reference.runtime) :=
  @Build_World Reference.runtime
    None
    (fun _ => inl (ClientError "An error occurred (ThrottlingException) when calling the GetCostAndUsage operation: Rate exceeded"))
    (fun _ => inl (ClientError "An error occurred (ThrottlingException) when calling the GetCostForecast operation: Rate exceeded"))
    Example.noon.

(** The provider answers the cost queries and throttles the forecasts. *)
Definition no_forecast : World (RT := Reference.runtime) :=
  @Build_World Reference.runtime
    None
    (fun _ => inr Example.by_service)
    (fun _ => inl (ClientError "An error occurred (ThrottlingException) when calling the GetCostForecast operation: Rate exceeded"))
    Example.noon.

(** The client is built, and the credentials are found missing when a
    request is signed. *)
Definition unsigned : World (RT := Reference.runtime) :=
  @Build_World Reference.runtime
    None
    (fun _ => inl (NoCredentialsError "Unable to locate credentials"))
    (fun _ => inl (NoCredentialsError "Unable to locate credentials"))
    Example.noon.

(** A grouped query over a month in which nothing was used: the second
    bucket has no group and, grouped, an empty [Total]. *)
Definition idle_month : CE.CostAndUsage.t :=
  {| CE.CostAndUsage.ResultsByTime :=
       [ Example.bucket "2024-01-01" "2024-02-01" []
           [ Example.group_of "Amazon EC2" "5.00" "USD" ];
         Example.bucket "2024-02-01" "2024-03-01" [] [] ] |}.

Definition idle_world : World (RT := Reference.runtime) :=
  @Build_World Reference.runtime
    None
    (fun _ => inr idle_month)
    (fun _ => inr Example.forecast)
    Example.noon.

(** Eight services in one bucket, two more than the palette has colors. *)
Definition eight_services : CE.CostAndUsage.t :=
  {| CE.CostAndUsage.ResultsByTime :=
       [ Example.bucket "2024-01-01" "2024-02-01" []
           [ Example.group_of "s0" "1.00" "USD"; Example.group_of "s1" "2.00" "USD";
             Example.group_of "s2" "3.00" "USD"; Example.group_of "s3" "4.00" "USD";
             Example.group_of "s4" "5.00" "USD"; Example.group_of "s5" "6.00" "USD";
             Example.group_of "s6" "7.00" "USD"; Example.group_of "s7" "8.00" "USD" ] ] |}.

Definition busy_world : World (RT := Reference.runtime) :=
  @Build_World Reference.runtime
    None
    (fun _ => inr eight_services)
    (fun _ => inr Example.forecast)
    Example.noon.

End Cases.

(* ================================================================= *)
(** * Properties *)

(** ** Running a handler *)

Section Running.
Context {RT : Runtime}.

Lemma bind_returns {A B : Type} (m : M A) (k : A -> M B) log b log' :
  bind m k log = (inr b, log') ->
  exists a log1, m log = (inr a, log1) /\ k a log1 = (inr b, log').
Proof.
  unfold bind. destruct (m log) as [[e | a] log1]; intros H.
  - discriminate.
  - exists a, log1. split; [reflexivity | exact H].
Qed.

Lemma lift_returns {A : Type} (r : result A) log a log' :
  lift r log = (inr a, log') -> r = inr a /\ log' = log.
Proof. unfold lift. intros H. inversion H. split; reflexivity. Qed.

Lemma ret_returns {A : Type} (x : A) log a log' :
  ret x log = (inr a, log') -> a = x /\ log' = log.
Proof. unfold ret. intros H. inversion H. split; reflexivity. Qed.

Lemma except_clauses_returns {A : Type} (body : M A) log a log' :
  except_clauses body log = (inr a, log') -> body log = (inr a, log').
Proof.
  unfold except_clauses.
  destruct (body log) as [[e | x] log1]; intros H.
  - destruct e; discriminate.
  - exact H.
Qed.

(** Whatever a [try] block raises leaves the handler as a 500, with the
    log of the block. *)
Lemma except_clauses_raises {A : Type} (body : M A) log e log' :
  body log = (inl e, log') ->
  exists detail, except_clauses body log = (inl (HTTPException 500 detail), log').
Proof.
  unfold except_clauses. intros ->.
  destruct e; eexists; reflexivity.
Qed.

Lemma client_returns (w : World) log u log' :
  get_cost_explorer_client w log = (inr u, log') ->
  boto3_client w = None /\ log' = log.
Proof.
  unfold get_cost_explorer_client.
  destruct (boto3_client w) as [e |]; intros H.
  - destruct e; discriminate.
  - apply ret_returns in H. split; [reflexivity | apply H].
Qed.

(** A loop that ends keeps what every step keeps. *)
Lemma for_each_invariant {S B : Type} (f : S -> B -> result S) (P : S -> Prop) :
  (forall s b s', P s -> f s b = inr s' -> P s') ->
  forall l s s', P s -> for_each f l s = inr s' -> P s'.
Proof.
  intros step l. induction l as [| b l IH]; intros s s' Hs H; simpl in H.
  - inversion H. subst. exact Hs.
  - destruct (f s b) as [e | s1] eqn:E; simpl in H; [discriminate |].
    eapply IH; [| exact H]. eapply step; eassumption.
Qed.

Lemma rbind_returns {A B : Type} (r : result A) (k : A -> result B) b :
  rbind r k = inr b -> exists a, r = inr a /\ k a = inr b.
Proof.
  destruct r as [e | a]; simpl; intros H; [discriminate |].
  exists a. split; [reflexivity | exact H].
Qed.

End Running.

(** One step back through a computation that returned: the value [x] bound
    by the first action, and what is left to run. *)
Tactic Notation "bound" hyp(H) "as" simple_intropattern(x) simple_intropattern(Hx) :=
  apply rbind_returns in H; destruct H as (x & Hx & H).

Tactic Notation "ran" hyp(H) "as"
       simple_intropattern(x) simple_intropattern(log) simple_intropattern(Hx) :=
  apply bind_returns in H; destruct H as (x & log & Hx & H).

Section Returning.
Context {RT : Runtime}.

(** What a returning [analyze_costs] went through. *)
Lemma analyze_costs_returns (w : World) request log r log' :
  analyze_costs w request log = (inr r, log') ->
  exists start_date end_date response st,
    boto3_client w = None /\
    fromisoformat (Str.replace "Z" "+00:00" (CostRequest.start_date request))
      = inr start_date /\
    fromisoformat (Str.replace "Z" "+00:00" (CostRequest.end_date request))
      = inr end_date /\
    datetime_ge start_date end_date = inr false /\
    client_get_cost_and_usage w (cost_query request start_date end_date)
      = inr response /\
    for_each add_result (CE.CostAndUsage.ResultsByTime response) analysis_start
      = inr st /\
    r = cost_response request st /\
    log' = log ++ [Call_get_cost_and_usage (cost_query request start_date end_date)].
Proof.
  intros H. apply except_clauses_returns in H. unfold analyze_costs_body in H.
  ran H as u log1 Hc.
  apply client_returns in Hc. destruct Hc as [Hc ->].
  ran H as start_date log2 Hs.
  apply lift_returns in Hs. destruct Hs as [Hs ->].
  ran H as end_date log3 He.
  apply lift_returns in He. destruct He as [He ->].
  ran H as inverted log4 Hi.
  apply lift_returns in Hi. destruct Hi as [Hi ->].
  destruct inverted; [discriminate |].
  ran H as response log5 Hr.
  unfold get_cost_and_usage in Hr. inversion Hr as [[Hr1 Hr2]]. clear Hr.
  subst log5.
  ran H as st log6 Hl.
  apply lift_returns in Hl. destruct Hl as [Hl ->].
  apply ret_returns in H. destruct H as [-> ->].
  exists start_date, end_date, response, st.
  repeat split; assumption || reflexivity.
Qed.

End Returning.

(* ================================================================= *)
(** ** The total and the currency of [/costs/analyze] *)

Section Analysis.
Context {RT : Runtime}.

Lemma sum_from_zero_snoc l x :
  PyFloat.sum_from_zero (l ++ [x]) = PyFloat.add (PyFloat.sum_from_zero l) x.
Proof. unfold PyFloat.sum_from_zero. rewrite fold_left_app. reflexivity. Qed.

Lemma add_group_total ps pe st g st' :
  total_is_sum st -> add_group ps pe st g = inr st' -> total_is_sum st'.
Proof.
  unfold total_is_sum, add_group. intros Hst H.
  bound H as blended _.
  bound H as cost _.
  inversion H; subst; clear H. cbn [acc_total_cost acc_data].
  rewrite map_app. cbn [map]. rewrite sum_from_zero_snoc, Hst. reflexivity.
Qed.

Lemma add_result_total st r st' :
  total_is_sum st -> add_result st r = inr st' -> total_is_sum st'.
Proof.
  unfold add_result. intros Hst H.
  destruct (CE.ResultByTime.Groups r) as [| g gs] eqn:E.
  - bound H as blended _.
    bound H as cost _.
    inversion H; subst; clear H. unfold total_is_sum in *.
    cbn [acc_total_cost acc_data].
    rewrite map_app. cbn [map]. rewrite sum_from_zero_snoc, Hst. reflexivity.
  - eapply for_each_invariant; [| exact Hst | exact H].
    intros s b s'. apply add_group_total.
Qed.



(** C1.  Whenever [/costs/analyze] answers, [total_cost] is the sum of the
    [cost] of the records in [data], added from 0.0 in the order of the
    list, rounded to two decimals. *)
Theorem analyze_costs_total_is_rounded_sum (w : World) request log r log' :
  analyze_costs w request log = (inr r, log') ->
  CostResponse.total_cost r
  = PyFloat.round2
      (PyFloat.sum_from_zero (map CostRecord.cost (CostResponse.data r))).
Proof.
  intros H. apply analyze_costs_returns in H.
  destruct H as (sd & ed & response & st & _ & _ & _ & _ & _ & Hloop & -> & _).
  simpl. f_equal.
  apply (for_each_invariant add_result total_is_sum add_result_total
           (CE.CostAndUsage.ResultsByTime response) analysis_start);
    [reflexivity | exact Hloop].
Qed.


End Analysis.

(** On the two day-buckets of [Example.world] the total is 30.0. *)
Lemma analyze_costs_total_is_rounded_sum_witness :
  exists r log',
    analyze_costs Example.world
      (Example.request "2024-01-01" "2024-01-03" None) [] = (inr r, log') /\
    CostResponse.total_cost r = 30%float /\
    CostResponse.total_cost r
    = PyFloat.round2
        (PyFloat.sum_from_zero (map CostRecord.cost (CostResponse.data r))).
Proof.
  eexists. eexists. split; [vm_compute; reflexivity |].
  split; [reflexivity |].
  eapply (@analyze_costs_total_is_rounded_sum Reference.runtime Example.world
            (Example.request "2024-01-01" "2024-01-03" None) []).
  vm_compute. reflexivity.
Defined.


(* ================================================================= *)
(** ** Keys of a dict built by insertion *)

Section Keys.
Context {V : Type}.

Lemma existsb_eqb_In (x : string) (l : list string) :
  existsb (String.eqb x) l = true <-> In x l.
Proof.
  rewrite existsb_exists. split.
  - intros (y & Hy & E). apply String.eqb_eq in E. subst. exact Hy.
  - intros H. exists x. split; [exact H | apply String.eqb_refl].
Qed.

Lemma dict_mem_keys (k : string) (d : dict V) :
  dict_mem k d = existsb (String.eqb k) (keys d).
Proof.
  unfold dict_mem. induction d as [| [k' v] d IH]; simpl; [reflexivity |].
  destruct (String.eqb k k'); [reflexivity | exact IH].
Qed.

Lemma dict_get_keys (k : string) (d : dict V) :
  existsb (String.eqb k) (keys d)
  = match dict_get k d with Some _ => true | None => false end.
Proof. symmetry. apply dict_mem_keys. Qed.

Lemma keys_dict_set (k : string) (v : V) (d : dict V) :
  keys (dict_set k v d) = note_label (keys d) k.
Proof.
  unfold note_label. induction d as [| [k' v'] d IH]; simpl; [reflexivity |].
  destruct (String.eqb k k') eqn:E; simpl; [reflexivity |].
  rewrite IH. destruct (existsb (String.eqb k) (keys d)); reflexivity.
Qed.

Lemma keys_dict_modify (k : string) (f : V -> V) (d : dict V) :
  keys (dict_modify k f d) = keys d.
Proof.
  induction d as [| [k' v'] d IH]; simpl; [reflexivity |].
  destruct (String.eqb k k'); simpl; [reflexivity | now rewrite IH].
Qed.

End Keys.

(** *** Labels in first-seen order *)

Lemma note_label_In (seen : list string) (x y : string) :
  In y (note_label seen x) <-> In y seen \/ y = x.
Proof.
  unfold note_label. destruct (existsb (String.eqb x) seen) eqn:E.
  - apply existsb_eqb_In in E. split; [now left |].
    intros [H | ->]; assumption.
  - rewrite in_app_iff. simpl. split.
    + intros [H | [<- | []]]; [now left | now right].
    + intros [H | ->]; [now left | right; now left].
Qed.

Lemma note_label_NoDup (seen : list string) (x : string) :
  NoDup seen -> NoDup (note_label seen x).
Proof.
  unfold note_label. intros H. destruct (existsb (String.eqb x) seen) eqn:E.
  - exact H.
  - apply NoDup_app; [exact H | repeat constructor; intros [] |].
    intros y Hy [<- | []]. apply existsb_eqb_In in Hy. congruence.
Qed.

Lemma first_seen_onto_In (l seen : list string) (y : string) :
  In y (first_seen_onto seen l) <-> In y seen \/ In y l.
Proof.
  unfold first_seen_onto. revert seen.
  induction l as [| x l IH]; intros seen; simpl.
  - tauto.
  - rewrite IH, note_label_In. intuition congruence.
Qed.

Lemma first_seen_onto_NoDup (l seen : list string) :
  NoDup seen -> NoDup (first_seen_onto seen l).
Proof.
  unfold first_seen_onto. revert seen.
  induction l as [| x l IH]; intros seen H; simpl.
  - exact H.
  - apply IH, note_label_NoDup, H.
Qed.

Lemma first_seen_onto_app (l1 l2 seen : list string) :
  first_seen_onto seen (l1 ++ l2) = first_seen_onto (first_seen_onto seen l1) l2.
Proof. unfold first_seen_onto. apply fold_left_app. Qed.

(** As many labels are first seen as there are distinct labels. *)
Lemma first_seen_length (l : list string) :
  List.length (first_seen l) = List.length (nodup string_dec l).
Proof.
  apply Permutation_length, NoDup_Permutation.
  - apply first_seen_onto_NoDup. constructor.
  - apply NoDup_nodup.
  - intros x. unfold first_seen. rewrite first_seen_onto_In, nodup_In.
    simpl. tauto.
Qed.

Lemma enumerate_from_snd {A : Type} (l : list A) (i : nat) :
  map snd (enumerate_from i l) = l.
Proof.
  revert i. induction l as [| a l IH]; intros i; simpl; [reflexivity |].
  now rewrite IH.
Qed.

(* ================================================================= *)
(** ** The series of [/costs/analyze] *)

Section Series.
Context {RT : Runtime}.

Lemma keys_add_to_groups (groups : dict (list float)) (item : CostRecord.t) :
  keys (add_to_groups groups item)
  = note_label (keys groups) (CostRecord.group_or_unknown item).
Proof.
  unfold add_to_groups. rewrite keys_dict_modify, dict_mem_keys.
  destruct (existsb (String.eqb (CostRecord.group_or_unknown item)) (keys groups))
    eqn:E; simpl.
  - unfold note_label. now rewrite E.
  - apply keys_dict_set.
Qed.

Lemma keys_fold_add_to_groups (data : list CostRecord.t) (groups : dict (list float)) :
  keys (fold_left add_to_groups data groups)
  = first_seen_onto (keys groups) (map CostRecord.group_or_unknown data).
Proof.
  unfold first_seen_onto. revert groups.
  induction data as [| item data IH]; intros groups; simpl; [reflexivity |].
  rewrite IH, keys_add_to_groups. reflexivity.
Qed.

Lemma keys_group_costs (data : list CostRecord.t) :
  keys (group_costs data) = first_seen (map CostRecord.group_or_unknown data).
Proof. apply keys_fold_add_to_groups. Qed.

(** The grouped branch labels one series per key of [groups], in order. *)
Lemma grouped_datasets_labels (group_by : option string)
      (data : list CostRecord.t) :
  Str.truthy_option group_by = true ->
  map Dataset.label (make_datasets group_by data)
  = first_seen (map CostRecord.group_or_unknown data).
Proof.
  intros Hg. unfold make_datasets. rewrite Hg. cbn [negb]. rewrite map_map.
  rewrite <- keys_group_costs. unfold keys, enumerate.
  rewrite <- (enumerate_from_snd (group_costs data) 0) at 2.
  rewrite map_map. apply map_ext. intros [i [name costs]]. reflexivity.
Qed.

(** C3, as the code has it.  Whenever [/costs/analyze] answers: if
    [group_by] is omitted or is the empty string, [chart_data.datasets] is
    exactly one series; if it is a non-empty string, the series are
    labelled by the distinct group labels of the records of [data] in the
    order in which they are first seen (a record without a group counting
    under ["Unknown"]), so there are as many series as distinct labels. *)
Theorem analyze_costs_series_count (w : World) request log r log' :
  analyze_costs w request log = (inr r, log') ->
  let series := ChartData.datasets (CostResponse.chart_data r) in
  let labels := map CostRecord.group_or_unknown (CostResponse.data r) in
  (grouping_requested request = false -> List.length series = 1%nat) /\
  (grouping_requested request = true ->
   map Dataset.label series = first_seen labels /\
   List.length series = List.length (nodup string_dec labels)).
Proof.
  intros H. apply analyze_costs_returns in H.
  destruct H as (sd & ed & response & st & _ & _ & _ & _ & _ & _ & -> & _).
  unfold grouping_requested. cbn [cost_response CostResponse.chart_data
    ChartData.datasets CostResponse.data].
    split; intros Hg.
  - unfold make_datasets. rewrite Hg. reflexivity.
  - pose proof (grouped_datasets_labels _ (acc_data st) Hg) as Hl.
    split; [exact Hl |].
    rewrite <- first_seen_length, <- Hl. symmetry. apply length_map.
Qed.

End Series.

(** Grouped by service, [Example.world] yields five records over four
    services and so four series. *)
Lemma analyze_costs_series_count_witness :
  exists r log',
    analyze_costs Example.world
      (Example.request "2024-01-01" "2024-01-03" (Some "SERVICE")) []
    = (inr r, log') /\
    map Dataset.label (ChartData.datasets (CostResponse.chart_data r))
    = ["Amazon EC2"; "Amazon S3"; "AWS Lambda"; "Amazon RDS"] /\
    List.length (ChartData.datasets (CostResponse.chart_data r))
    = List.length
        (nodup string_dec
               (map CostRecord.group_or_unknown (CostResponse.data r))).
Proof.
  eexists. eexists. split; [vm_compute; reflexivity |].
  split; [reflexivity |].
  eapply (@analyze_costs_series_count Reference.runtime Example.world
            (Example.request "2024-01-01" "2024-01-03" (Some "SERVICE")) []).
  - vm_compute. reflexivity.
  - reflexivity.
Defined.

(** The property as the specification words it fails when [group_by] is
    present but empty and the provider reports no bucket: one series is
    charted although no record, hence no group label, was emitted. *)
Lemma analyze_costs_series_count_counterexample :
  exists r log',
    analyze_costs Example.quiet_world
      (Example.request "2024-01-01" "2024-01-03" (Some "")) []
    = (inr r, log') /\
    CostResponse.data r = [] /\
    List.length (ChartData.datasets (CostResponse.chart_data r)) = 1%nat /\
    List.length
      (nodup string_dec (map CostRecord.group_or_unknown (CostResponse.data r)))
    = 0%nat.
Proof.
  eexists. eexists. split; [vm_compute; reflexivity |].
  repeat split.
Qed.

(* ================================================================= *)
(** ** Order of floats

    The comparisons of binary64 through their specification on
    [spec_float]: apart from nan, [<] and [<=] form a total preorder whose
    equivalence is [==]. *)

Section FloatOrder.

Ltac compare_cases :=
  repeat match goal with
         | |- context [(?a ?= ?b)%Z] => destruct (Z.compare_spec a b)
         | |- context [(?a ?= ?b)%positive] => destruct (Pos.compare_spec a b)
         end.

Lemma SFleb_trans (x y z : spec_float) :
  SFleb x y = true -> SFleb y z = true -> SFleb x z = true.
Proof.
  unfold SFleb.
  destruct x as [sx | sx | | sx mx ex], y as [sy | sy | | sy my ey],
           z as [sz | sz | | sz mz ez];
    simpl; try discriminate; try reflexivity;
    repeat match goal with s : bool |- _ => destruct s end;
    simpl; try discriminate; try reflexivity;
    change (Pos.compare_cont Eq) with Pos.compare;
    compare_cases; simpl; try discriminate; try reflexivity; subst; lia.
Qed.

Lemma leb_trans (x y z : float) :
  PrimFloat.leb x y = true -> PrimFloat.leb y z = true -> PrimFloat.leb x z = true.
Proof. rewrite !leb_spec. apply SFleb_trans. Qed.


Lemma SFcompare_antisym (x y : spec_float) :
  SFcompare y x = option_map CompOpp (SFcompare x y).
Proof.
  destruct x as [sx | sx | | sx mx ex], y as [sy | sy | | sy my ey];
    try reflexivity;
    try (destruct sx; reflexivity);
    try (destruct sy; reflexivity);
    try (destruct sx, sy; reflexivity).
  simpl. rewrite (Z.compare_antisym ex ey), (ZC4 my mx).
  destruct sx, sy; try reflexivity;
    destruct (ex ?= ey)%Z; simpl; try reflexivity;
    destruct (Pos.compare_cont Eq mx my); reflexivity.
Qed.

Lemma SFcompare_defined (x y : spec_float) :
  x <> S754_nan -> y <> S754_nan -> exists c, SFcompare x y = Some c.
Proof.
  intros Hx Hy.
  destruct x as [sx | sx | | sx mx ex], y as [sy | sy | | sy my ey];
    try congruence; simpl; eexists; reflexivity.
Qed.

(** Two floats equal to a third are the same float or are both zeros. *)
Lemma SFcompare_Eq_inv (x c : spec_float) :
  SFcompare x c = Some Eq ->
  x = c \/ (exists sx sc, x = S754_zero sx /\ c = S754_zero sc).
Proof.
  destruct x as [sx | sx | | sx mx ex], c as [sc | sc | | sc mc ec]; simpl;
    try discriminate;
    try (destruct sx; discriminate);
    try (destruct sc; discriminate).
  - intros _. right. eauto.
  - destruct sx, sc; intros H; try discriminate; now left.
  - destruct sx, sc; try discriminate;
      destruct (ex ?= ec)%Z eqn:E; try discriminate;
      apply Z.compare_eq in E; subst; intros H;
      injection H as H.
    + apply (f_equal CompOpp) in H. rewrite CompOpp_involutive in H. simpl in H.
      apply Pcompare_Eq_eq in H. subst. now left.
    + apply Pcompare_Eq_eq in H. subst. now left.
Qed.

Lemma SFcompare_refl (x : spec_float) :
  x <> S754_nan -> SFcompare x x = Some Eq.
Proof.
  destruct x as [sx | sx | | sx mx ex]; simpl; try congruence; intros _.
  - destruct sx; reflexivity.
  - rewrite Z.compare_refl, Pos.compare_cont_refl. destruct sx; reflexivity.
Qed.

Lemma is_nan_false (x : float) :
  is_nan x = false -> Prim2SF x <> S754_nan.
Proof.
  unfold is_nan. rewrite eqb_spec. unfold SFeqb. intros H E.
  rewrite E in H. discriminate.
Qed.

(** [not (x < y)] gives [y <= x] when neither is nan. *)
Lemma ltb_false_leb (x y : float) :
  is_nan x = false -> is_nan y = false ->
  PrimFloat.ltb x y = false -> PrimFloat.leb y x = true.
Proof.
  intros Hx Hy. rewrite ltb_spec, leb_spec. unfold SFltb, SFleb.
  rewrite (SFcompare_antisym (Prim2SF x) (Prim2SF y)).
  destruct (SFcompare_defined (is_nan_false _ Hx) (is_nan_false _ Hy)) as [c ->].
  destruct c; simpl; intros H; reflexivity || discriminate.
Qed.

Lemma ltb_leb (x y : float) :
  PrimFloat.ltb x y = true -> PrimFloat.leb x y = true.
Proof.
  rewrite ltb_spec, leb_spec. unfold SFltb, SFleb.
  destruct (SFcompare (Prim2SF x) (Prim2SF y)) as [[| |] |];
    intros H; reflexivity || discriminate.
Qed.

(** Floats equal to the same float are not below one another. *)
Lemma eqb_eqb_ltb (x y c : float) :
  PrimFloat.eqb x c = true -> PrimFloat.eqb y c = true ->
  PrimFloat.ltb x y = false.
Proof.
  rewrite !eqb_spec, ltb_spec. unfold SFeqb, SFltb. intros Hx Hy.
  destruct (SFcompare (Prim2SF x) (Prim2SF c)) as [[| |] |] eqn:Ex;
    try discriminate.
  destruct (SFcompare (Prim2SF y) (Prim2SF c)) as [[| |] |] eqn:Ey;
    try discriminate.
  assert (Hc : Prim2SF c <> S754_nan).
  { intros E. rewrite E in Ex. destruct (Prim2SF x); discriminate. }
  apply SFcompare_Eq_inv in Ex, Ey.
  destruct Ex as [Ex | (sx & sc & Ex & Ec)], Ey as [Ey | (sy & sc' & Ey & Ec')].
  - rewrite Ex, Ey, SFcompare_refl; [reflexivity | exact Hc].
  - rewrite Ex, Ey, Ec'. reflexivity.
  - rewrite Ex, Ey, Ec. reflexivity.
  - rewrite Ex, Ey. reflexivity.
Qed.

End FloatOrder.

(* ================================================================= *)
(** ** [list.sort], [py_sorted] and [slice_to] *)

Section PermTac.
Context {A : Type}.

Lemma perm_front (x h t t' : list A) :
  Permutation t (x ++ t') -> Permutation (h ++ t) (x ++ h ++ t').
Proof.
  intros H. eapply perm_trans; [apply Permutation_app_head, H |].
  rewrite !app_assoc. apply Permutation_app_tail, Permutation_app_comm.
Qed.

Lemma perm_cancel (x t r r' : list A) :
  Permutation r (x ++ r') -> Permutation t r' -> Permutation (x ++ t) r.
Proof.
  intros H1 H2. eapply perm_trans; [| apply Permutation_sym, H1].
  now apply Permutation_app_head.
Qed.

Lemma perm_rev_l (x t r : list A) :
  Permutation (x ++ t) r -> Permutation (rev x ++ t) r.
Proof.
  intros H. eapply perm_trans; [| exact H].
  apply Permutation_app_tail, Permutation_sym, Permutation_rev.
Qed.

Lemma perm_rev_r (x t r : list A) :
  Permutation r (x ++ t) -> Permutation r (rev x ++ t).
Proof.
  intros H. eapply perm_trans; [exact H |].
  apply Permutation_app_tail, Permutation_rev.
Qed.

Lemma perm_ends (l r : list A) :
  Permutation (l ++ []) (r ++ []) -> Permutation l r.
Proof. now rewrite !app_nil_r. Qed.

Lemma cons_as_app (x : A) (l : list A) : x :: l = [x] ++ l.
Proof. reflexivity. Qed.

End PermTac.

(** [x] is brought to the front of the right-nested append [r]. *)
Ltac perm_find x r :=
  lazymatch r with
  | x ++ ?t => constr:(@Permutation_refl _ (x ++ t))
  | ?h ++ ?t =>
    let pf := perm_find x t in
    constr:(@perm_front _ x h _ _ pf)
  end.

Ltac perm_normal :=
  repeat rewrite <- app_assoc;
  repeat match goal with
         | |- context [?x :: ?l] =>
           lazymatch l with
           | [] => fail
           | _ => rewrite (@cons_as_app _ x l)
           end
         end;
  repeat rewrite <- app_assoc;
  repeat rewrite rev_app_distr;
  repeat rewrite <- app_assoc;
  repeat setoid_rewrite <- Permutation_rev.

Ltac perm_close :=
  repeat first
    [ apply Permutation_refl
    | match goal with
      | |- Permutation (?x ++ ?t) ?r =>
        let pf := perm_find x r in
        apply (@perm_cancel _ x t r _ pf)
      end ].

Ltac perm_work := apply @perm_ends; perm_normal; perm_close.

Ltac perm := solve [perm_work].


(** [l] is cut at [k]: what follows sees the two pieces only. *)
Ltac split_at k l :=
  let H := fresh "Hsplit" in
  let f := fresh "f" in
  let s := fresh "s" in
  pose proof (firstn_skipn k l) as H;
  set (f := firstn k l) in *; set (s := skipn k l) in *;
  clearbody f s; rewrite <- H; clear H.

Section Unconditional.
Context {A : Type}.
Variable lt : A -> A -> bool.

Lemma binary_insert_perm (run : list A) (pivot : A) :
  Permutation (binary_insert lt run pivot) (run ++ [pivot]).
Proof.
  unfold binary_insert.
  set (k := bisect lt pivot run (List.length run) 0 (List.length run)).
  rewrite <- (firstn_skipn k run) at 3. perm.
Qed.

Lemma binarysort_perm (rest run : list A) :
  Permutation (binarysort lt run rest) (run ++ rest).
Proof.
  unfold binarysort. revert run.
  induction rest as [| x rest IH]; intros run; simpl.
  - now rewrite app_nil_r.
  - eapply perm_trans; [apply IH |].
    eapply perm_trans; [apply Permutation_app_tail, binary_insert_perm |]. perm.
Qed.

Lemma merge_lo_loop_perm (fuel : nat) (m : mode) (mg : Z) (out a b : list A) :
  Permutation (fst (merge_lo_loop lt fuel m mg out a b)) (out ++ a ++ b).
Proof.
  revert m mg out a b.
  induction fuel as [| fuel IH]; intros m mg out a b; [reflexivity |].
  destruct a as [| a0 a']; [reflexivity |].
  destruct b as [| b0 b']; [reflexivity |].
  cbn [merge_lo_loop]. destruct m as [acount bcount |].
  - destruct (lt b0 a0).
    + destruct b' as [| b1 b'']; [cbn [fst]; perm |].
      destruct (next_mode mg 0 (bcount + 1)) as [m' mg'].
      eapply perm_trans; [apply IH |]. perm.
    + destruct (next_mode mg (acount + 1) 0) as [m' mg'].
      destruct a' as [| a1 [| a2 a'']];
        try (eapply perm_trans; [apply IH |]); cbn [fst]; perm.
  - split_at (gallop_right lt b0 (a0 :: a') 0) (a0 :: a').
    destruct s as [| a1 [| a2 a1']]; try (cbn [fst]; perm).
    destruct b' as [| b1 b'']; [cbn [fst]; perm |].
    split_at (gallop_left lt a1 (b1 :: b'') 0) (b1 :: b'').
    destruct s as [| b2 b2']; [cbn [fst]; perm |].
    destruct (after_gallop _ _ _) as [m' mg'].
    destruct a1' as [| a3 a1''];
      try (eapply perm_trans; [apply IH |]); cbn [fst]; perm.
Qed.

Lemma merge_lo_perm (mg : Z) (a b : list A) :
  Permutation (fst (merge_lo lt mg a b)) (a ++ b).
Proof.
  unfold merge_lo. destruct b as [| b0 [| b1 b']]; cbn [fst]; try perm.
  destruct a as [| a0 [| a1 a']]; cbn [fst]; try perm;
    (eapply perm_trans; [apply merge_lo_loop_perm |]); perm.
Qed.

Lemma merge_hi_loop_perm (fuel : nat) (m : mode) (mg : Z) (ra rb out : list A) :
  Permutation (fst (merge_hi_loop lt fuel m mg ra rb out)) (ra ++ rb ++ out).
Proof.
  revert m mg ra rb out.
  induction fuel as [| fuel IH]; intros m mg ra rb out; [cbn [merge_hi_loop fst]; perm |].
  destruct ra as [| a0 ra']; [cbn [merge_hi_loop fst]; perm |].
  destruct rb as [| b0 rb']; [cbn [merge_hi_loop fst]; perm |].
  cbn [merge_hi_loop]. destruct m as [acount bcount |].
  - destruct (lt b0 a0).
    + destruct ra' as [| a1 ra'']; [cbn [fst]; perm |].
      destruct (next_mode mg (acount + 1) 0) as [m' mg'].
      eapply perm_trans; [apply IH |]. perm.
    + destruct (next_mode mg 0 (bcount + 1)) as [m' mg'].
      destruct rb' as [| b1 [| b2 rb'']];
        try (eapply perm_trans; [apply IH |]); cbn [fst]; perm.
  - split_at (List.length (a0 :: ra')
              - gallop_right lt b0 (rev (a0 :: ra')) (len (a0 :: ra') - 1))%nat
             (a0 :: ra').
    destruct s as [| a1 ra1']; [cbn [fst]; perm |].
    destruct rb' as [| b1 [| b2 rb'']]; try (cbn [fst]; perm).
    + split_at (List.length (@nil A) - gallop_left lt a1 (rev []) (len (@nil A) - 1))%nat
               (@nil A).
      destruct s as [| b3 [| b4 rb2]]; try (cbn [fst]; perm).
      destruct (after_gallop _ _ _) as [m' mg'].
      destruct ra1' as [| a2 ra1''];
        try (eapply perm_trans; [apply IH |]); cbn [fst]; perm.
    + split_at (List.length (b1 :: b2 :: rb'')
                - gallop_left lt a1 (rev (b1 :: b2 :: rb''))
                              (len (b1 :: b2 :: rb'') - 1))%nat
               (b1 :: b2 :: rb'').
      destruct s as [| b3 [| b4 rb2]]; try (cbn [fst]; perm).
      destruct (after_gallop _ _ _) as [m' mg'].
      destruct ra1' as [| a2 ra1''];
        try (eapply perm_trans; [apply IH |]); cbn [fst]; perm.
Qed.

Lemma merge_hi_perm (mg : Z) (a b : list A) :
  Permutation (fst (merge_hi lt mg a b)) (a ++ b).
Proof.
  unfold merge_hi. remember (rev a) as ra eqn:E.
  apply (f_equal (@rev A)) in E. rewrite rev_involutive in E. subst a.
  destruct ra as [| a0 [| a1 ra']]; cbn [fst]; try perm.
  destruct b as [| b0 [| b1 b']]; cbn [fst]; try perm;
    (eapply perm_trans; [apply merge_hi_loop_perm |]); perm.
Qed.

Lemma merge_at_perm (mg : Z) (a b : list A) :
  Permutation (fst (merge_at lt mg a b)) (a ++ b).
Proof.
  unfold merge_at. destruct b as [| b0 b']; [cbn [fst]; perm |].
  set (k := gallop_right lt b0 a 0).
  destruct (rev (skipn k a)) as [| a_last ra]; [reflexivity |].
  set (nb := gallop_left lt a_last (b0 :: b') (len (b0 :: b') - 1)).
  destruct nb as [| nb']; [reflexivity |].
  set (nb := S nb').
  pose proof (firstn_skipn k a) as Ha.
  pose proof (firstn_skipn nb (b0 :: b')) as Hb.
  destruct (List.length (skipn k a) <=? nb)%nat.
  - pose proof (merge_lo_perm mg (skipn k a) (firstn nb (b0 :: b'))) as H.
    destruct (merge_lo lt mg (skipn k a) (firstn nb (b0 :: b'))) as [merged mg'].
    cbn [fst] in *. rewrite <- Ha at 2. rewrite <- Hb at 2.
    eapply perm_trans;
      [apply Permutation_app_head, Permutation_app_tail, H |]. perm.
  - pose proof (merge_hi_perm mg (skipn k a) (firstn nb (b0 :: b'))) as H.
    destruct (merge_hi lt mg (skipn k a) (firstn nb (b0 :: b'))) as [merged mg'].
    cbn [fst] in *. rewrite <- Ha at 2. rewrite <- Hb at 2.
    eapply perm_trans;
      [apply Permutation_app_head, Permutation_app_tail, H |]. perm.
Qed.

End Unconditional.

Section GallopSpec.
Variable right : Z -> bool.
Variable n : Z.
Hypothesis right_prefix :
  forall i j, 0 <= i <= j -> j < n -> right j = true -> right i = true.

Lemma gallop_ofs_spec (continue : Z -> bool) (maxofs : Z) (fuel : nat) :
  forall lastofs ofs,
    0 <= lastofs < ofs -> lastofs < maxofs -> continue lastofs = true ->
    maxofs - ofs <= Z.of_nat fuel ->
    let '(L, U) := gallop_ofs continue fuel maxofs lastofs ofs in
    0 <= L < U /\ L < maxofs /\ continue L = true /\
    (maxofs <= U \/ continue U = false).
Proof.
  induction fuel as [| fuel IH]; intros lastofs ofs H1 H2 H3 Hf; cbn [gallop_ofs].
  - repeat split; try lia; assumption.
  - destruct (ofs <? maxofs) eqn:E.
    + apply Z.ltb_lt in E. destruct (continue ofs) eqn:C.
      * apply IH; try lia. exact C.
      * repeat split; try lia; try assumption. now right.
    + apply Z.ltb_ge in E. repeat split; try lia; assumption.
Qed.

Lemma gallop_bisect_spec (fuel : nat) :
  forall lo hi,
    0 <= lo <= hi -> hi <= n ->
    (forall i, 0 <= i < lo -> right i = true) ->
    (forall i, hi <= i < n -> right i = false) ->
    hi - lo <= Z.of_nat fuel ->
    let k := gallop_bisect right fuel lo hi in
    0 <= k <= n /\
    (forall i, 0 <= i < k -> right i = true) /\
    (forall i, k <= i < n -> right i = false).
Proof.
  induction fuel as [| fuel IH]; intros lo hi H1 H2 Hlo Hhi Hf; cbn [gallop_bisect].
  - assert (lo = hi) by lia. subst. repeat split; try lia; assumption.
  - destruct (lo <? hi) eqn:E.
    + apply Z.ltb_lt in E.
      set (m := lo + (hi - lo) / 2).
      assert (Hm : lo <= m < hi).
      { unfold m. pose proof (Z.div_pos (hi - lo) 2).
        pose proof (Z.div_lt_upper_bound (hi - lo) 2 (hi - lo)). lia. }
      destruct (right m) eqn:C.
      * apply IH; try lia; [| exact Hhi].
        intros i Hi. apply (@right_prefix i m); [lia | lia | exact C].
      * apply IH; try lia; [exact Hlo |].
        intros i Hi. destruct (right i) eqn:Ci; [| reflexivity].
        rewrite (@right_prefix m i) in C; [discriminate | lia | lia | exact Ci].
    + apply Z.ltb_ge in E. assert (lo = hi) by lia. subst.
      repeat split; try lia; assumption.
Qed.

Lemma gallop_spec (fuel : nat) (hint : Z) :
  0 <= hint < n -> n <= Z.of_nat fuel ->
  let k := gallop right fuel n hint in
  0 <= k <= n /\
  (forall i, 0 <= i < k -> right i = true) /\
  (forall i, k <= i < n -> right i = false).
Proof.
  intros Hh Hf. unfold gallop. destruct (right hint) eqn:C.
  - pose proof (@gallop_ofs_spec (fun ofs => right (hint + ofs)) (n - hint) fuel 0 1)
      as H.
    destruct (gallop_ofs (fun ofs => right (hint + ofs)) fuel (n - hint) 0 1)
      as [L U].
    destruct H as (H1 & H2 & H3 & H4); try lia.
    { now rewrite Z.add_0_r. }
    apply gallop_bisect_spec; try lia.
    + intros i Hi. apply (@right_prefix i (hint + L)); [lia | lia |].
      rewrite Z.add_comm in H3. rewrite Z.add_comm. exact H3.
    + intros i Hi. destruct H4 as [H4 | H4]; [lia |].
      assert (Z.min U (n - hint) = U) as HU by lia. rewrite HU in Hi.
      destruct (right i) eqn:Ci; [| reflexivity].
      rewrite (@right_prefix (hint + U) i) in H4; [discriminate | lia | lia | exact Ci].
  - pose proof (@gallop_ofs_spec (fun ofs => negb (right (hint - ofs))) (hint + 1)
                                fuel 0 1) as H.
    destruct (gallop_ofs (fun ofs => negb (right (hint - ofs))) fuel (hint + 1) 0 1)
      as [L U].
    destruct H as (H1 & H2 & H3 & H4); try lia.
    { now rewrite Z.sub_0_r, C. }
    apply negb_true_iff in H3.
    apply gallop_bisect_spec; try lia.
    + intros i Hi. destruct H4 as [H4 | H4]; [lia |].
      apply negb_false_iff in H4.
      assert (Z.min U (hint + 1) = U) as HU by lia. rewrite HU in Hi.
      apply (@right_prefix i (hint - U)); [lia | lia | exact H4].
    + intros i Hi. destruct (right i) eqn:Ci; [| reflexivity].
      rewrite (@right_prefix (hint - L) i) in H3; [discriminate | lia | lia | exact Ci].
Qed.

End GallopSpec.

(** *** The pending runs *)

Section Pending.
Context {A : Type}.
Variable lt : A -> A -> bool.

Lemma firstn_plus (k m : nat) (l : list A) :
  firstn (k + m) l = firstn k l ++ firstn m (skipn k l).
Proof.
  revert l. induction k as [| k IH]; intros l; [reflexivity |].
  destruct l as [| x l]; [simpl; now rewrite firstn_nil |].
  simpl. now rewrite IH.
Qed.

Lemma ascending_run_length (l : list A) (prev : A) :
  (ascending_run lt prev l <= List.length l)%nat.
Proof.
  revert prev. induction l as [| x l IH]; intros prev; simpl; [lia |].
  destruct (lt x prev); [lia |]. specialize (IH x). lia.
Qed.

Lemma descending_run_length (l : list A) (prev : A) :
  (descending_run lt prev l <= List.length l)%nat.
Proof.
  revert prev. induction l as [| x l IH]; intros prev; simpl; [lia |].
  destruct (lt x prev); [| lia]. specialize (IH x). lia.
Qed.

Lemma count_run_length (l : list A) :
  l <> [] ->
  (1 <= fst (count_run lt l) <= List.length l)%nat.
Proof.
  destruct l as [| x [| y l]]; [congruence | simpl; lia |]. intros _.
  unfold count_run. destruct (lt y x); cbn [fst List.length].
  - pose proof (descending_run_length l y). lia.
  - pose proof (ascending_run_length l y). lia.
Qed.


Lemma next_run_rest (minrun : nat) (l : list A) :
  snd (next_run lt minrun l) = skipn (taken lt minrun l) l.
Proof.
  unfold next_run, taken. destruct (count_run lt l) as [k descending].
  cbn [fst]. destruct (k <? minrun)%nat; reflexivity.
Qed.

Lemma taken_bounds (minrun : nat) (l : list A) :
  l <> [] -> (1 <= taken lt minrun l <= List.length l)%nat.
Proof.
  intros Hl. pose proof (count_run_length Hl) as Hk. unfold taken.
  destruct (fst (count_run lt l) <? minrun)%nat eqn:E; [| lia].
  apply Nat.ltb_lt in E. lia.
Qed.

Variable Good : list A -> Prop.
Variable Rel : list A -> list A -> Prop.
Hypothesis Good_skipn : forall k l, Good l -> Good (skipn k l).
Hypothesis Rel_run :
  forall minrun l,
    l <> [] -> Good l ->
    Rel (firstn (taken lt minrun l) l) (fst (next_run lt minrun l)).
Hypothesis Rel_merge :
  forall mg sa a sb b,
    Rel sa a -> Rel sb b -> Rel (sa ++ sb) (fst (merge_at lt mg a b)).


Lemma pending_merge (mg : Z) (a b : list A) (pa pb pw : Z) (rest : @stack A)
      (read : list A) :
  pending Rel ((b, pb) :: (a, pa) :: rest) read ->
  pending Rel ((fst (merge_at lt mg a b), pw) :: rest) read.
Proof.
  intros (pieces & Hp & ->). cbn [map fst] in Hp.
  inversion Hp as [| sb ? pieces1 ? Hb Hp1]; subst.
  inversion Hp1 as [| sa ? pieces2 ? Ha Hp2]; subst.
  exists ((sa ++ sb) :: pieces2). split.
  - cbn [map fst]. constructor; [now apply Rel_merge | exact Hp2].
  - cbn [rev]. rewrite !concat_app. cbn [List.concat].
    now rewrite !app_nil_r, app_assoc.
Qed.

Lemma pending_power (top : list A) (pt pw : Z) (rest : @stack A) (read : list A) :
  pending Rel ((top, pt) :: rest) read -> pending Rel ((top, pw) :: rest) read.
Proof. intros (pieces & Hp & ->). exists pieces. now split. Qed.

Lemma pending_under (c : list A) (pc : Z) (q q' : @stack A) (read : list A) :
  (forall read', pending Rel q read' -> pending Rel q' read') ->
  pending Rel ((c, pc) :: q) read -> pending Rel ((c, pc) :: q') read.
Proof.
  intros Hq (pieces & Hp & ->). cbn [map fst] in Hp.
  inversion Hp as [| sc ? pieces1 ? Hc Hp1]; subst.
  destruct (Hq (List.concat (rev pieces1))) as (pieces' & Hp' & E).
  { exists pieces1. now split. }
  exists (sc :: pieces'). split; [now constructor |].
  cbn [rev]. rewrite !concat_app. now rewrite E.
Qed.

Lemma merge_above_pending (fuel : nat) (pw mg : Z) (p : @stack A) (read : list A) :
  pending Rel p read -> pending Rel (fst (merge_above lt fuel pw mg p)) read.
Proof.
  revert mg p. induction fuel as [| fuel IH]; intros mg p H; [exact H |].
  destruct p as [| [b pb] [| [a pa] rest]]; try exact H.
  cbn [merge_above]. destruct (pw <? pa); [| exact H].
  pose proof (@pending_merge mg a b pa pb pa rest read H) as H'.
  destruct (merge_at lt mg a b) as [merged mg']. now apply IH.
Qed.

Lemma found_new_run_pending (n2 n mg : Z) (p : @stack A) (read : list A) :
  pending Rel p read -> pending Rel (fst (found_new_run lt n2 n mg p)) read.
Proof.
  intros H. unfold found_new_run. destruct p as [| [top pt] below]; [exact H |].
  set (pw := power below (len top) n2 n).
  pose proof (@merge_above_pending (List.length ((top, pt) :: below)) pw mg
                                   _ read H) as H'.
  destruct (merge_above lt _ pw mg _) as [p' mg'].
  cbn [fst] in *. destruct p' as [| [top' pt'] below']; [exact H' |].
  cbn [fst]. exact (pending_power pw H').
Qed.

Lemma merge_force_collapse_pending (fuel : nat) (mg : Z) (p : @stack A)
      (read : list A) :
  pending Rel p read -> pending Rel (merge_force_collapse lt fuel mg p) read.
Proof.
  revert mg p. induction fuel as [| fuel IH]; intros mg p H; [exact H |].
  destruct p as [| [c pc] [| [b pb] [| [a pa] rest]]]; try exact H.
  - cbn [merge_force_collapse].
    pose proof (@pending_merge mg b c pb pc pb [] read H) as H'.
    destruct (merge_at lt mg b c) as [merged mg']. now apply IH.
  - cbn [merge_force_collapse]. destruct (len a <? len c).
    + assert (H' : pending Rel ((c, pc) :: (fst (merge_at lt mg a b), pa) :: rest) read).
      { revert H. apply pending_under. intros read'. apply pending_merge. }
      destruct (merge_at lt mg a b) as [merged mg']. now apply IH.
    + pose proof (@pending_merge mg b c pb pc pb ((a, pa) :: rest) read H) as H'.
      destruct (merge_at lt mg b c) as [merged mg']. now apply IH.
Qed.

Lemma merge_force_collapse_length (fuel : nat) (mg : Z) (p : @stack A) :
  (List.length p <= S fuel)%nat ->
  (List.length (merge_force_collapse lt fuel mg p) <= 1)%nat.
Proof.
  revert mg p. induction fuel as [| fuel IH]; intros mg p H.
  - destruct p as [| r [| r' p]]; simpl in *; lia.
  - destruct p as [| [c pc] [| [b pb] [| [a pa] rest]]]; try (simpl; lia).
    + cbn [merge_force_collapse].
      destruct (merge_at lt mg b c) as [merged mg']. apply IH. simpl. lia.
    + cbn [merge_force_collapse]. destruct (len a <? len c).
      * destruct (merge_at lt mg a b) as [merged mg']. apply IH. simpl in *. lia.
      * destruct (merge_at lt mg b c) as [merged mg']. apply IH. simpl in *. lia.
Qed.

Lemma runs_pending (fuel : nat) (n : Z) (minrun : nat) :
  forall mg p l read,
    pending Rel p read -> (List.length l <= fuel)%nat -> Good l ->
    pending Rel (fst (runs lt fuel n minrun mg p l)) (read ++ l).
Proof.
  induction fuel as [| fuel IH]; intros mg p l read H Hf Hgood.
  - destruct l; [| simpl in Hf; lia]. now rewrite app_nil_r.
  - destruct l as [| x l']; [now rewrite app_nil_r |].
    cbn [runs]. set (l := x :: l') in *.
    assert (Hl : l <> []) by discriminate.
    pose proof (Rel_run minrun Hl Hgood) as Hrun.
    pose proof (next_run_rest minrun l) as Hrest.
    pose proof (taken_bounds minrun Hl) as Hk.
    destruct (next_run lt minrun l) as [run rest]. cbn [fst snd] in *.
    pose proof (@found_new_run_pending (len run) n mg p read H) as H'.
    destruct (found_new_run lt (len run) n mg p) as [p' mg'].
    cbn [fst] in H'.
    replace (read ++ l) with ((read ++ firstn (taken lt minrun l) l) ++ rest)
      by (subst rest; now rewrite <- app_assoc, firstn_skipn).
    apply IH.
    + destruct H' as (pieces & Hp & ->).
      exists (firstn (taken lt minrun l) l :: pieces). split.
      * cbn [map fst]. now constructor.
      * cbn [rev]. rewrite concat_app. cbn [List.concat]. now rewrite app_nil_r.
    + subst rest. rewrite length_skipn. lia.
    + subst rest. now apply Good_skipn.
Qed.

Theorem list_sort_Rel (l : list A) :
  l <> [] -> Good l -> Rel l (list_sort lt l).
Proof.
  intros Hl Hgood. unfold list_sort.
  set (minrun := Z.to_nat (merge_compute_minrun 64 (len l) 0)).
  assert (H0 : pending Rel [] []) by (exists []; split; [constructor | reflexivity]).
  pose proof (@runs_pending (List.length l) (len l) minrun MIN_GALLOP [] l []
                            H0 (Nat.le_refl _) Hgood) as H.
  destruct (runs lt (List.length l) (len l) minrun MIN_GALLOP [] l) as [p mg].
  cbn [fst app] in H.
  apply (@merge_force_collapse_pending (List.length p) mg) in H.
  pose proof (@merge_force_collapse_length (List.length p) mg p) as Hlen.
  destruct (merge_force_collapse lt (List.length p) mg p) as [| [r pr] [| r' q]].
  - destruct H as (pieces & Hp & E). inversion Hp; subst. now destruct Hl.
  - destruct H as (pieces & Hp & E). cbn [map fst] in Hp.
    inversion Hp as [| s ? pieces1 ? Hr Hp1]; subst. inversion Hp1; subst.
    cbn [rev app List.concat map fst]. now rewrite !app_nil_r.
  - simpl in Hlen. lia.
Qed.

End Pending.

Section SortPermutes.
Context {A : Type}.
Variable lt : A -> A -> bool.

Lemma next_run_cut (minrun : nat) (l : list A) :
  l <> [] ->
  let k := fst (count_run lt l) in
  firstn (taken lt minrun l) l
  = firstn k l
    ++ (if (k <? minrun)%nat
        then firstn (Nat.min minrun (List.length l) - k) (skipn k l) else []).
Proof.
  intros Hl k. pose proof (count_run_length lt Hl) as Hk. fold k in Hk.
  unfold taken. fold k. destruct (k <? minrun)%nat eqn:E.
  - apply Nat.ltb_lt in E. rewrite <- firstn_plus. f_equal. lia.
  - now rewrite app_nil_r.
Qed.

Lemma next_run_perm (minrun : nat) (l : list A) :
  l <> [] ->
  Permutation (firstn (taken lt minrun l) l) (fst (next_run lt minrun l)).
Proof.
  intros Hl. rewrite (next_run_cut minrun Hl). unfold next_run.
  destruct (count_run lt l) as [k descending]. cbn [fst].
  destruct (k <? minrun)%nat; cbn [fst].
  - apply Permutation_sym.
    eapply perm_trans; [apply binarysort_perm |].
    apply Permutation_app_tail. destruct descending; [| reflexivity].
    apply Permutation_sym, Permutation_rev.
  - rewrite app_nil_r. destruct descending; [| reflexivity].
    apply Permutation_rev.
Qed.

Theorem list_sort_perm (l : list A) : Permutation (list_sort lt l) l.
Proof.
  destruct l as [| x l]; [reflexivity |].
  apply Permutation_sym.
  apply (@list_sort_Rel A lt (fun _ => True) (fun s r => Permutation s r)).
  - trivial.
  - intros minrun l0 Hl _. now apply next_run_perm.
  - intros mg sa a sb b Ha Hb.
    eapply perm_trans; [| apply Permutation_sym, merge_at_perm].
    now apply Permutation_app.
  - discriminate.
  - exact I.
Qed.

End SortPermutes.

Section Pieces.
Context {A : Type}.

Lemma skipn_nth (d : A) (p : nat) (l : list A) :
  (p < List.length l)%nat -> skipn p l = nth p l d :: skipn (S p) l.
Proof.
  revert l. induction p as [| p IH]; intros [| x l] H; simpl in *; try lia.
  - reflexivity.
  - apply IH. lia.
Qed.

Lemma firstn_nth (d : A) (p : nat) (l : list A) :
  (p < List.length l)%nat -> firstn (S p) l = firstn p l ++ [nth p l d].
Proof.
  revert l. induction p as [| p IH]; intros [| x l] H; simpl in *; try lia.
  - reflexivity.
  - f_equal. apply IH. lia.
Qed.

Lemma Forall_firstn_nth (Q : A -> Prop) (d : A) (k : nat) (l : list A) :
  (k <= List.length l)%nat ->
  (forall i, (i < k)%nat -> Q (nth i l d)) -> Forall Q (firstn k l).
Proof.
  revert l. induction k as [| k IH]; intros l Hk H; [constructor |].
  destruct l as [| x l]; [simpl in Hk; lia |].
  simpl. constructor; [apply (H 0%nat); lia |].
  apply IH; [simpl in Hk; lia |].
  intros i Hi. apply (H (S i)). lia.
Qed.

Lemma Forall_skipn_nth (Q : A -> Prop) (d : A) (k : nat) (l : list A) :
  (forall i, (k <= i < List.length l)%nat -> Q (nth i l d)) -> Forall Q (skipn k l).
Proof.
  revert l. induction k as [| k IH]; intros l H.
  - simpl. apply Forall_forall. intros x Hx.
    destruct (In_nth l x d Hx) as (i & Hi & <-). apply H. lia.
  - destruct l as [| x l]; [constructor |]. simpl. apply IH.
    intros i Hi. apply (H (S i)). simpl. lia.
Qed.

Lemma Forall_firstn (Q : A -> Prop) (k : nat) (l : list A) :
  Forall Q l -> Forall Q (firstn k l).
Proof.
  intros H. rewrite <- (firstn_skipn k l) in H. now apply Forall_app in H.
Qed.

Lemma Forall_skipn (Q : A -> Prop) (k : nat) (l : list A) :
  Forall Q l -> Forall Q (skipn k l).
Proof.
  intros H. rewrite <- (firstn_skipn k l) in H. now apply Forall_app in H.
Qed.

Lemma last_app_cons (d x : A) (l1 l2 : list A) :
  last (l1 ++ x :: l2) d = last (x :: l2) d.
Proof.
  induction l1 as [| y l1 IH]; [reflexivity |].
  cbn [app]. rewrite <- IH. destruct (l1 ++ x :: l2) eqn:E; [| reflexivity].
  now destruct l1.
Qed.

Lemma last_skipn (d : A) (k : nat) (l : list A) :
  skipn k l <> [] -> last (skipn k l) d = last l d.
Proof.
  intros H. rewrite <- (firstn_skipn k l) at 2.
  destruct (skipn k l) as [| x s]; [congruence |].
  now rewrite last_app_cons.
Qed.

Variable R : A -> A -> Prop.

Lemma StronglySorted_app_inv (l1 l2 : list A) :
  StronglySorted R (l1 ++ l2) ->
  StronglySorted R l1 /\ StronglySorted R l2 /\
  Forall (fun a => Forall (R a) l2) l1.
Proof.
  induction l1 as [| x l1 IH]; simpl; intros H.
  - repeat split; [constructor | exact H | constructor].
  - inversion H as [| ? ? Hs Hall]; subst.
    destruct (IH Hs) as (H1 & H2 & H3).
    apply Forall_app in Hall. destruct Hall as [Ha Hb].
    repeat split; [constructor | | constructor]; assumption.
Qed.

Lemma StronglySorted_app (l1 l2 : list A) :
  StronglySorted R l1 -> StronglySorted R l2 ->
  Forall (fun a => Forall (R a) l2) l1 ->
  StronglySorted R (l1 ++ l2).
Proof.
  induction l1 as [| x l1 IH]; simpl; intros H1 H2 H; [exact H2 |].
  inversion H1; subst. inversion H; subst.
  constructor; [now apply IH |]. apply Forall_app. now split.
Qed.

Lemma StronglySorted_middle (l1 l2 : list A) (x : A) :
  StronglySorted R (l1 ++ l2) ->
  Forall (fun a => R a x) l1 -> Forall (R x) l2 ->
  StronglySorted R (l1 ++ x :: l2).
Proof.
  intros H H1 H2. apply StronglySorted_app_inv in H.
  destruct H as (Hs1 & Hs2 & Hc).
  apply StronglySorted_app; [exact Hs1 | now constructor |].
  rewrite Forall_forall in *. intros a Ha. constructor; [now apply H1 |].
  specialize (Hc a Ha). exact Hc.
Qed.

Lemma StronglySorted_firstn (k : nat) (l : list A) :
  StronglySorted R l -> StronglySorted R (firstn k l).
Proof.
  intros H. rewrite <- (firstn_skipn k l) in H.
  now apply StronglySorted_app_inv in H.
Qed.

Lemma StronglySorted_skipn (k : nat) (l : list A) :
  StronglySorted R l -> StronglySorted R (skipn k l).
Proof.
  intros H. rewrite <- (firstn_skipn k l) in H.
  now apply StronglySorted_app_inv in H.
Qed.

Lemma StronglySorted_nth (d : A) (l : list A) (i j : nat) :
  StronglySorted R l -> (i < j < List.length l)%nat -> R (nth i l d) (nth j l d).
Proof.
  intros H. revert i j. induction H as [| x l Hs IH Hall]; intros i j Hij.
  - simpl in Hij. lia.
  - destruct i as [| i], j as [| j]; simpl in *; try lia.
    + rewrite Forall_forall in Hall. apply Hall, nth_In. lia.
    + apply IH. lia.
Qed.

End Pieces.

Section Ordered.
Context {A : Type}.
Variable lt : A -> A -> bool.
Variable ok : A -> Prop.
Hypothesis lt_asym : forall a b, lt a b = true -> lt b a = false.
Hypothesis lt_negtrans :
  forall a b c, ok b -> lt a c = true -> lt a b = true \/ lt b c = true.



Lemma at_most_trans (a b c : A) : ok b -> (at_most lt) a b -> (at_most lt) b c -> (at_most lt) a c.
Proof.
  unfold at_most. intros Hb Hab Hbc.
  destruct (lt c a) eqn:E; [| reflexivity].
  destruct (@lt_negtrans c b a Hb E) as [H | H]; congruence.
Qed.

Lemma below_at_most_trans (a b c : A) : ok c -> lt a b = true -> (at_most lt) b c -> lt a c = true.
Proof.
  unfold at_most. intros Hc Hab Hbc.
  destruct (@lt_negtrans a c b Hc Hab) as [H | H]; congruence.
Qed.

Lemma at_most_below_trans (a b c : A) : ok a -> (at_most lt) a b -> lt b c = true -> lt a c = true.
Proof.
  unfold at_most. intros Ha Hab Hbc.
  destruct (@lt_negtrans b a c Ha Hbc) as [H | H]; congruence.
Qed.

Lemma below_at_most (a b : A) : lt a b = true -> (at_most lt) a b.
Proof. apply lt_asym. Qed.

Lemma below_trans (a b c : A) : ok c -> lt a b = true -> lt b c = true -> lt a c = true.
Proof. intros Hc Hab Hbc. apply (@below_at_most_trans a b c Hc Hab), below_at_most, Hbc. Qed.

Lemma at_most_refl (a : A) : (at_most lt) a a.
Proof.
  unfold at_most. destruct (lt a a) eqn:E; [| reflexivity].
  now rewrite (lt_asym E) in E.
Qed.


Lemma sorted_nth_at_most (d : A) (l : list A) (i j : nat) :
  StronglySorted (at_most lt) l -> (i <= j < List.length l)%nat -> (at_most lt) (nth i l d) (nth j l d).
Proof.
  intros H Hij. destruct (Nat.eq_dec i j) as [-> | Hne]; [apply at_most_refl |].
  apply StronglySorted_nth; [exact H | lia].
Qed.

(** *** [binarysort] *)

Lemma bisect_spec (pivot : A) (run : list A) :
  StronglySorted (at_most lt) run -> Forall ok run -> ok pivot ->
  forall fuel l r,
    (l <= r <= List.length run)%nat -> (r - l <= fuel)%nat ->
    Forall (fun y => lt pivot y = false) (firstn l run) ->
    Forall (fun y => lt pivot y = true) (skipn r run) ->
    let k := bisect lt pivot run fuel l r in
    (k <= List.length run)%nat /\
    Forall (fun y => lt pivot y = false) (firstn k run) /\
    Forall (fun y => lt pivot y = true) (skipn k run).
Proof.
  intros Hs Hok Hp fuel.
  induction fuel as [| fuel IH]; intros l r Hlr Hf Hl Hr; cbn [bisect].
  - assert (l = r) by lia. subst r. repeat split; [lia | exact Hl | exact Hr].
  - destruct (l <? r)%nat eqn:E.
    + apply Nat.ltb_lt in E.
      set (q := (l + (r - l) / 2)%nat) in *.
      assert (Hq : (l <= q < r)%nat).
      { unfold q. pose proof (Nat.div_lt (r - l) 2). lia. }
      assert (Hlen : (q < List.length run)%nat) by lia.
      pose proof (@skipn_nth _ pivot q run Hlen) as Hsk.
      pose proof (@firstn_nth _ pivot q run Hlen) as Hfi.
      pose proof (firstn_skipn q run) as Hsplit.
      rewrite Hsk in Hsplit.
      assert (Hx : ok (nth q run pivot)).
      { rewrite Forall_forall in Hok. apply Hok. apply nth_In. exact Hlen. }
      rewrite <- Hsplit in Hs, Hok.
      apply StronglySorted_app_inv in Hs. destruct Hs as (_ & Hs2 & Hc).
      inversion Hs2 as [| ? ? _ Hafter]; subst.
      apply Forall_app in Hok. destruct Hok as [Hok1 Hok2].
      inversion Hok2 as [| ? ? _ Hok3]; subst.
      destruct (lt pivot (nth q run pivot)) eqn:C.
      * apply IH; [lia | lia | exact Hl |].
        rewrite Hsk. constructor; [exact C |].
        rewrite Forall_forall in *. intros y Hy.
        apply (@below_at_most_trans pivot (nth q run pivot) y);
          [now apply Hok3 | exact C | now apply Hafter].
      * apply IH; [lia | lia | | exact Hr].
        rewrite Hfi. apply Forall_app. split; [| now repeat constructor].
        rewrite Forall_forall in *. intros y Hy.
        specialize (Hc y Hy). inversion Hc as [| ? ? Hyx _]; subst.
        apply (@at_most_trans y (nth q run pivot) pivot Hx Hyx C).
    + apply Nat.ltb_ge in E. assert (l = r) by lia. subst r.
      repeat split; [lia | exact Hl | exact Hr].
Qed.

Lemma binary_insert_place (run : list A) (pivot : A) :
  StronglySorted (at_most lt) run -> Forall ok run -> ok pivot ->
  exists k,
    binary_insert lt run pivot = firstn k run ++ pivot :: skipn k run /\
    Forall (fun y => lt pivot y = false) (firstn k run) /\
    Forall (fun y => lt pivot y = true) (skipn k run).
Proof.
  intros Hs Hok Hp. unfold binary_insert.
  destruct (@bisect_spec pivot run Hs Hok Hp (List.length run) 0 (List.length run))
    as (_ & H1 & H2); try lia.
  - constructor.
  - rewrite skipn_all. constructor.
  - eexists. split; [reflexivity |]. split; assumption.
Qed.

Lemma binary_insert_sorted (run : list A) (pivot : A) :
  StronglySorted (at_most lt) run -> Forall ok run -> ok pivot ->
  StronglySorted (at_most lt) (binary_insert lt run pivot).
Proof.
  intros Hs Hok Hp.
  destruct (@binary_insert_place run pivot Hs Hok Hp) as (k & -> & H1 & H2).
  apply StronglySorted_middle.
  - now rewrite firstn_skipn.
  - exact H1.
  - eapply Forall_impl; [| exact H2]. intros y. apply lt_asym.
Qed.

Lemma filter_none (p : A -> bool) (l : list A) :
  Forall (fun x => p x = false) l -> filter p l = [].
Proof.
  induction 1 as [| x l Hx _ IH]; [reflexivity |]. simpl. now rewrite Hx.
Qed.

Lemma binary_insert_filter (p : A -> bool) (run : list A) (pivot : A) :
  unordered lt p ->
  StronglySorted (at_most lt) run -> Forall ok run -> ok pivot ->
  filter p (binary_insert lt run pivot) = filter p (run ++ [pivot]).
Proof.
  intros Hu Hs Hok Hp.
  destruct (@binary_insert_place run pivot Hs Hok Hp) as (k & -> & H1 & H2).
  rewrite <- (firstn_skipn k run) at 3.
  rewrite !filter_app. simpl. rewrite <- app_assoc. f_equal.
  destruct (p pivot) eqn:E; [| now rewrite app_nil_r].
  rewrite filter_none; [reflexivity |].
  eapply Forall_impl; [| exact H2]. intros y Hy. cbv beta in Hy.
  destruct (p y) eqn:Ey; [| reflexivity].
  rewrite (Hu pivot y E Ey) in Hy. discriminate.
Qed.

Lemma binarysort_settled (rest source run : list A) :
  Forall ok run -> Forall ok rest -> settled lt source run ->
  settled lt (source ++ rest) (binarysort lt run rest).
Proof.
  unfold binarysort. revert source run.
  induction rest as [| x rest IH]; intros source run Hok Hrest Hs; simpl.
  - now rewrite app_nil_r.
  - inversion Hrest; subst.
    change (x :: rest) with ([x] ++ rest). rewrite app_assoc.
    destruct Hs as [Hs Hf].
    apply IH; [| assumption |].
    + eapply Permutation_Forall;
        [apply Permutation_sym, binary_insert_perm |].
      apply Forall_app. split; [assumption | now repeat constructor].
    + split; [now apply binary_insert_sorted |].
      intros p Hu. rewrite binary_insert_filter by assumption.
      rewrite !filter_app. now rewrite Hf.
Qed.

(** *** The run that starts the list *)

Lemma ascending_run_sorted (l : list A) (prev : A) :
  Sorted (at_most lt) (prev :: firstn (ascending_run lt prev l) l).
Proof.
  revert prev. induction l as [| x l IH]; intros prev; simpl.
  - repeat constructor.
  - destruct (lt x prev) eqn:E; simpl; [repeat constructor |].
    constructor; [apply IH |]. constructor. exact E.
Qed.

Lemma descending_run_sorted (l : list A) (prev : A) :
  Sorted (fun a b => lt b a = true) (prev :: firstn (descending_run lt prev l) l).
Proof.
  revert prev. induction l as [| x l IH]; intros prev; simpl.
  - repeat constructor.
  - destruct (lt x prev) eqn:E; simpl; [| repeat constructor].
    constructor; [apply IH |]. constructor. exact E.
Qed.

Lemma Sorted_StronglySorted_ok (R : A -> A -> Prop) (l : list A) :
  (forall a b c, ok a -> ok b -> ok c -> R a b -> R b c -> R a c) ->
  Forall ok l -> Sorted R l -> StronglySorted R l.
Proof.
  intros Ht Hok Hs. induction l as [| x l IH]; [constructor |].
  inversion Hok as [| ? ? Hx Hok']; subst.
  inversion Hs as [| ? ? Hs' Hhd]; subst.
  specialize (IH Hok' Hs'). constructor; [exact IH |].
  destruct l as [| y l]; [constructor |].
  inversion Hhd; subst. inversion IH; subst.
  inversion Hok' as [| ? ? Hy Hok'']; subst.
  constructor; [assumption |].
  rewrite Forall_forall in *. intros z Hz.
  apply (Ht x y z); auto.
Qed.

(** *** Galloping in a sorted run *)

Lemma gallop_right_spec (key : A) (a : list A) (hint : Z) :
  StronglySorted (at_most lt) a -> Forall ok a -> 0 <= hint < len a ->
  let k := gallop_right lt key a hint in
  (k <= List.length a)%nat /\
  Forall (fun x => lt key x = false) (firstn k a) /\
  Forall (fun x => lt key x = true) (skipn k a).
Proof.
  intros Hs Hok Hh. unfold gallop_right.
  set (right := fun i => negb (lt key (nth (Z.to_nat i) a key))).
  assert (Hp : forall i j, 0 <= i <= j -> j < len a ->
                           right j = true -> right i = true).
  { unfold right, len. intros i j Hij Hj Hr.
    apply negb_true_iff in Hr. apply negb_true_iff.
    destruct (lt key (nth (Z.to_nat i) a key)) eqn:E; [| reflexivity].
    rewrite <- Hr. symmetry.
    apply (@below_at_most_trans key (nth (Z.to_nat i) a key) (nth (Z.to_nat j) a key)).
    - rewrite Forall_forall in Hok. apply Hok, nth_In. lia.
    - exact E.
    - apply sorted_nth_at_most; [exact Hs | lia]. }
  assert (Hf : len a <= Z.of_nat (S (List.length a))) by (unfold len; lia).
  pose proof (@gallop_spec right (len a) Hp (S (List.length a)) hint Hh Hf) as Hg.
  cbv zeta in Hg |- *.
  set (g := gallop right (S (List.length a)) (len a) hint) in *. clearbody g.
  destruct Hg as (Hk & Hlo & Hhi). unfold len in *.
  split; [lia |]. split.
  - apply Forall_firstn_nth with (d := key); [lia |].
    intros i Hi. specialize (Hlo (Z.of_nat i)).
    unfold right in Hlo. rewrite Nat2Z.id in Hlo.
    apply negb_true_iff, Hlo. lia.
  - apply Forall_skipn_nth with (d := key).
    intros i Hi. specialize (Hhi (Z.of_nat i)).
    unfold right in Hhi. rewrite Nat2Z.id in Hhi.
    apply negb_false_iff, Hhi. lia.
Qed.

Lemma gallop_left_spec (key : A) (a : list A) (hint : Z) :
  StronglySorted (at_most lt) a -> Forall ok a -> 0 <= hint < len a ->
  let k := gallop_left lt key a hint in
  (k <= List.length a)%nat /\
  Forall (fun x => lt x key = true) (firstn k a) /\
  Forall (fun x => lt x key = false) (skipn k a).
Proof.
  intros Hs Hok Hh. unfold gallop_left.
  set (right := fun i => lt (nth (Z.to_nat i) a key) key).
  assert (Hp : forall i j, 0 <= i <= j -> j < len a ->
                           right j = true -> right i = true).
  { unfold right, len. intros i j Hij Hj Hr.
    apply (@at_most_below_trans (nth (Z.to_nat i) a key) (nth (Z.to_nat j) a key) key).
    - rewrite Forall_forall in Hok. apply Hok, nth_In. lia.
    - apply sorted_nth_at_most; [exact Hs | lia].
    - exact Hr. }
  assert (Hf : len a <= Z.of_nat (S (List.length a))) by (unfold len; lia).
  pose proof (@gallop_spec right (len a) Hp (S (List.length a)) hint Hh Hf) as Hg.
  cbv zeta in Hg |- *.
  set (g := gallop right (S (List.length a)) (len a) hint) in *. clearbody g.
  destruct Hg as (Hk & Hlo & Hhi). unfold len in *.
  split; [lia |]. split.
  - apply Forall_firstn_nth with (d := key); [lia |].
    intros i Hi. specialize (Hlo (Z.of_nat i)).
    unfold right in Hlo. rewrite Nat2Z.id in Hlo. apply Hlo. lia.
  - apply Forall_skipn_nth with (d := key).
    intros i Hi. specialize (Hhi (Z.of_nat i)).
    unfold right in Hhi. rewrite Nat2Z.id in Hhi. apply Hhi. lia.
Qed.

(** *** The plain merge *)

Lemma simple_merge_nil_r (a : list A) : simple_merge lt a [] = a.
Proof. now destruct a. Qed.

Lemma simple_merge_cons (a0 b0 : A) (a b : list A) :
  simple_merge lt (a0 :: a) (b0 :: b)
  = if lt b0 a0 then b0 :: simple_merge lt (a0 :: a) b
    else a0 :: simple_merge lt a (b0 :: b).
Proof. reflexivity. Qed.

Lemma simple_merge_perm (a b : list A) :
  Permutation (simple_merge lt a b) (a ++ b).
Proof.
  revert b. induction a as [| a0 a IHa]; intros b; [reflexivity |].
  induction b as [| b0 b IHb]; [rewrite simple_merge_nil_r; perm |].
  rewrite simple_merge_cons. destruct (lt b0 a0).
  - eapply perm_trans; [apply perm_skip, IHb |]. perm.
  - eapply perm_trans; [apply perm_skip, IHa |]. perm.
Qed.

(** The heads of [a] that the head of [b] is not below go first. *)
Lemma simple_merge_left (a1 a2 : list A) (b0 : A) (b : list A) :
  Forall (fun x => lt b0 x = false) a1 ->
  simple_merge lt (a1 ++ a2) (b0 :: b) = a1 ++ simple_merge lt a2 (b0 :: b).
Proof.
  induction 1 as [| x a1 Hx _ IH]; [reflexivity |].
  cbn [app]. rewrite simple_merge_cons, Hx. now rewrite IH.
Qed.

(** The heads of [b] that are below the head of [a] go first. *)
Lemma simple_merge_right (a0 : A) (a b1 b2 : list A) :
  Forall (fun y => lt y a0 = true) b1 ->
  simple_merge lt (a0 :: a) (b1 ++ b2) = b1 ++ simple_merge lt (a0 :: a) b2.
Proof.
  induction 1 as [| y b1 Hy _ IH]; [reflexivity |].
  cbn [app]. rewrite simple_merge_cons, Hy. now rewrite IH.
Qed.

(** An element that everything in [b] is below ends the merge. *)
Lemma simple_merge_top (a b : list A) (x : A) :
  Forall (fun y => lt y x = true) b ->
  simple_merge lt (a ++ [x]) b = simple_merge lt a b ++ [x].
Proof.
  revert b. induction a as [| a0 a IHa]; intros b Hb.
  - cbn [app]. rewrite <- (app_nil_r b) at 1.
    rewrite simple_merge_right by exact Hb. reflexivity.
  - induction Hb as [| b0 b Hb0 Hb' IHb]; [now rewrite !simple_merge_nil_r |].
    cbn [app]. rewrite !simple_merge_cons. destruct (lt b0 a0).
    + cbn [app] in IHb. now rewrite IHb.
    + rewrite IHa; [reflexivity | now constructor].
Qed.

(** An element that is below nothing in [a] ends the merge. *)
Lemma simple_merge_bottom (a b : list A) (y : A) :
  Forall (fun x => lt y x = false) a ->
  simple_merge lt a (b ++ [y]) = simple_merge lt a b ++ [y].
Proof.
  intros Ha. revert b. induction a as [| a0 a IHa]; intros b; [reflexivity |].
  inversion Ha as [| ? ? Ha0 Ha']; subst.
  induction b as [| b0 b IHb].
  - pose proof (IHa Ha' []) as H. cbn [app] in H |- *.
    rewrite simple_merge_cons, Ha0, H. now rewrite !simple_merge_nil_r.
  - cbn [app]. rewrite !simple_merge_cons. destruct (lt b0 a0).
    + now rewrite IHb.
    + pose proof (IHa Ha' (b0 :: b)) as H. cbn [app] in H. now rewrite H.
Qed.

Lemma simple_merge_tops (a1 a2 b : list A) :
  Forall (fun x => Forall (fun y => lt y x = true) b) a2 ->
  simple_merge lt (a1 ++ a2) b = simple_merge lt a1 b ++ a2.
Proof.
  induction a2 as [| x a2 IH] using rev_ind; intros H.
  - now rewrite !app_nil_r.
  - apply Forall_app in H. destruct H as [H1 H2]. inversion H2; subst.
    rewrite !app_assoc. rewrite simple_merge_top by assumption.
    now rewrite IH.
Qed.

Lemma simple_merge_bottoms (a b1 b2 : list A) :
  Forall (fun y => Forall (fun x => lt y x = false) a) b2 ->
  simple_merge lt a (b1 ++ b2) = simple_merge lt a b1 ++ b2.
Proof.
  induction b2 as [| y b2 IH] using rev_ind; intros H.
  - now rewrite !app_nil_r.
  - apply Forall_app in H. destruct H as [H1 H2]. inversion H2; subst.
    rewrite !app_assoc. rewrite simple_merge_bottom by assumption.
    now rewrite IH.
Qed.

Lemma simple_merge_sorted (a b : list A) :
  StronglySorted (at_most lt) a -> StronglySorted (at_most lt) b -> Forall ok a -> Forall ok b ->
  StronglySorted (at_most lt) (simple_merge lt a b).
Proof.
  intros Ha. revert b. induction Ha as [| a0 a Hsa IHa Hall]; intros b Hb Hoka Hokb;
    [exact Hb |].
  inversion Hoka as [| ? ? Hoka0 Hoka']; subst.
  induction Hb as [| b0 b Hsb IHb Hbll];
    [rewrite simple_merge_nil_r; now constructor |].
  inversion Hokb as [| ? ? Hokb0 Hokb']; subst.
  rewrite simple_merge_cons. destruct (lt b0 a0) eqn:C.
  - constructor; [now apply IHb |].
    eapply Permutation_Forall;
      [apply Permutation_sym, simple_merge_perm |].
    apply Forall_app. split; [| exact Hbll].
    constructor; [now apply below_at_most |].
    rewrite Forall_forall in *. intros x Hx.
    apply (@at_most_trans b0 a0 x); [exact Hoka0 | now apply below_at_most | now apply Hall].
  - constructor; [apply IHa; try assumption; now constructor |].
    eapply Permutation_Forall;
      [apply Permutation_sym, simple_merge_perm |].
    apply Forall_app. split; [exact Hall |].
    constructor; [exact C |].
    rewrite Forall_forall in *. intros y Hy.
    apply (@at_most_trans a0 b0 y); [exact Hokb0 | exact C | now apply Hbll].
Qed.

Lemma simple_merge_filter (p : A -> bool) (a b : list A) :
  unordered lt p -> StronglySorted (at_most lt) a -> Forall ok a ->
  filter p (simple_merge lt a b) = filter p a ++ filter p b.
Proof.
  intros Hu Ha. revert b. induction Ha as [| a0 a Hsa IHa Hall]; intros b Hoka;
    [reflexivity |].
  inversion Hoka as [| ? ? Hoka0 Hoka']; subst.
  induction b as [| b0 b IHb];
    [rewrite simple_merge_nil_r; now rewrite app_nil_r |].
  rewrite simple_merge_cons. destruct (lt b0 a0) eqn:C.
  - change (filter p (b0 :: simple_merge lt (a0 :: a) b))
      with (if p b0 then b0 :: filter p (simple_merge lt (a0 :: a) b)
            else filter p (simple_merge lt (a0 :: a) b)).
    change (filter p (b0 :: b))
      with (if p b0 then b0 :: filter p b else filter p b).
    rewrite IHb. destruct (p b0) eqn:Pb; [| reflexivity].
    rewrite (@filter_none p (a0 :: a)); [reflexivity |].
    assert (Hbelow : Forall (fun x => lt b0 x = true) (a0 :: a)).
    { constructor; [exact C |]. rewrite Forall_forall in *. intros x Hx.
      apply (@below_at_most_trans b0 a0 x); [now apply Hoka' | exact C | now apply Hall]. }
    eapply Forall_impl; [| exact Hbelow]. intros x Hx. cbv beta in Hx.
    destruct (p x) eqn:Px; [| reflexivity].
    rewrite (Hu b0 x Pb Px) in Hx. discriminate.
  - cbn [filter]. rewrite IHa by assumption.
    destruct (p a0); reflexivity.
Qed.

(** *** The merges of [list.sort] are the plain merge *)

Lemma simple_merge_single_top (b : list A) (x : A) :
  Forall (fun y => lt y x = true) b -> simple_merge lt [x] b = b ++ [x].
Proof. intros H. exact (@simple_merge_top [] b x H). Qed.

Lemma simple_merge_single_bottom (a : list A) (y : A) :
  Forall (fun x => lt y x = true) a -> simple_merge lt a [y] = y :: a.
Proof.
  destruct a as [| a0 a]; [reflexivity |]. intros H. inversion H; subst.
  rewrite simple_merge_cons. rewrite H2. now rewrite simple_merge_nil_r.
Qed.

Lemma last_cons_cons (d x y : A) (l : list A) :
  last (x :: y :: l) d = last (y :: l) d.
Proof. reflexivity. Qed.

Ltac sorted_tail :=
  match goal with
  | H : StronglySorted (at_most lt) (_ :: _) |- _ =>
    let Hs := fresh "Hs" in
    let Hall := fresh "Hall" in
    inversion H as [| ? ? Hs Hall]; subst; clear H
  end.

Ltac forall_tail :=
  match goal with
  | H : Forall _ (_ :: _) |- _ =>
    let Hx := fresh "Hx" in
    let Hl := fresh "Hl" in
    inversion H as [| ? ? Hx Hl]; subst; clear H
  end.

Ltac side :=
  first
    [ assumption
    | discriminate
    | match goal with
      | H : Forall _ (_ :: ?l) |- Forall _ ?l => now inversion H
      | H : StronglySorted _ (_ :: ?l) |- StronglySorted _ ?l => now inversion H
      | H : _ <> [] -> last _ _ = _ |- last _ _ = _ => apply H; discriminate
      end
    | simpl in *; lia ].

Lemma merge_lo_loop_spec (top : A) (fuel : nat) :
  forall m mg out a b,
    StronglySorted (at_most lt) a -> StronglySorted (at_most lt) b -> Forall ok a -> Forall ok b ->
    (2 <= List.length a)%nat -> b <> [] ->
    last a top = top -> Forall (fun y => lt y top = true) b ->
    (List.length a + List.length b <= fuel)%nat ->
    fst (merge_lo_loop lt fuel m mg out a b) = out ++ simple_merge lt a b.
Proof.
  induction fuel as [| fuel IH];
    intros m mg out a b Hsa Hsb Hoka Hokb Hlen Hb Hlast Htop Hfuel;
    [lia |].
  destruct a as [| a0 a']; [simpl in Hlen; lia |].
  destruct b as [| b0 b']; [congruence |].
  cbn [merge_lo_loop]. destruct m as [acount bcount |].
  - rewrite simple_merge_cons. destruct (lt b0 a0) eqn:C.
    + destruct b' as [| b1 b''].
      * cbn [fst]. now rewrite simple_merge_nil_r.
      * destruct (next_mode mg 0 (bcount + 1)) as [m' mg'].
        rewrite IH; try assumption.
        -- now rewrite <- app_assoc.
        -- now inversion Hsb.
        -- now inversion Hokb.
        -- discriminate.
        -- now inversion Htop.
        -- simpl in *. lia.
    + destruct a' as [| a1 [| a2 a'']].
      * simpl in Hlen. lia.
      * cbn [fst]. cbn in Hlast. subst a1.
        now rewrite simple_merge_single_top.
      * destruct (next_mode mg (acount + 1) 0) as [m' mg'].
        rewrite IH; try assumption.
        -- now rewrite <- app_assoc.
        -- now inversion Hsa.
        -- now inversion Hoka.
        -- simpl. lia.
        -- simpl in *. lia.
  - assert (Hh : 0 <= 0 < len (a0 :: a')) by (unfold len; simpl; lia).
    pose proof (@gallop_right_spec b0 (a0 :: a') 0 Hsa Hoka Hh) as Hg.
    cbv zeta in Hg.
    set (k := gallop_right lt b0 (a0 :: a') 0) in *.
    destruct Hg as (Hk & Hg1 & Hg2).
    replace (simple_merge lt (a0 :: a') (b0 :: b'))
      with (firstn k (a0 :: a')
            ++ simple_merge lt (skipn k (a0 :: a')) (b0 :: b'))
      by (rewrite <- simple_merge_left by exact Hg1;
          now rewrite firstn_skipn).
    pose proof (@StronglySorted_skipn _ (at_most lt) k _ Hsa) as Hss.
    pose proof (@Forall_skipn _ ok k _ Hoka) as Hoks.
    pose proof (@last_skipn _ top k (a0 :: a')) as Hls. rewrite Hlast in Hls.
    assert (Hlens : (List.length (skipn k (a0 :: a')) <= List.length (a0 :: a'))%nat)
      by (rewrite length_skipn; lia).
    set (f := firstn k (a0 :: a')) in *.
    set (s := skipn k (a0 :: a')) in *. clearbody f s.
    destruct s as [| a1 [| a2 s']].
    + cbn [fst]. now rewrite <- app_assoc.
    + cbn [fst]. cbn in Hls. rewrite Hls by discriminate.
      rewrite simple_merge_single_top by exact Htop. now rewrite <- app_assoc.
    + inversion Hg2 as [| ? ? Hb0a1 _]; subst.
      rewrite simple_merge_cons, Hb0a1.
      destruct b' as [| b1 b''].
      * cbn [fst]. rewrite simple_merge_nil_r. now rewrite <- !app_assoc.
      * assert (Hsb' : StronglySorted (at_most lt) (b1 :: b'')) by now inversion Hsb.
        assert (Hokb' : Forall ok (b1 :: b'')) by now inversion Hokb.
        assert (Htop' : Forall (fun y => lt y top = true) (b1 :: b''))
          by now inversion Htop.
        assert (Hh' : 0 <= 0 < len (b1 :: b'')) by (unfold len; simpl; lia).
        pose proof (@gallop_left_spec a1 (b1 :: b'') 0 Hsb' Hokb' Hh') as Hg'.
        cbv zeta in Hg'.
        set (k' := gallop_left lt a1 (b1 :: b'') 0) in *.
        destruct Hg' as (Hk' & Hg1' & Hg2').
        replace (simple_merge lt (a1 :: a2 :: s') (b1 :: b''))
          with (firstn k' (b1 :: b'')
                ++ simple_merge lt (a1 :: a2 :: s') (skipn k' (b1 :: b'')))
          by (rewrite <- simple_merge_right by exact Hg1';
              now rewrite firstn_skipn).
        pose proof (@StronglySorted_skipn _ (at_most lt) k' _ Hsb') as Hss2.
        pose proof (@Forall_skipn _ ok k' _ Hokb') as Hoks2.
        pose proof (@Forall_skipn _ (fun y => lt y top = true) k' _ Htop') as Htop2.
        assert (Hlens2 : (List.length (skipn k' (b1 :: b''))
                          <= List.length (b1 :: b''))%nat)
          by (rewrite length_skipn; lia).
        set (f' := firstn k' (b1 :: b'')) in *.
        set (s2 := skipn k' (b1 :: b'')) in *. clearbody f' s2.
        destruct s2 as [| b2 s2'].
        -- cbn [fst]. rewrite simple_merge_nil_r. now rewrite <- !app_assoc.
        -- inversion Hg2' as [| ? ? Hb2a1 _]; subst.
           rewrite simple_merge_cons, Hb2a1.
           destruct s' as [| a3 s''].
           ++ cbn [fst]. cbn in Hls. rewrite Hls by discriminate.
              rewrite simple_merge_single_top by exact Htop2.
              now rewrite <- !app_assoc.
           ++ match goal with
              | |- context [after_gallop ?x ?y ?z] =>
                destruct (after_gallop x y z) as [m'' mg'']
              end.
              rewrite IH; try assumption.
              ** now rewrite <- !app_assoc.
              ** now inversion Hss.
              ** now inversion Hoks.
              ** simpl. lia.
              ** discriminate.
              ** apply Hls. discriminate.
              ** simpl in *. lia.
Qed.

Lemma merge_lo_spec (top : A) (mg : Z) (a b : list A) :
  StronglySorted (at_most lt) a -> StronglySorted (at_most lt) b -> Forall ok a -> Forall ok b ->
  a <> [] -> last a top = top -> Forall (fun y => lt y top = true) b ->
  (forall b0, hd_error b = Some b0 -> Forall (fun x => lt b0 x = true) a) ->
  fst (merge_lo lt mg a b) = simple_merge lt a b.
Proof.
  intros Hsa Hsb Hoka Hokb Ha Hlast Htop Hbot. unfold merge_lo.
  destruct b as [| b0 b']; [now rewrite simple_merge_nil_r |].
  specialize (Hbot b0 eq_refl).
  destruct b' as [| b1 b''];
    [cbn [fst]; now rewrite simple_merge_single_bottom |].
  destruct a as [| a0 [| a1 a']]; [congruence | |].
  - cbn [fst]. cbn in Hlast. subst a0.
    now rewrite simple_merge_single_top.
  - inversion Hbot as [| ? ? Hb0a0 _]; subst.
    rewrite simple_merge_cons, Hb0a0.
    rewrite (@merge_lo_loop_spec top); try assumption.
    + reflexivity.
    + now inversion Hsb.
    + now inversion Hokb.
    + simpl. lia.
    + discriminate.
    + now inversion Htop.
    + simpl. lia.
Qed.

Lemma sorted_rev_cons (x : A) (l : list A) :
  StronglySorted (at_most lt) (rev (x :: l)) ->
  StronglySorted (at_most lt) (rev l) /\ Forall (fun z => (at_most lt) z x) l.
Proof.
  cbn [rev]. intros H. apply StronglySorted_app_inv in H.
  destruct H as (H1 & _ & H2). split; [exact H1 |].
  rewrite <- (rev_involutive l). apply Forall_rev.
  eapply Forall_impl; [| exact H2]. intros z Hz. now inversion Hz.
Qed.

Lemma simple_merge_rev_nil (b : list A) : simple_merge lt (rev []) b = b.
Proof. reflexivity. Qed.

Lemma rev_cut (k : nat) (l : list A) :
  (k <= List.length l)%nat ->
  rev (firstn (List.length l - k) l) = skipn k (rev l) /\
  rev (skipn (List.length l - k) l) = firstn k (rev l).
Proof.
  intros Hk. split.
  - rewrite skipn_rev. reflexivity.
  - rewrite firstn_rev. reflexivity.
Qed.

Lemma merge_hi_loop_spec (bot : A) (fuel : nat) :
  forall m mg ra rb out,
    StronglySorted (at_most lt) (rev ra) -> StronglySorted (at_most lt) (rev rb) ->
    Forall ok ra -> Forall ok rb ->
    (2 <= List.length rb)%nat -> ra <> [] ->
    last rb bot = bot -> Forall (fun x => lt bot x = true) ra ->
    (List.length ra + List.length rb <= fuel)%nat ->
    fst (merge_hi_loop lt fuel m mg ra rb out)
    = simple_merge lt (rev ra) (rev rb) ++ out.
Proof.
  induction fuel as [| fuel IH];
    intros m mg ra rb out Hsa Hsb Hoka Hokb Hlen Ha Hlast Hbot Hfuel;
    [lia |].
  destruct ra as [| a0 ra']; [congruence |].
  destruct rb as [| b0 rb']; [simpl in Hlen; lia |].
  cbn [merge_hi_loop].
  destruct (@sorted_rev_cons _ _ Hsa) as [Hsa' Hbelow_a0].
  destruct (@sorted_rev_cons _ _ Hsb) as [Hsb' Hbelow_b0].
  inversion Hoka as [| ? ? Hoka0 Hoka']; subst.
  inversion Hokb as [| ? ? Hokb0 Hokb']; subst.
  destruct m as [acount bcount |].
  - destruct (lt b0 a0) eqn:C.
    + assert (Hall : Forall (fun y => lt y a0 = true) (rev (b0 :: rb'))).
      { apply Forall_rev. constructor; [exact C |].
        rewrite Forall_forall in *. intros y Hy.
        apply (@at_most_below_trans y b0 a0); [now apply Hokb' | now apply Hbelow_b0 | exact C]. }
      change (rev (a0 :: ra')) with (rev ra' ++ [a0]).
      rewrite (@simple_merge_top _ _ _ Hall).
      destruct ra' as [| a1 ra''].
      * cbn [fst]. rewrite simple_merge_rev_nil. now rewrite <- app_assoc.
      * destruct (next_mode mg (acount + 1) 0) as [m' mg'].
        rewrite IH; [now rewrite <- ?app_assoc | side ..].
    + assert (Hall : Forall (fun x => lt b0 x = false) (rev (a0 :: ra'))).
      { apply Forall_rev. constructor; [exact C |].
        rewrite Forall_forall in *. intros z Hz.
        apply (@at_most_trans z a0 b0); [exact Hoka0 | now apply Hbelow_a0 | exact C]. }
      change (rev (b0 :: rb')) with (rev rb' ++ [b0]).
      rewrite (@simple_merge_bottom _ _ _ Hall).
      destruct rb' as [| b1 [| b2 rb'']].
      * simpl in Hlen. lia.
      * cbn [fst]. cbn in Hlast. subst b1. change (rev [bot]) with [bot].
        rewrite simple_merge_single_bottom by (apply Forall_rev; exact Hbot).
        cbn [app]. now rewrite <- app_assoc.
      * destruct (next_mode mg 0 (bcount + 1)) as [m' mg'].
        rewrite IH; [now rewrite <- ?app_assoc | side ..].
  - assert (Hh : 0 <= len (a0 :: ra') - 1 < len (rev (a0 :: ra')))
      by (unfold len; rewrite length_rev; cbn [List.length]; lia).
    pose proof (@gallop_right_spec b0 (rev (a0 :: ra')) (len (a0 :: ra') - 1)
                                   Hsa (@Forall_rev _ _ _ Hoka) Hh) as Hg.
    cbv zeta in Hg.
    set (g := gallop_right lt b0 (rev (a0 :: ra')) (len (a0 :: ra') - 1)) in *.
    destruct Hg as (Hg & Hg1 & Hg2). rewrite length_rev in Hg.
    destruct (@rev_cut g (a0 :: ra') Hg) as [Hcut1 Hcut2].
    set (k := (List.length (a0 :: ra') - g)%nat) in *.
    rewrite <- Hcut1 in Hg2. rewrite <- Hcut2 in Hg1.
    assert (Hrev : rev (a0 :: ra')
                   = rev (skipn k (a0 :: ra')) ++ rev (firstn k (a0 :: ra'))).
    { rewrite <- rev_app_distr. now rewrite firstn_skipn. }
    assert (Hallb : Forall (fun y => (at_most lt) y b0) (rev (b0 :: rb'))).
    { apply Forall_rev. constructor; [apply at_most_refl | exact Hbelow_b0]. }
    assert (Htops : Forall (fun x => Forall (fun y => lt y x = true) (rev (b0 :: rb')))
                           (rev (firstn k (a0 :: ra')))).
    { eapply Forall_impl; [| exact Hg2]. intros x Hx. cbv beta in Hx.
      assert (Hokall : Forall ok (rev (b0 :: rb'))) by now apply Forall_rev.
      rewrite Forall_forall in *. intros y Hy.
      apply (@at_most_below_trans y b0 x); [now apply Hokall | now apply Hallb | exact Hx]. }
    rewrite Hrev in Hsa |- *.
    rewrite (@simple_merge_tops _ _ _ Htops).
    apply StronglySorted_app_inv in Hsa. destruct Hsa as (Hss & _ & _).
    pose proof (@Forall_skipn _ ok k _ Hoka) as Hoks.
    pose proof (@Forall_skipn _ (fun x => lt bot x = true) k _ Hbot) as Hbots.
    assert (Hlens : (List.length (skipn k (a0 :: ra')) <= List.length (a0 :: ra'))%nat)
      by (rewrite length_skipn; lia).
    clear Hcut1 Hcut2 Hrev Hg2 Htops.
    set (f := firstn k (a0 :: ra')) in *.
    set (s := skipn k (a0 :: ra')) in *. clearbody f s.
    destruct s as [| a1 ra1'].
    + cbn [fst]. rewrite simple_merge_rev_nil. now rewrite <- app_assoc.
    + change (rev (b0 :: rb')) with (rev rb' ++ [b0]).
      rewrite (@simple_merge_bottom _ _ _ Hg1).
      destruct rb' as [| b1 [| b2 rb'']].
      * simpl in Hlen. lia.
      * cbn [fst]. cbn in Hlast. subst b1. change (rev [bot]) with [bot].
        rewrite simple_merge_single_bottom by (apply Forall_rev; exact Hbots).
        cbn [app]. now rewrite <- !app_assoc.
      * set (rb1 := b1 :: b2 :: rb'') in *.
        assert (Hh' : 0 <= len rb1 - 1 < len (rev rb1))
          by (unfold len, rb1; rewrite length_rev; cbn [List.length]; lia).
        pose proof (@gallop_left_spec a1 (rev rb1) (len rb1 - 1)
                                      Hsb' (@Forall_rev _ _ _ Hokb') Hh') as Hg'.
        cbv zeta in Hg'.
        set (g' := gallop_left lt a1 (rev rb1) (len rb1 - 1)) in *.
        destruct Hg' as (Hg' & Hg1' & Hg2'). rewrite length_rev in Hg'.
        destruct (@rev_cut g' rb1 Hg') as [Hcut1 Hcut2].
        set (k' := (List.length rb1 - g')%nat) in *.
        rewrite <- Hcut1 in Hg2'. rewrite <- Hcut2 in Hg1'.
        assert (Hrev : rev rb1 = rev (skipn k' rb1) ++ rev (firstn k' rb1)).
        { rewrite <- rev_app_distr. now rewrite firstn_skipn. }
        destruct (@sorted_rev_cons _ _ Hss) as [Hss' Hbelow_a1].
        inversion Hoks as [| ? ? Hoka1 Hoks']; subst.
        assert (Hbottoms :
                  Forall (fun y => Forall (fun x => lt y x = false) (rev (a1 :: ra1')))
                         (rev (firstn k' rb1))).
        { eapply Forall_impl; [| exact Hg2']. intros y Hy. cbv beta in Hy.
          apply Forall_rev. constructor; [exact Hy |].
          rewrite Forall_forall in *. intros z Hz.
          apply (@at_most_trans z a1 y); [exact Hoka1 | now apply Hbelow_a1 | exact Hy]. }
        rewrite Hrev in Hsb' |- *.
        rewrite (@simple_merge_bottoms _ _ _ Hbottoms).
        apply StronglySorted_app_inv in Hsb'. destruct Hsb' as (Hss2 & _ & _).
        pose proof (@Forall_skipn _ ok k' _ Hokb') as Hoks2.
        pose proof (@last_skipn _ bot k' rb1) as Hls.
        assert (Hlast1 : last rb1 bot = bot) by exact Hlast.
        rewrite Hlast1 in Hls.
        assert (Hlens2 : (List.length (skipn k' rb1) <= List.length rb1)%nat)
          by (rewrite length_skipn; lia).
        clear Hcut1 Hcut2 Hrev Hg2' Hbottoms.
        set (f' := firstn k' rb1) in *.
        set (s2 := skipn k' rb1) in *. clearbody f' s2.
        destruct s2 as [| b3 [| b4 rb2]].
        -- cbn [fst]. cbn [rev]. rewrite simple_merge_nil_r.
           now rewrite <- !app_assoc.
        -- cbn [fst]. cbn in Hls. rewrite Hls by discriminate. change (rev [bot]) with [bot].
           rewrite simple_merge_single_bottom by (apply Forall_rev; exact Hbots).
           cbn [app]. now rewrite <- !app_assoc.
        -- change (rev (a1 :: ra1')) with (rev ra1' ++ [a1]).
           rewrite (@simple_merge_top _ _ _ Hg1').
           destruct ra1' as [| a2 ra1''].
           ++ cbn [fst]. rewrite simple_merge_rev_nil. now rewrite <- !app_assoc.
           ++ match goal with
              | |- context [after_gallop ?x ?y ?z] =>
                destruct (after_gallop x y z) as [m'' mg'']
              end.
              rewrite IH; [now rewrite <- ?app_assoc | side ..].
Qed.

Lemma merge_hi_spec (top bot : A) (mg : Z) (a b' : list A) :
  StronglySorted (at_most lt) a -> StronglySorted (at_most lt) (bot :: b') ->
  Forall ok a -> Forall ok (bot :: b') ->
  a <> [] -> last a top = top ->
  Forall (fun y => lt y top = true) (bot :: b') ->
  Forall (fun x => lt bot x = true) a ->
  fst (merge_hi lt mg a (bot :: b')) = simple_merge lt a (bot :: b').
Proof.
  intros Hsa Hsb Hoka Hokb Ha Hlast Htop Hbot. unfold merge_hi.
  remember (rev a) as ra eqn:E.
  apply (f_equal (@rev A)) in E. rewrite rev_involutive in E. subst a.
  destruct ra as [| a0 ra']; [now destruct Ha |].
  assert (a0 = top).
  { cbn [rev] in Hlast. now rewrite last_last in Hlast. }
  subst a0.
  destruct ra' as [| a1 ra''].
  - cbn [fst rev app]. now rewrite simple_merge_single_top.
  - destruct b' as [| b1 b''].
    + cbn [fst]. now rewrite simple_merge_single_bottom.
    + change (rev (top :: a1 :: ra'')) with (rev (a1 :: ra'') ++ [top]).
      rewrite (@simple_merge_top _ _ _ Htop).
      rewrite (@merge_hi_loop_spec bot).
      * now rewrite rev_involutive.
      * change (rev (top :: a1 :: ra'')) with (rev (a1 :: ra'') ++ [top]) in Hsa.
        now apply StronglySorted_app_inv in Hsa.
      * now rewrite rev_involutive.
      * apply Forall_rev in Hoka. rewrite rev_involutive in Hoka.
        now inversion Hoka.
      * now apply Forall_rev.
      * rewrite length_rev. simpl. lia.
      * discriminate.
      * change (rev (bot :: b1 :: b'')) with (rev (b1 :: b'') ++ [bot]).
        apply last_last.
      * apply Forall_rev in Hbot. rewrite rev_involutive in Hbot.
        now inversion Hbot.
      * rewrite ?length_app, ?length_rev. simpl. lia.
Qed.

(** [merge_at] on two sorted runs is the plain merge. *)
Lemma merge_at_spec (mg : Z) (a b : list A) :
  StronglySorted (at_most lt) a -> StronglySorted (at_most lt) b -> Forall ok a -> Forall ok b ->
  fst (merge_at lt mg a b) = simple_merge lt a b.
Proof.
  intros Hsa Hsb Hoka Hokb. unfold merge_at.
  destruct b as [| b0 b']; [now rewrite simple_merge_nil_r |].
  destruct a as [| a0 a'].
  { rewrite skipn_nil. reflexivity. }
  set (a := a0 :: a') in *. set (b := b0 :: b') in *.
  assert (Hh : 0 <= 0 < len a) by (unfold len, a; cbn [List.length]; lia).
  pose proof (@gallop_right_spec b0 a 0 Hsa Hoka Hh) as Hg. cbv zeta in Hg.
  set (k := gallop_right lt b0 a 0) in *.
  destruct Hg as (Hk & Hg1 & Hg2).
  replace (simple_merge lt a b)
    with (firstn k a ++ simple_merge lt (skipn k a) b)
    by (unfold b; rewrite <- simple_merge_left by exact Hg1;
        now rewrite firstn_skipn).
  pose proof (@StronglySorted_skipn _ (at_most lt) k _ Hsa) as Hss.
  pose proof (@Forall_skipn _ ok k _ Hoka) as Hoks.
  pose proof (firstn_skipn k a) as Hcut.
  set (f := firstn k a) in *. set (s := skipn k a) in *. clearbody f s.
  remember (rev s) as rs eqn:E.
  apply (f_equal (@rev A)) in E. rewrite rev_involutive in E.
  destruct rs as [| a_last rs'].
  { cbn [rev] in E. subst s. cbn [fst]. rewrite app_nil_r in Hcut.
    now rewrite <- Hcut. }
  assert (Hlast : last s a_last = a_last).
  { subst s. cbn [rev]. apply last_last. }
  assert (Hbelow : Forall (fun z => (at_most lt) z a_last) s).
  { subst s. cbn [rev] in Hss |- *. apply StronglySorted_app_inv in Hss.
    destruct Hss as (_ & _ & Hc). apply Forall_app. split.
    - eapply Forall_impl; [| exact Hc]. intros z Hz. now inversion Hz.
    - constructor; [apply at_most_refl | constructor]. }
  assert (Hok_last : ok a_last).
  { subst s. apply Forall_app in Hoks. destruct Hoks as [_ Hx]. now inversion Hx. }
  assert (Hs_ne : s <> []).
  { subst s. cbn [rev]. now destruct (rev rs'). }
  assert (Hh' : 0 <= len b - 1 < len b) by (unfold len, b; cbn [List.length]; lia).
  pose proof (@gallop_left_spec a_last b (len b - 1) Hsb Hokb Hh') as Hn.
  cbv zeta in Hn.
  set (nb := gallop_left lt a_last b (len b - 1)) in *.
  destruct Hn as (Hnb & Hn1 & Hn2).
  assert (Hbottoms : Forall (fun y => Forall (fun x => lt y x = false) s)
                            (skipn nb b)).
  { eapply Forall_impl; [| exact Hn2]. intros y Hy. cbv beta in Hy.
    rewrite Forall_forall in *. intros z Hz.
    apply (@at_most_trans z a_last y); [exact Hok_last | now apply Hbelow | exact Hy]. }
  replace (simple_merge lt s b)
    with (simple_merge lt s (firstn nb b) ++ skipn nb b)
    by (rewrite <- (@simple_merge_bottoms _ _ _ Hbottoms);
        now rewrite firstn_skipn).
  pose proof (@StronglySorted_firstn _ (at_most lt) nb _ Hsb) as Hsb1.
  pose proof (@Forall_firstn _ ok nb _ Hokb) as Hokb1.
  clearbody nb. destruct nb as [| n'].
  { cbn [fst firstn skipn]. rewrite simple_merge_nil_r.
    rewrite <- Hcut. now rewrite <- app_assoc. }
  assert (Hfirst : firstn (S n') b = b0 :: firstn n' b') by reflexivity.
  destruct (List.length s <=? S n')%nat.
  - pose proof (@merge_lo_spec a_last mg s (firstn (S n') b) Hss Hsb1 Hoks Hokb1
                               Hs_ne Hlast Hn1) as Hm.
    destruct (merge_lo lt mg s (firstn (S n') b)) as [merged mg']. cbn [fst] in *.
    rewrite Hm; [reflexivity |].
    intros b1 Hb1. rewrite Hfirst in Hb1. cbn in Hb1.
    injection Hb1 as <-. exact Hg2.
  - rewrite Hfirst in *.
    pose proof (@merge_hi_spec a_last b0 mg s (firstn n' b') Hss Hsb1
                               Hoks Hokb1 Hs_ne Hlast Hn1 Hg2) as Hm.
    destruct (merge_hi lt mg s (b0 :: firstn n' b')) as [merged mg'].
    cbn [fst] in *. now rewrite Hm.
Qed.

Lemma merge_at_settled (mg : Z) (sa a sb b : list A) :
  Forall ok a -> Forall ok b -> settled lt sa a -> settled lt sb b ->
  settled lt (sa ++ sb) (fst (merge_at lt mg a b)).
Proof.
  intros Hoka Hokb [Hsa Hfa] [Hsb Hfb].
  rewrite merge_at_spec by assumption. split.
  - now apply simple_merge_sorted.
  - intros p Hu. rewrite simple_merge_filter by assumption.
    rewrite filter_app. now rewrite Hfa, Hfb.
Qed.

(** *** The runs as they are found *)

Lemma Sorted_weaken (R R' : A -> A -> Prop) (l : list A) :
  (forall a b, R a b -> R' a b) -> Sorted R l -> Sorted R' l.
Proof.
  intros H Hs. induction Hs as [| x l Hs IH Hhd]; [constructor |].
  constructor; [exact IH |]. destruct Hhd; constructor. now apply H.
Qed.

Lemma Sorted_rev_lt (l : list A) :
  Sorted (fun a b => lt b a = true) l -> Sorted (fun a b => lt a b = true) (rev l).
Proof.
  induction l as [| x l IH]; intros Hs; [constructor |].
  inversion Hs as [| ? ? Hs' Hhd]; subst. cbn [rev].
  specialize (IH Hs'). clear Hs Hs'.
  destruct l as [| y l]; [repeat constructor |].
  inversion Hhd; subst.
  assert (Hsnoc : forall l0 : list A,
             Sorted (fun a b => lt a b = true) (l0 ++ [y]) ->
             Sorted (fun a b => lt a b = true) ((l0 ++ [y]) ++ [x])).
  { induction l0 as [| z l0 IH0]; intros H.
    - repeat constructor. assumption.
    - inversion H as [| ? ? H' Hhd']; subst. cbn [app].
      constructor; [now apply IH0 |].
      destruct l0; cbn [app] in *; inversion Hhd'; subst; now constructor. }
  cbn [rev] in *. now apply Hsnoc.
Qed.

Lemma descending_filter (p : A -> bool) (l : list A) :
  unordered lt p -> Forall ok l ->
  Sorted (fun a b => lt b a = true) l -> filter p (rev l) = filter p l.
Proof.
  intros Hu Hok Hs.
  assert (Hss : StronglySorted (fun a b => lt b a = true) l).
  { apply Sorted_StronglySorted_ok; [| assumption | assumption].
    intros a b c Ha _ _ Hab Hbc. exact (@below_trans c b a Ha Hbc Hab). }
  clear Hs. induction Hss as [| x l Hss IH Hall]; [reflexivity |].
  inversion Hok; subst. cbn [rev]. rewrite filter_app, IH by assumption.
  cbn [filter]. destruct (p x) eqn:Px; [| now rewrite app_nil_r].
  rewrite filter_none; [reflexivity |].
  eapply Forall_impl; [| exact Hall]. intros y Hy. cbv beta in Hy.
  destruct (p y) eqn:Py; [| reflexivity].
  rewrite (Hu y x Py Px) in Hy. discriminate.
Qed.

Lemma count_run_settled (l : list A) :
  Forall ok l ->
  let '(k, descending) := count_run lt l in
  settled lt (firstn k l) (if descending then rev (firstn k l) else firstn k l).
Proof.
  intros Hok. destruct l as [| x [| y l]].
  - cbn. split; [constructor | reflexivity].
  - cbn. split; [repeat constructor | reflexivity].
  - unfold count_run. destruct (lt y x) eqn:C.
    + cbn [firstn].
      assert (Hs : Sorted (fun a b => lt b a = true)
                          (x :: y :: firstn (descending_run lt y l) l)).
      { constructor; [apply descending_run_sorted | now constructor]. }
      assert (Hok' : Forall ok (x :: y :: firstn (descending_run lt y l) l)).
      { inversion Hok as [| ? ? Hx Hok1]; subst.
        inversion Hok1 as [| ? ? Hy Hok2]; subst.
        repeat constructor; try assumption. now apply Forall_firstn. }
      split.
      * apply Sorted_StronglySorted_ok.
        -- intros a b c _ Hb _. now apply at_most_trans.
        -- now apply Forall_rev.
        -- apply Sorted_weaken with (R := fun a b => lt a b = true);
             [intros a b; apply below_at_most | now apply Sorted_rev_lt].
      * intros p Hu. now apply descending_filter.
    + cbn [firstn].
      assert (Hok' : Forall ok (x :: y :: firstn (ascending_run lt y l) l)).
      { inversion Hok as [| ? ? Hx Hok1]; subst.
        inversion Hok1 as [| ? ? Hy Hok2]; subst.
        repeat constructor; try assumption. now apply Forall_firstn. }
      split; [| reflexivity].
      apply Sorted_StronglySorted_ok; [| exact Hok' |].
      * intros a b c _ Hb _. now apply at_most_trans.
      * constructor; [apply ascending_run_sorted | now constructor].
Qed.

Lemma next_run_settled (minrun : nat) (l : list A) :
  l <> [] -> Forall ok l ->
  settled lt (firstn (taken lt minrun l) l) (fst (next_run lt minrun l)).
Proof.
  intros Hl Hok. rewrite (next_run_cut lt minrun Hl).
  pose proof (count_run_settled Hok) as Hrun. unfold next_run.
  destruct (count_run lt l) as [k descending]. cbn [fst].
  destruct (k <? minrun)%nat; cbn [fst].
  - apply binarysort_settled.
    + destruct descending; [apply Forall_rev |]; now apply Forall_firstn.
    + now apply Forall_firstn, Forall_skipn.
    + exact Hrun.
  - now rewrite app_nil_r.
Qed.

(** With the keys ordered, [list_sort] sorts, and leaves the elements that
    the order does not tell apart in the order in which it found them. *)
Theorem list_sort_settled (l : list A) :
  Forall ok l -> settled lt l (list_sort lt l).
Proof.
  intros Hok. destruct l as [| x l']; [split; [constructor | reflexivity] |].
  set (l := x :: l') in *.
  apply (@list_sort_Rel A lt (Forall ok)
           (fun s r => Forall ok r /\ settled lt s r));
    [| | | discriminate | exact Hok].
  - intros k l0. apply Forall_skipn.
  - intros minrun l0 Hl Hok0. split; [| now apply next_run_settled].
    eapply Permutation_Forall; [apply next_run_perm; exact Hl |].
    now apply Forall_firstn.
  - intros mg sa a sb b [Hoa Hsa] [Hob Hsb]. split.
    + eapply Permutation_Forall; [apply Permutation_sym, merge_at_perm |].
      apply Forall_app. now split.
    + now apply merge_at_settled.
Qed.

End Ordered.

(** *** The order of floats without nan *)

Section FloatStrictOrder.

Lemma leb_not_ltb (x y : float) :
  PrimFloat.leb x y = true -> PrimFloat.ltb y x = false.
Proof.
  rewrite leb_spec, ltb_spec. unfold SFleb, SFltb.
  rewrite (SFcompare_antisym (Prim2SF x) (Prim2SF y)).
  destruct (SFcompare (Prim2SF x) (Prim2SF y)) as [[| |] |];
    simpl; intros H; reflexivity || discriminate.
Qed.

Lemma ltb_asym (x y : float) :
  PrimFloat.ltb x y = true -> PrimFloat.ltb y x = false.
Proof. intros H. apply leb_not_ltb, ltb_leb, H. Qed.

Lemma not_nan_is_nan (x : float) :
  Prim2SF x <> S754_nan -> is_nan x = false.
Proof.
  intros H. unfold is_nan. rewrite eqb_spec. unfold SFeqb.
  now rewrite (SFcompare_refl H).
Qed.

(** What [<] holds of is not nan. *)
Lemma ltb_not_nan (x y : float) :
  PrimFloat.ltb x y = true -> is_nan x = false /\ is_nan y = false.
Proof.
  rewrite ltb_spec. unfold SFltb. intros H.
  split; apply not_nan_is_nan; intros E; rewrite E in H.
  - discriminate.
  - destruct (Prim2SF x); discriminate.
Qed.

(** A float that is not nan lies above the smaller or below the larger of
    two floats that [<] tells apart. *)
Lemma ltb_negtrans (x y z : float) :
  is_nan y = false -> PrimFloat.ltb x z = true ->
  PrimFloat.ltb x y = true \/ PrimFloat.ltb y z = true.
Proof.
  intros Hy H. destruct (ltb_not_nan H) as [Hx Hz].
  destruct (PrimFloat.ltb x y) eqn:E1; [now left |].
  destruct (PrimFloat.ltb y z) eqn:E2; [now right |].
  pose proof (ltb_false_leb Hx Hy E1) as H1.
  pose proof (ltb_false_leb Hy Hz E2) as H2.
  pose proof (leb_not_ltb (leb_trans H2 H1)) as H3.
  rewrite H3 in H. discriminate.
Qed.

End FloatStrictOrder.

Section Reversal.
Context {A : Type}.

Lemma Sorted_snoc (R : A -> A -> Prop) (l : list A) (a : A) :
  Sorted R l ->
  match rev l with [] => True | b :: _ => R b a end ->
  Sorted R (l ++ [a]).
Proof.
  induction l as [| x l IH]; intros Hs Hl; simpl.
  - repeat constructor.
  - inversion Hs; subst. simpl in Hl. constructor.
    + apply IH; [assumption |].
      destruct (rev l) as [| b t]; [exact I | exact Hl].
    + destruct l as [| y l']; simpl.
      * constructor. exact Hl.
      * constructor. inversion H2; subst. assumption.
Qed.

Variable R : A -> A -> Prop.

(** A sorted list read backwards is sorted for the converse order. *)
Lemma Sorted_rev (l : list A) :
  Sorted R l -> Sorted (fun a b => R b a) (rev l).
Proof.
  induction l as [| x l IH]; intros Hs; simpl; [constructor |].
  inversion Hs; subst. apply Sorted_snoc; [now apply IH |].
  rewrite rev_involutive. destruct l as [| y l']; [exact I |].
  inversion H2; subst. assumption.
Qed.

Lemma Sorted_firstn (n : nat) (l : list A) :
  Sorted R l -> Sorted R (firstn n l).
Proof.
  revert l. induction n as [| n IH]; intros l Hs; simpl; [constructor |].
  destruct l as [| x l]; [constructor |].
  inversion Hs; subst. constructor; [now apply IH |].
  destruct l as [| y l']; [destruct n; constructor |].
  inversion H2; subst. destruct n; constructor. assumption.
Qed.

End Reversal.

Section Slices.
Context {A : Type}.

(** A slice from the start is an initial segment. *)
Lemma slice_to_initial (stop : Z) (l : list A) :
  initial_segment (slice_to stop l) l.
Proof.
  unfold slice_to, initial_segment.
  eexists. symmetry. apply firstn_skipn.
Qed.

Lemma slice_to_length (stop : Z) (l : list A) :
  0 <= stop ->
  Z.of_nat (List.length (slice_to stop l)) = Z.min stop (Z.of_nat (List.length l)).
Proof.
  intros H. unfold slice_to.
  destruct (stop <? 0) eqn:E; [apply Z.ltb_lt in E; lia |].
  rewrite length_firstn. lia.
Qed.

(** With a negative [stop] the slice drops the last [- stop] elements. *)
Lemma slice_to_length_negative (stop : Z) (l : list A) :
  stop < 0 ->
  Z.of_nat (List.length (slice_to stop l))
  = Z.max 0 (Z.of_nat (List.length l) + stop).
Proof.
  intros H. unfold slice_to.
  destruct (stop <? 0) eqn:E; [| apply Z.ltb_ge in E; lia].
  rewrite length_firstn. lia.
Qed.

Lemma initial_segment_filter (p : A -> bool) (l1 l2 : list A) :
  initial_segment l1 l2 -> initial_segment (filter p l1) (filter p l2).
Proof.
  intros [rest ->]. exists (filter p rest). apply filter_app.
Qed.

End Slices.

Section PySorted.
Context {A : Type}.
Variable key : A -> float.

Lemma py_sorted_perm (reverse : bool) (l : list A) :
  Permutation (py_sorted key reverse l) l.
Proof.
  unfold py_sorted. destruct reverse; [| apply list_sort_perm].
  eapply perm_trans; [apply Permutation_sym, Permutation_rev |].
  eapply perm_trans; [apply list_sort_perm |].
  apply Permutation_sym, Permutation_rev.
Qed.

Lemma py_sorted_length (reverse : bool) (l : list A) :
  List.length (py_sorted key reverse l) = List.length l.
Proof. apply Permutation_length, py_sorted_perm. Qed.

Lemma converse_leb_transitive :
  Relations_1.Transitive (fun a b : A => PrimFloat.leb (key b) (key a) = true).
Proof. intros a b c Hab Hbc. exact (leb_trans Hbc Hab). Qed.

(** Without nan among the keys, [list.sort] on the keys sorts and is
    stable. *)
Lemma list_sort_floats (l : list A) :
  Forall (fun a => is_nan (key a) = false) l ->
  settled (fun a b => PrimFloat.ltb (key a) (key b)) l
          (list_sort (fun a b => PrimFloat.ltb (key a) (key b)) l).
Proof.
  apply (@list_sort_settled A (fun a b => PrimFloat.ltb (key a) (key b))
                            (fun a => is_nan (key a) = false)).
  - intros a b. apply ltb_asym.
  - intros a b c. apply ltb_negtrans.
Qed.

Lemma sorted_keys (l r : list A) :
  Forall (fun a => is_nan (key a) = false) r ->
  StronglySorted (at_most (fun a b => PrimFloat.ltb (key a) (key b))) r ->
  Sorted (fun a b => PrimFloat.leb (key a) (key b) = true) r.
Proof.
  intros Hok Hs. apply StronglySorted_Sorted.
  induction Hs as [| x r Hs IH Hall]; [constructor |].
  inversion Hok as [| ? ? Hx Hok']; subst.
  constructor; [now apply IH |].
  rewrite Forall_forall in *. intros y Hy.
  apply ltb_false_leb; [now apply Hok' | exact Hx | now apply Hall].
Qed.

(** Without nan among the keys, [reverse=True] leaves no element followed
    by a larger one. *)
Lemma py_sorted_reverse_sorted (l : list A) :
  Forall (fun a => is_nan (key a) = false) l ->
  Sorted (fun a b => PrimFloat.leb (key b) (key a) = true) (py_sorted key true l).
Proof.
  intros H. unfold py_sorted.
  apply (@Sorted_rev A (fun a b => PrimFloat.leb (key a) (key b) = true)).
  assert (Hrev : Forall (fun a => is_nan (key a) = false) (rev l))
    by now apply Forall_rev.
  apply (sorted_keys l).
  - eapply Permutation_Forall; [apply Permutation_sym, list_sort_perm | exact Hrev].
  - apply (list_sort_floats Hrev).
Qed.

(** Without nan among the keys, elements of equal key keep their order. *)
Lemma py_sorted_stable (reverse : bool) (c : float) (l : list A) :
  Forall (fun a => is_nan (key a) = false) l ->
  filter (fun a => PrimFloat.eqb (key a) c) (py_sorted key reverse l)
  = filter (fun a => PrimFloat.eqb (key a) c) l.
Proof.
  intros H.
  assert (Hp : unordered (fun a b => PrimFloat.ltb (key a) (key b))
                         (fun a => PrimFloat.eqb (key a) c)).
  { intros a b. apply eqb_eqb_ltb. }
  unfold py_sorted. destruct reverse.
  - assert (Hrev : Forall (fun a => is_nan (key a) = false) (rev l))
      by now apply Forall_rev.
    destruct (list_sort_floats Hrev) as [_ Hf].
    rewrite filter_rev, (Hf _ Hp), filter_rev. apply rev_involutive.
  - destruct (list_sort_floats H) as [_ Hf]. apply (Hf _ Hp).
Qed.

End PySorted.

(* ================================================================= *)
(** ** The ranking of [/costs/services] *)

Section Ranking.
Context {RT : Runtime}.

Lemma keys_add_service (services : dict float) (g : CE.Group.t) services' :
  add_service services g = inr services' ->
  keys services' = note_label (keys services) (first_key g).
Proof.
  unfold add_service. intros H.
  bound H as blended _.
  bound H as cost _.
  inversion H; subst; clear H.
  destruct (dict_get (first_key g) services); apply keys_dict_set.
Qed.

Lemma keys_add_result_services (gs : list CE.Group.t) (services : dict float)
      services' :
  for_each add_service gs services = inr services' ->
  keys services' = first_seen_onto (keys services) (map (fun g => first_key g) gs).
Proof.
  unfold first_seen_onto. revert services.
  induction gs as [| g gs IH]; intros services H; simpl in *.
  - inversion H. reflexivity.
  - bound H as s1 H1.
    rewrite (IH _ H), (keys_add_service _ _ H1). reflexivity.
Qed.

Lemma keys_for_each_result (rs : list CE.ResultByTime.t) (services : dict float)
      services' :
  for_each add_result_services rs services = inr services' ->
  keys services'
  = first_seen_onto (keys services)
      (flat_map (fun r => map (fun g => first_key g) (CE.ResultByTime.Groups r)) rs).
Proof.
  revert services. induction rs as [| r rs IH]; intros services H; simpl in *.
  - inversion H. reflexivity.
  - bound H as s1 H1.
    rewrite first_seen_onto_app, (IH _ H).
    unfold add_result_services in H1.
    rewrite (keys_add_result_services _ _ H1). reflexivity.
Qed.

(** The keys of [services] are the service labels in first-seen order. *)
Lemma keys_service_totals (response : CE.CostAndUsage.t) (services : dict float) :
  service_totals response = inr services ->
  keys services = first_seen (service_labels response).
Proof. apply keys_for_each_result. Qed.

Lemma dict_get_dict_set {V : Type} (k k' : string) (v : V) (d : dict V) :
  dict_get k (dict_set k' v d) = if String.eqb k k' then Some v else dict_get k d.
Proof.
  induction d as [| [k0 v0] d IH]; simpl.
  - reflexivity.
  - destruct (String.eqb k' k0) eqn:E'; simpl.
    + apply String.eqb_eq in E'. subst k0.
      destruct (String.eqb k k'); reflexivity.
    + destruct (String.eqb k k0) eqn:E0.
      * apply String.eqb_eq in E0. subst k0.
        rewrite String.eqb_sym in E'. now rewrite E'.
      * exact IH.
Qed.

Lemma for_each_app {S B : Type} (f : S -> B -> result S) (l1 l2 : list B) (s : S) :
  for_each f (l1 ++ l2) s = rbind (for_each f l1 s) (for_each f l2).
Proof.
  revert s. induction l1 as [| b l1 IH]; intros s; simpl; [reflexivity |].
  destruct (f s b) as [e | s1]; simpl; [reflexivity | apply IH].
Qed.

(** The two nested loops visit the groups of the response one after the
    other. *)
Lemma service_totals_all_groups (response : CE.CostAndUsage.t) :
  service_totals response = for_each add_service (all_groups response) [].
Proof.
  unfold service_totals, all_groups. generalize (@nil (string * float)).
  induction (CE.CostAndUsage.ResultsByTime response) as [| r rs IH];
    intros services; simpl; [reflexivity |].
  rewrite for_each_app. unfold add_result_services at 1.
  destruct (for_each add_service (CE.ResultByTime.Groups r) services);
    simpl; [reflexivity | apply IH].
Qed.

Lemma accumulate_step (total : option float) (c : float) (costs : list float) :
  accumulate total (c :: costs)
  = accumulate (Some match total with
                     | Some t => PyFloat.add t c
                     | None => c
                     end) costs.
Proof. destruct total; reflexivity. Qed.

Lemma add_service_billed (services : dict float) (g : CE.Group.t) services' :
  add_service services g = inr services' ->
  exists e, billed g e /\
            forall s, dict_get s services'
                      = accumulate (dict_get s services) (costs_of s [e]).
Proof.
  unfold add_service. intros H.
  bound H as blended Hb.
  bound H as cost Hc.
  unfold dict_item in Hb.
  destruct (dict_get "BlendedCost" (CE.Group.Metrics g)) as [mv |] eqn:Em;
    inversion Hb; subst mv; clear Hb.
  exists (first_key g, cost). split.
  - split; [reflexivity |]. exists blended. split; assumption.
  - intros s. unfold costs_of. cbn [filter fst snd map].
    destruct (String.eqb s (first_key g)) eqn:E.
    + apply String.eqb_eq in E. subst s. cbn [map].
      destruct (dict_get (first_key g) services) as [total |];
        inversion H; subst; clear H;
        rewrite dict_get_dict_set, String.eqb_refl; reflexivity.
    + cbn [map].
      assert (Hs : dict_get s services' = dict_get s services).
      { destruct (dict_get (first_key g) services) as [total |];
          inversion H; subst; clear H;
          rewrite dict_get_dict_set, E; reflexivity. }
      rewrite Hs. destruct (dict_get s services); reflexivity.
Qed.

Lemma for_each_add_service_billed (gs : list CE.Group.t) (services : dict float)
      services' :
  for_each add_service gs services = inr services' ->
  exists entries,
    Forall2 billed gs entries /\
    forall s, dict_get s services'
              = accumulate (dict_get s services) (costs_of s entries).
Proof.
  revert services. induction gs as [| g gs IH]; intros services H; simpl in H.
  - inversion H; subst. exists []. split; [constructor |].
    intros s. unfold costs_of. simpl. destruct (dict_get s services'); reflexivity.
  - bound H as s1 H1.
    apply add_service_billed in H1. destruct H1 as (e & He & Hs1).
    apply IH in H. destruct H as (entries & Hes & Hs').
    exists (e :: entries). split; [now constructor |].
    intros s. rewrite Hs', Hs1. unfold costs_of. cbn [filter map].
    destruct (String.eqb s (fst e)); cbn [map].
    + rewrite accumulate_step. destruct (dict_get s services); reflexivity.
    + destruct (dict_get s services); reflexivity.
Qed.

(** The total of a service is the sum of the costs billed to it, added in
    the order of the provider's groups onto the first of them. *)
Lemma service_totals_are_sums (response : CE.CostAndUsage.t) (services : dict float) :
  service_totals response = inr services ->
  exists entries,
    Forall2 billed (all_groups response) entries /\
    forall s, dict_get s services = accumulate None (costs_of s entries).
Proof.
  rewrite service_totals_all_groups. intros H.
  apply for_each_add_service_billed in H. exact H.
Qed.

(** What a returning [get_top_services] went through. *)
Lemma get_top_services_returns (w : World) days limit log r log' :
  get_top_services w days limit log = (inr r, log') ->
  exists start_date response services,
    boto3_client w = None /\
    minus_days (datetime_now w) days = inr start_date /\
    client_get_cost_and_usage w (services_query start_date (datetime_now w))
      = inr response /\
    service_totals response = inr services /\
    r = {| TopServices.top_services :=
             map service_entry (ranked_services services limit);
           TopServices.total_services := Z.of_nat (List.length services);
           TopServices.period_days := days |} /\
    log' = log ++ [Call_get_cost_and_usage
                     (services_query start_date (datetime_now w))].
Proof.
  intros H. apply except_clauses_returns in H. unfold get_top_services_body in H.
  ran H as u log1 Hc.
  apply client_returns in Hc. destruct Hc as [Hc ->].
  ran H as start_date log2 Hs.
  apply lift_returns in Hs. destruct Hs as [Hs ->].
  ran H as response log3 Hr.
  unfold get_cost_and_usage in Hr. inversion Hr as [[Hr1 Hr2]]. clear Hr.
  subst log3.
  ran H as services log4 Ht.
  apply lift_returns in Ht. destruct Ht as [Ht ->].
  apply ret_returns in H. destruct H as [-> ->].
  exists start_date, response, services.
  repeat split; assumption || reflexivity.
Qed.

(** C4, as the code has it.  Whenever [/costs/services] answers, with
    [services] the totals per service that the loop computed from the
    provider's [response]: the services are keyed in first-seen order;
    [top_services] lists [ranked_services services limit], each cost rounded
    to two decimals; if no total is nan, no entry of the ranking is followed
    by one of larger total, and the entries of any one total stand in the
    ranking in first-seen order; if [0 <= limit], the list is no longer
    than [min(limit, number of distinct services)]. *)
Theorem top_services_ranking
        (w : World) days limit log r log' start_date response services :
  get_top_services w days limit log = (inr r, log') ->
  minus_days (datetime_now w) days = inr start_date ->
  client_get_cost_and_usage w (services_query start_date (datetime_now w))
    = inr response ->
  service_totals response = inr services ->
  let ranked := ranked_services services limit in
  keys services = first_seen (service_labels response) /\
  TopServices.top_services r = map service_entry ranked /\
  (Forall (fun e => is_nan (snd e) = false) services -> non_increasing ranked) /\
  (0 <= limit ->
   Z.of_nat (List.length (TopServices.top_services r))
   <= Z.min limit
        (Z.of_nat (List.length (nodup string_dec (service_labels response))))) /\
  (Forall (fun e => is_nan (snd e) = false) services ->
   forall c, initial_segment (with_cost c ranked) (with_cost c services)).
Proof.
  intros H Hs Hr Ht ranked. apply get_top_services_returns in H.
  destruct H as (sd & response' & services' & _ & Hs' & Hr' & Ht' & -> & _).
  rewrite Hs in Hs'. inversion Hs'; subst sd; clear Hs'.
  rewrite Hr in Hr'. inversion Hr'; subst response'; clear Hr'.
  rewrite Ht in Ht'. inversion Ht'; subst services'; clear Ht'.
  pose proof (keys_service_totals _ Ht) as Hk.
  split; [exact Hk |]. split; [reflexivity |]. split; [| split].
    - intros Hnan. unfold non_increasing, ranked, ranked_services, slice_to.
    apply Sorted_StronglySorted;
      [apply (converse_leb_transitive (fun e : string * float => snd e)) |].
    apply Sorted_firstn.
    apply (py_sorted_reverse_sorted (fun e : string * float => snd e)). exact Hnan.
  - intros Hl. cbn [TopServices.top_services].
    rewrite length_map. unfold ranked_services.
    rewrite slice_to_length by exact Hl.
    rewrite py_sorted_length, <- first_seen_length, <- Hk.
    unfold keys. rewrite length_map. lia.
  - intros Hnan c. unfold with_cost, ranked, ranked_services.
    rewrite <- (py_sorted_stable (fun e : string * float => snd e) true c Hnan).
    apply initial_segment_filter, slice_to_initial.
Qed.

End Ranking.

(** [Example.world] reports four services, three of which total 7.5: with
    [limit = 3] they are listed in the order in which the provider first
    returned them, ahead of none of the 5.25. *)
Lemma top_services_ranking_witness :
  let services :=
    [ ("Amazon EC2", 7.5%float); ("Amazon S3", 7.5%float);
      ("AWS Lambda", 5.25%float); ("Amazon RDS", 7.5%float) ] in
  let ranked :=
    [ ("Amazon EC2", 7.5%float); ("Amazon S3", 7.5%float);
      ("Amazon RDS", 7.5%float) ] in
  service_totals (RT := Reference.runtime) Example.by_service = inr services /\
  ranked_services services 3 = ranked /\
  non_increasing ranked /\
  initial_segment (with_cost 7.5%float ranked) (with_cost 7.5%float services).
Proof.
  intros services ranked.
  assert (Hrun : exists r log',
             get_top_services Example.world 30 3 [] = (inr r, log')).
  { eexists. eexists. vm_compute. reflexivity. }
  destruct Hrun as (r & log' & Hrun).
  assert (Ht : service_totals (RT := Reference.runtime) Example.by_service
               = inr services) by (vm_compute; reflexivity).
  destruct (@top_services_ranking Reference.runtime Example.world 30 3 [] r log'
              (Reference.Build_datetime (Reference.ymd2ord 2024 1 1) 43200 None)
              Example.by_service services Hrun eq_refl eq_refl Ht)
    as (_ & _ & Hsorted & _ & Hstable).
  split; [exact Ht |]. split; [vm_compute; reflexivity |].
  split.
  - apply Hsorted. repeat constructor.
  - apply (Hstable ltac:(repeat constructor) 7.5%float).
Defined.

(** With a nan among the totals the ranking need be neither ordered nor
    stable: [<] never orders a nan, and [list.sort] trusts it.  Here the
    2 stands behind four times 1, and the first 1 behind the second. *)
Lemma ranking_with_nan :
  let services :=
    [ ("s0", 1%float); ("s1", 1%float); ("s2", nan); ("s3", 1%float);
      ("s4", 1%float); ("s5", 1%float); ("s6", 2%float) ] in
  map fst (ranked_services services 10)
  = ["s1"; "s2"; "s6"; "s0"; "s3"; "s4"; "s5"] /\
  ~ non_increasing (ranked_services services 10) /\
  ~ initial_segment (with_cost 1%float (ranked_services services 10))
                    (with_cost 1%float services).
Proof.
  split; [vm_compute; reflexivity |]. split.
  - intros H. vm_compute in H.
    inversion H as [| a l _ Hall]; subst.
    inversion Hall as [| b l' _ Hall']; subst.
    inversion Hall' as [| b' l'' Hb _]; subst.
    vm_compute in Hb. discriminate.
  - intros [rest H]. vm_compute in H. discriminate.
Qed.

(** The bound on the length fails for a negative [limit]: [limit = -1]
    drops the last of the four services and leaves three, which is more
    than [min(-1, 4)]. *)
Lemma top_services_length_counterexample :
  exists r log',
    get_top_services Example.world 30 (-1) [] = (inr r, log') /\
    List.length (TopServices.top_services r) = 3%nat /\
    List.length (nodup string_dec (service_labels Example.by_service)) = 4%nat /\
    ~ (Z.of_nat (List.length (TopServices.top_services r))
       <= Z.min (-1)
            (Z.of_nat
               (List.length (nodup string_dec (service_labels Example.by_service))))).
Proof.
  eexists. eexists. split; [vm_compute; reflexivity |].
  split; [reflexivity |]. split; [reflexivity |].
  vm_compute. intros H. apply H. reflexivity.
Qed.

(* ================================================================= *)
(** ** Errors of [/costs/analyze] and of the client *)

Section Errors.
Context {RT : Runtime}.

Lemma client_without_credentials (w : World) message log :
  boto3_client w = Some (NoCredentialsError message) ->
  get_cost_explorer_client w log = (inl credentials_error, log).
Proof. unfold get_cost_explorer_client. intros ->. reflexivity. Qed.

(** C5.  When [boto3.client] raises [NoCredentialsError], each of the three
    cost handlers answers 500 with the generic detail
    ["Internal error: " ++ str(e)], [e] being the credentials exception of
    [get_cost_explorer_client]: the [except Exception] clause of the handler
    catches that [HTTPException] and wraps it.  The detail returned is not
    the credentials message; no provider call is made. *)
Theorem missing_credentials_are_wrapped (w : World) message request days limit log :
  boto3_client w = Some (NoCredentialsError message) ->
  analyze_costs w request log = (inl (internal_error credentials_error), log) /\
  get_top_services w days limit log = (inl (internal_error credentials_error), log) /\
  get_cost_forecast w days log = (inl (internal_error credentials_error), log) /\
  internal_error credentials_error <> credentials_error.
Proof.
  intros H. repeat split.
  - unfold analyze_costs, except_clauses, analyze_costs_body, bind.
    rewrite (client_without_credentials w log H). reflexivity.
  - unfold get_top_services, except_clauses, get_top_services_body, bind.
    rewrite (client_without_credentials w log H). reflexivity.
  - unfold get_cost_forecast, except_clauses, get_cost_forecast_body, bind.
    rewrite (client_without_credentials w log H). reflexivity.
  - unfold internal_error, credentials_error, credentials_detail. simpl.
    discriminate.
Qed.

(** Credentials that are found missing only when the request is signed
    reach the same clause: botocore's own message is wrapped. *)
Lemma missing_credentials_at_call (w : World) days end_date message log :
  boto3_client w = None ->
  plus_days (datetime_now w) days = inr end_date ->
  client_get_cost_forecast w (forecast_query (datetime_now w) end_date)
    = inl (NoCredentialsError message) ->
  get_cost_forecast w days log
  = (inl (HTTPException 500 (String.append "Internal error: " message)),
     log ++ [Call_get_cost_forecast (forecast_query (datetime_now w) end_date)]).
Proof.
  intros Hc Hd Hr.
  unfold get_cost_forecast, except_clauses, get_cost_forecast_body, bind,
    get_cost_explorer_client, get_cost_forecast_call, lift, ret.
  rewrite Hc, Hd, Hr. reflexivity.
Qed.

(** C2.  When the client is built and both dates parse with
    [start_date >= end_date], [/costs/analyze] answers 500, not 400: the
    [HTTPException(400)] raised in the [try] block is caught by
    [except Exception] and wrapped.  No provider call is made. *)
Theorem inverted_range_is_wrapped (w : World) request start_date end_date log :
  boto3_client w = None ->
  fromisoformat (Str.replace "Z" "+00:00" (CostRequest.start_date request))
    = inr start_date ->
  fromisoformat (Str.replace "Z" "+00:00" (CostRequest.end_date request))
    = inr end_date ->
    datetime_ge start_date end_date = inr true ->
  analyze_costs w request log = (inl (internal_error inverted_range_error), log) /\
  is_client_error (internal_error inverted_range_error) = false.
Proof.
  intros Hc Hs He Hge. split; [| reflexivity].
  unfold analyze_costs, except_clauses, analyze_costs_body, bind,
    get_cost_explorer_client, lift, ret.
  rewrite Hc, Hs, He, Hge. reflexivity.
Qed.

(** A date that does not parse ends the [try] block before the call. *)
Lemma unparsable_date_raises (w : World) request log :
  (exists e, fromisoformat (Str.replace "Z" "+00:00" (CostRequest.start_date request))
             = inl e) \/
  (exists e, fromisoformat (Str.replace "Z" "+00:00" (CostRequest.end_date request))
             = inl e) ->
  exists e, analyze_costs_body w request log = (inl e, log).
Proof.
  intros H.
  unfold analyze_costs_body, bind, get_cost_explorer_client, lift, ret, raise.
  destruct (boto3_client w) as [e |].
  - destruct e; eexists; reflexivity.
  - destruct (fromisoformat
                (Str.replace "Z" "+00:00" (CostRequest.start_date request)))
      as [e | sd] eqn:Es.
    + eexists; reflexivity.
    + destruct H as [[e H] | [e H]]; [discriminate |].
      rewrite H. eexists; reflexivity.
Qed.

(** C8, as the code has it.  When [start_date] or [end_date] does not parse,
    [/costs/analyze] answers with status 500 and makes no provider call. *)
Theorem unparsable_date_is_internal_error (w : World) request log :
  (exists e, fromisoformat (Str.replace "Z" "+00:00" (CostRequest.start_date request))
             = inl e) \/
  (exists e, fromisoformat (Str.replace "Z" "+00:00" (CostRequest.end_date request))
             = inl e) ->
  exists detail,
    analyze_costs w request log = (inl (HTTPException 500 detail), log).
Proof.
  intros H. destruct (unparsable_date_raises w request log H) as [e He].
  exact (except_clauses_raises _ _ He).
Qed.

(** With the client built, the detail is the generic prefix and the message
    of the parser. *)
Lemma unparsable_start_date_detail (w : World) request e log :
  boto3_client w = None ->
  fromisoformat (Str.replace "Z" "+00:00" (CostRequest.start_date request))
    = inl (PyException e) ->
  analyze_costs w request log
  = (inl (HTTPException 500 (String.append "Internal error: " e)), log).
Proof.
  intros Hc Hs.
  unfold analyze_costs, except_clauses, analyze_costs_body, bind,
    get_cost_explorer_client, lift, ret.
  rewrite Hc, Hs. reflexivity.
Qed.

Lemma unparsable_end_date_detail (w : World) request start_date e log :
  boto3_client w = None ->
  fromisoformat (Str.replace "Z" "+00:00" (CostRequest.start_date request))
    = inr start_date ->
  fromisoformat (Str.replace "Z" "+00:00" (CostRequest.end_date request))
    = inl (PyException e) ->
  analyze_costs w request log
  = (inl (HTTPException 500 (String.append "Internal error: " e)), log).
Proof.
  intros Hc Hs He.
  unfold analyze_costs, except_clauses, analyze_costs_body, bind,
    get_cost_explorer_client, lift, ret.
  rewrite Hc, Hs, He. reflexivity.
Qed.

End Errors.

Lemma missing_credentials_are_wrapped_witness :
  get_cost_forecast Example.no_credentials 30 []
  = (inl (HTTPException 500
            "Internal error: 500: AWS credentials not configured. Please set AWS_ACCESS_KEY_ID and AWS_SECRET_ACCESS_KEY environment variables."),
     []).
Proof.
  destruct (@missing_credentials_are_wrapped Reference.runtime
              Example.no_credentials "Unable to locate credentials"
              (Example.request "2024-01-01" "2024-01-03" None) 30 10 []
              eq_refl) as (_ & _ & H & _).
  exact H.
Defined.

Lemma inverted_range_is_wrapped_witness :
  analyze_costs Example.world (Example.request "2024-01-03" "2024-01-01" None) []
  = (inl (HTTPException 500
            "Internal error: 400: Start date must be before end date"),
     []).
Proof.
  exact (proj1
           (@inverted_range_is_wrapped Reference.runtime Example.world
              (Example.request "2024-01-03" "2024-01-01" None)
              (Reference.Build_datetime (Reference.ymd2ord 2024 1 3) 0 None)
              (Reference.Build_datetime (Reference.ymd2ord 2024 1 1) 0 None)
              [] eq_refl eq_refl eq_refl eq_refl)).
Defined.

Lemma unparsable_date_is_internal_error_witness :
  exists detail,
    analyze_costs Example.world (Example.request "2024-01-03" "yesterday" None) []
    = (inl (HTTPException 500 detail), []).
Proof.
  apply (@unparsable_date_is_internal_error Reference.runtime Example.world
           (Example.request "2024-01-03" "yesterday" None) []).
  right. eexists. vm_compute. reflexivity.
Defined.

(** An end date that does not parse is answered with status 500, which is
    not a client error, although no call was made. *)
Lemma unparsable_date_counterexample :
  exists e,
    analyze_costs Example.world (Example.request "2024-01-03" "yesterday" None) []
    = (inl e, []) /\
    e = HTTPException 500 "Internal error: Invalid isoformat string: 'yesterday'" /\
    is_client_error e = false.
Proof.
  eexists. split; [vm_compute; reflexivity |]. split; reflexivity.
Qed.

(* ================================================================= *)
(** ** The forecast *)

Section ForecastFacts.
Context {RT : Runtime}.

Lemma add_forecast_entry (acc : list ForecastPoint.t) (r : CE.ForecastResult.t) acc' :
  add_forecast acc r = inr acc' -> exists p, acc' = acc ++ [p] /\ entry_of r p.
Proof.
  unfold add_forecast. intros H.
  bound H as mean Hm.
  bound H as lower _.
  bound H as upper _.
  inversion H; subst; clear H.
  eexists. split; [reflexivity |]. split; [reflexivity | exact Hm].
Qed.

Lemma for_each_add_forecast (rs : list CE.ForecastResult.t) acc acc' :
  for_each add_forecast rs acc = inr acc' ->
  exists ps, acc' = acc ++ ps /\ Forall2 entry_of rs ps.
Proof.
  revert acc. induction rs as [| r rs IH]; intros acc H; simpl in H.
  - inversion H. exists []. split; [now rewrite app_nil_r | constructor].
  - bound H as acc1 H1.
    apply add_forecast_entry in H1. destruct H1 as (p & -> & Hp).
    apply IH in H. destruct H as (ps & -> & Hps).
    exists (p :: ps). split; [now rewrite <- app_assoc | now constructor].
Qed.

(** What a returning [get_cost_forecast] went through. *)
Lemma get_cost_forecast_returns (w : World) days log r log' :
  get_cost_forecast w days log = (inr r, log') ->
  exists end_date response forecast_data,
    boto3_client w = None /\
    plus_days (datetime_now w) days = inr end_date /\
    client_get_cost_forecast w (forecast_query (datetime_now w) end_date)
      = inr response /\
    for_each add_forecast (CE.CostForecast.ForecastResultsByTime response) []
      = inr forecast_data /\
    r = {| Forecast.forecast_data := forecast_data;
           Forecast.total_forecast :=
             builtin_sum (map ForecastPoint.mean_value forecast_data);
           Forecast.currency := "USD";
           Forecast.forecast_days := days |} /\
    log' = log ++ [Call_get_cost_forecast
                     (forecast_query (datetime_now w) end_date)].
Proof.
  intros H. apply except_clauses_returns in H. unfold get_cost_forecast_body in H.
  ran H as u log1 Hc.
  apply client_returns in Hc. destruct Hc as [Hc ->].
  ran H as end_date log2 He.
  apply lift_returns in He. destruct He as [He ->].
  ran H as response log3 Hr.
  unfold get_cost_forecast_call in Hr. inversion Hr as [[Hr1 Hr2]]. clear Hr.
  subst log3.
  ran H as forecast_data log4 Hl.
  apply lift_returns in Hl. destruct Hl as [Hl ->].
  apply ret_returns in H. destruct H as [-> ->].
  exists end_date, response, forecast_data.
  repeat split; assumption || reflexivity.
Qed.

(** C6.  Whenever [/costs/forecast] answers, [total_forecast] is [sum] of
    the [mean_value] of the entries of [forecast_data], and these entries
    are, in order, one per period of the provider's answer, each with the
    period's [MeanValue] read as a float. *)
Theorem forecast_total_is_sum_of_means
        (w : World) days log r log' end_date response :
  get_cost_forecast w days log = (inr r, log') ->
  plus_days (datetime_now w) days = inr end_date ->
  client_get_cost_forecast w (forecast_query (datetime_now w) end_date)
    = inr response ->
  Forecast.total_forecast r
  = builtin_sum (map ForecastPoint.mean_value (Forecast.forecast_data r)) /\
  Forall2 entry_of (CE.CostForecast.ForecastResultsByTime response)
          (Forecast.forecast_data r).
Proof.
  intros H He Hr. apply get_cost_forecast_returns in H.
  destruct H as (ed & response' & fd & _ & He' & Hr' & Hl & -> & _).
  rewrite He in He'. inversion He'; subst ed; clear He'.
  rewrite Hr in Hr'. inversion Hr'; subst response'; clear Hr'.
  split; [reflexivity |].
  apply for_each_add_forecast in Hl. destruct Hl as (ps & -> & Hps).
  exact Hps.
Qed.

(** C10.  Whenever [/costs/forecast] answers, [currency] is the literal
    ["USD"]; the unit of the provider's [Total] is not read. *)
Theorem forecast_currency_is_USD (w : World) days log r log' :
  get_cost_forecast w days log = (inr r, log') ->
  Forecast.currency r = "USD".
Proof.
  intros H. apply get_cost_forecast_returns in H.
  destruct H as (ed & response & fd & _ & _ & _ & _ & -> & _). reflexivity.
Qed.

End ForecastFacts.

(** The forecast of [Example.world] has means 1.5 and 2.25: the total is
    3.75 under the left-to-right [sum] of the reference runtime. *)
Lemma forecast_total_is_sum_of_means_witness :
  exists r log',
    get_cost_forecast Example.world 30 [] = (inr r, log') /\
    map ForecastPoint.mean_value (Forecast.forecast_data r)
    = [1.5%float; 2.25%float] /\
    Forecast.total_forecast r = 3.75%float /\
    Forecast.total_forecast r
    = PyFloat.sum_from_zero
        (map ForecastPoint.mean_value (Forecast.forecast_data r)).
Proof.
  eexists. eexists. split; [vm_compute; reflexivity |].
  split; [reflexivity |]. split; [reflexivity |].
  eapply (@forecast_total_is_sum_of_means Reference.runtime Example.world 30 []).
  - vm_compute. reflexivity.
  - vm_compute. reflexivity.
  - reflexivity.
Defined.

(** The provider of [Example.world] prices its forecast in euros; the
    response says ["USD"]. *)
Lemma forecast_currency_is_USD_witness :
  exists r log',
    get_cost_forecast Example.world 30 [] = (inr r, log') /\
    CE.MetricValue.Unit (CE.CostForecast.Total Example.forecast) = "EUR" /\
    Forecast.currency r = "USD".
Proof.
  eexists. eexists. split; [vm_compute; reflexivity |].
  split; [reflexivity |].
  eapply (@forecast_currency_is_USD Reference.runtime Example.world 30 []).
  vm_compute. reflexivity.
Defined.

(* ================================================================= *)
(** ** The worked example of the specification *)

Section WorkedExample.
Context {RT : Runtime}.

(** C9.  For the query {2024-01-01, 2024-01-03, DAILY, no group_by}, with
    the client built, the two dates read as [d1 < d2], and a provider that
    returns two buckets without groups whose [BlendedCost] amounts read as
    10.0 and 20.0: the handler calls the provider once and answers with
    [total_cost = 30.0] and exactly one series, whose data are
    [[10.0, 20.0]]. *)
Theorem two_day_example (w : World) d1 d2 b1 b2 m1 m2 log :
  boto3_client w = None ->
  fromisoformat "2024-01-01" = inr d1 ->
  fromisoformat "2024-01-03" = inr d2 ->
  datetime_ge d1 d2 = inr false ->
  client_get_cost_and_usage w (cost_query example_request d1 d2)
    = inr {| CE.CostAndUsage.ResultsByTime := [b1; b2] |} ->
  CE.ResultByTime.Groups b1 = [] ->
  CE.ResultByTime.Groups b2 = [] ->
  dict_get "BlendedCost" (CE.ResultByTime.Total b1) = Some m1 ->
  dict_get "BlendedCost" (CE.ResultByTime.Total b2) = Some m2 ->
  float_of_str (CE.MetricValue.Amount m1) = inr 10%float ->
  float_of_str (CE.MetricValue.Amount m2) = inr 20%float ->
  exists r series,
    analyze_costs w example_request log
    = (inr r, log ++ [Call_get_cost_and_usage (cost_query example_request d1 d2)]) /\
    CostResponse.total_cost r = 30%float /\
    ChartData.datasets (CostResponse.chart_data r) = [series] /\
    Dataset.data series = [10%float; 20%float].
Proof.
  intros Hc H1 H2 Hge Hr Hg1 Hg2 Ht1 Ht2 Ha1 Ha2.
  assert (Hloop : for_each add_result [b1; b2] analysis_start
                  = inr (Build_analysis
                           (PyFloat.add (PyFloat.add PrimFloat.zero 10) 20)
                           (CE.MetricValue.Unit m2)
                           (acc_data analysis_start ++
                              [ CostRecord.Build_t
                                  (CE.DateInterval.Start (CE.ResultByTime.TimePeriod b1))
                                  (CE.DateInterval.End' (CE.ResultByTime.TimePeriod b1))
                                  None 10 (CE.MetricValue.Unit m1) ] ++
                              [ CostRecord.Build_t
                                  (CE.DateInterval.Start (CE.ResultByTime.TimePeriod b2))
                                  (CE.DateInterval.End' (CE.ResultByTime.TimePeriod b2))
                                  None 20 (CE.MetricValue.Unit m2) ])
                           ((acc_labels analysis_start ++
                               [CE.DateInterval.Start (CE.ResultByTime.TimePeriod b1)]) ++
                              [CE.DateInterval.Start (CE.ResultByTime.TimePeriod b2)]))).
  { unfold for_each, add_result, dict_item.
    rewrite Hg1, Hg2, Ht1, Ht2. simpl. rewrite Ha1. simpl. rewrite Ha2. reflexivity. }
  eexists. eexists. split.
  - unfold analyze_costs, except_clauses, analyze_costs_body, bind,
      get_cost_explorer_client, get_cost_and_usage, lift, ret.
    rewrite Hc.
    change (Str.replace "Z" "+00:00" (CostRequest.start_date example_request))
      with "2024-01-01".
    change (Str.replace "Z" "+00:00" (CostRequest.end_date example_request))
      with "2024-01-03".
    rewrite H1, H2, Hge, Hr.
    cbn [CE.CostAndUsage.ResultsByTime]. rewrite Hloop. reflexivity.
  - split; [vm_compute; reflexivity |]. split; reflexivity.
Qed.

End WorkedExample.

Lemma two_day_example_witness :
  exists r series,
    analyze_costs Example.world example_request []
    = (inr r,
       [Call_get_cost_and_usage
          {| CE.CostAndUsageQuery.TimePeriod :=
               {| CE.DateInterval.Start := "2024-01-01";
                  CE.DateInterval.End' := "2024-01-03" |};
             CE.CostAndUsageQuery.Granularity := "DAILY";
             CE.CostAndUsageQuery.Metrics :=
               ["BlendedCost"; "UnblendedCost"; "UsageQuantity"];
             CE.CostAndUsageQuery.GroupBy := None |}]) /\
    CostResponse.total_cost r = 30%float /\
    ChartData.datasets (CostResponse.chart_data r) = [series] /\
    Dataset.data series = [10%float; 20%float].
Proof.
  exact (@two_day_example Reference.runtime Example.world
           (Reference.Build_datetime (Reference.ymd2ord 2024 1 1) 0 None)
           (Reference.Build_datetime (Reference.ymd2ord 2024 1 3) 0 None)
           (Example.bucket "2024-01-01" "2024-01-02" (Example.blended "10.00" "USD") [])
           (Example.bucket "2024-01-02" "2024-01-03" (Example.blended "20.00" "USD") [])
           (CE.MetricValue.Build_t "10.00" "USD")
           (CE.MetricValue.Build_t "20.00" "USD")
           []
           eq_refl eq_refl eq_refl eq_refl eq_refl eq_refl eq_refl eq_refl eq_refl
           eq_refl eq_refl).
Defined.

(* ================================================================= *)
(** ** Failures and provider calls of the three handlers *)

Section Failures.
Context {RT : Runtime}.

Lemma except_clauses_reported {A : Type} (body : M A) log e log' :
  body log = (inl e, log') ->
  except_clauses body log = (inl (reported e), log').
Proof. unfold except_clauses, reported. intros ->. destruct e; reflexivity. Qed.

Lemma except_clauses_fails {A : Type} (body : M A) log e log' :
  except_clauses body log = (inl e, log') ->
  exists e0, body log = (inl e0, log') /\ e = reported e0.
Proof.
  unfold except_clauses, reported.
  destruct (body log) as [[e0 | a] log0]; intros H.
  - exists e0. destruct e0; inversion H; subst; split; reflexivity.
  - discriminate.
Qed.

Lemma reported_is_500 (e : exn) :
  exists message,
    reported e = HTTPException 500 (String.append "AWS API Error: " message) \/
    reported e = HTTPException 500 (String.append "Internal error: " message).
Proof.
  destruct e; simpl; eexists; (left; reflexivity) || (right; reflexivity).
Qed.

(** Whatever goes wrong in a handler, what leaves it is an
    [HTTPException] of status 500 whose detail starts with
    ["AWS API Error: "] or with ["Internal error: "]: no handler ever
    raises a 4xx, and no other exception leaves a handler. *)
Theorem handler_failures_are_500 (w : World) request days limit log log' e :
  analyze_costs w request log = (inl e, log') \/
  get_top_services w days limit log = (inl e, log') \/
  get_cost_forecast w days log = (inl e, log') ->
  is_client_error e = false /\
  exists message,
    e = HTTPException 500 (String.append "AWS API Error: " message) \/
    e = HTTPException 500 (String.append "Internal error: " message).
Proof.
  intros [H | [H | H]]; apply except_clauses_fails in H;
    destruct H as (e0 & _ & ->);
    (split; [destruct e0; reflexivity | apply reported_is_500]).
Qed.

Lemma analyze_costs_body_calls (w : World) request log res log' :
  analyze_costs_body w request log = (res, log') ->
  (log' = log /\ exists e, res = inl e) \/
  (exists sd ed,
      log' = log ++ [Call_get_cost_and_usage (cost_query request sd ed)]).
Proof.
  unfold analyze_costs_body, bind, lift, ret, raise, get_cost_explorer_client,
    get_cost_and_usage.
  destruct (boto3_client w) as [[] |];
    try (intros H; inversion H; left; split; [reflexivity | eauto]).
  destruct (fromisoformat _) as [e | sd];
    [intros H; inversion H; left; split; [reflexivity | eauto] |].
  destruct (fromisoformat _) as [e | ed];
    [intros H; inversion H; left; split; [reflexivity | eauto] |].
  destruct (datetime_ge sd ed) as [e | []];
    try (intros H; inversion H; left; split; [reflexivity | eauto]).
  destruct (client_get_cost_and_usage w _) as [e | response];
    [intros H; inversion H; right; eauto |].
  destruct (for_each add_result _ _); intros H; inversion H; right; eauto.
Qed.

Lemma get_top_services_body_calls (w : World) days limit log res log' :
  get_top_services_body w days limit log = (res, log') ->
  (log' = log /\ exists e, res = inl e) \/
  (exists sd,
      log' = log ++ [Call_get_cost_and_usage (services_query sd (datetime_now w))]).
Proof.
  unfold get_top_services_body, bind, lift, ret, raise, get_cost_explorer_client,
    get_cost_and_usage.
  destruct (boto3_client w) as [[] |];
    try (intros H; inversion H; left; split; [reflexivity | eauto]).
  destruct (minus_days _ _) as [e | sd];
    [intros H; inversion H; left; split; [reflexivity | eauto] |].
  destruct (client_get_cost_and_usage w _) as [e | response];
    [intros H; inversion H; right; eauto |].
  destruct (service_totals _); intros H; inversion H; right; eauto.
Qed.

Lemma get_cost_forecast_body_calls (w : World) days log res log' :
  get_cost_forecast_body w days log = (res, log') ->
  (log' = log /\ exists e, res = inl e) \/
  (exists ed,
      log' = log ++ [Call_get_cost_forecast (forecast_query (datetime_now w) ed)]).
Proof.
  unfold get_cost_forecast_body, bind, lift, ret, raise, get_cost_explorer_client,
    get_cost_forecast_call.
  destruct (boto3_client w) as [[] |];
    try (intros H; inversion H; left; split; [reflexivity | eauto]).
  destruct (plus_days _ _) as [e | ed];
    [intros H; inversion H; left; split; [reflexivity | eauto] |].
  destruct (client_get_cost_forecast w _) as [e | response];
    [intros H; inversion H; right; eauto |].
  destruct (for_each add_forecast _ _); intros H; inversion H; right; eauto.
Qed.

Lemma except_clauses_log {A : Type} (body : M A) log res log' :
  except_clauses body log = (res, log') ->
  exists res0, body log = (res0, log') /\
               ((exists e, res0 = inl e) -> exists e, res = inl e).
Proof.
  unfold except_clauses. destruct (body log) as [[e | a] log0]; intros H.
  - exists (inl e). destruct e; inversion H; subst; split; eauto.
  - exists (inr a). inversion H; subst. split; [reflexivity |].
    intros [e He]. discriminate.
Qed.

(** A handler calls the provider at most once per request, and only through
    the method that is its own; a handler that made no call has failed, so
    every answer rests on exactly one call. *)
Theorem handlers_call_at_most_once (w : World) :
  (forall request log res log',
      analyze_costs w request log = (res, log') ->
      (log' = log /\ exists e, res = inl e) \/
      (exists sd ed,
          log' = log ++ [Call_get_cost_and_usage (cost_query request sd ed)])) /\
  (forall days limit log res log',
      get_top_services w days limit log = (res, log') ->
      (log' = log /\ exists e, res = inl e) \/
      (exists sd,
          log' = log ++ [Call_get_cost_and_usage
                           (services_query sd (datetime_now w))])) /\
  (forall days log res log',
      get_cost_forecast w days log = (res, log') ->
      (log' = log /\ exists e, res = inl e) \/
      (exists ed,
          log' = log ++ [Call_get_cost_forecast
                           (forecast_query (datetime_now w) ed)])).
Proof.
  repeat split; intros.
  - apply except_clauses_log in H. destruct H as (res0 & H & Hres).
    apply analyze_costs_body_calls in H.
    destruct H as [[Hl He] | H]; [left; split; auto | right; exact H].
  - apply except_clauses_log in H. destruct H as (res0 & H & Hres).
    apply get_top_services_body_calls in H.
    destruct H as [[Hl He] | H]; [left; split; auto | right; exact H].
  - apply except_clauses_log in H. destruct H as (res0 & H & Hres).
    apply get_cost_forecast_body_calls in H.
    destruct H as [[Hl He] | H]; [left; split; auto | right; exact H].
Qed.

(** A [ClientError] of the provider is answered with status 500 and
    ["AWS API Error: "] followed by the provider's message, after the one
    call that raised it: by each of the three handlers, whatever the two
    others meet. *)
Theorem provider_client_error_is_reported (w : World) :
  boto3_client w = None ->
  (forall request sd ed m log,
      fromisoformat (Str.replace "Z" "+00:00" (CostRequest.start_date request))
        = inr sd ->
      fromisoformat (Str.replace "Z" "+00:00" (CostRequest.end_date request))
        = inr ed ->
      datetime_ge sd ed = inr false ->
      client_get_cost_and_usage w (cost_query request sd ed)
        = inl (ClientError m) ->
      analyze_costs w request log
      = (inl (HTTPException 500 (String.append "AWS API Error: " m)),
         log ++ [Call_get_cost_and_usage (cost_query request sd ed)])) /\
  (forall days limit start_date m log,
      minus_days (datetime_now w) days = inr start_date ->
      client_get_cost_and_usage w (services_query start_date (datetime_now w))
        = inl (ClientError m) ->
      get_top_services w days limit log
      = (inl (HTTPException 500 (String.append "AWS API Error: " m)),
         log ++ [Call_get_cost_and_usage
                   (services_query start_date (datetime_now w))])) /\
  (forall days end_date m log,
      plus_days (datetime_now w) days = inr end_date ->
      client_get_cost_forecast w (forecast_query (datetime_now w) end_date)
        = inl (ClientError m) ->
      get_cost_forecast w days log
      = (inl (HTTPException 500 (String.append "AWS API Error: " m)),
         log ++ [Call_get_cost_forecast
                   (forecast_query (datetime_now w) end_date)])).
Proof.
  intros Hc. repeat split.
  - intros request sd ed m log Hs He Hge H1.
    unfold analyze_costs, except_clauses, analyze_costs_body, bind, lift, ret,
      get_cost_explorer_client, get_cost_and_usage.
    rewrite Hc, Hs, He, Hge, H1. reflexivity.
  - intros days limit start_date m log Hm H2.
    unfold get_top_services, except_clauses, get_top_services_body, bind, lift,
      ret, get_cost_explorer_client, get_cost_and_usage.
    rewrite Hc, Hm, H2. reflexivity.
  - intros days end_date m log Hp H3.
    unfold get_cost_forecast, except_clauses, get_cost_forecast_body, bind, lift,
      ret, get_cost_explorer_client, get_cost_forecast_call.
    rewrite Hc, Hp, H3. reflexivity.
Qed.

(** A number of days that the date arithmetic rejects ([OverflowError]):
    when [now - days] is no date, [/costs/services] answers with status 500
    and the provider is not called; when [now + days] is no date, so does
    [/costs/forecast].  The one may fail where the other does not. *)
Theorem days_out_of_range_are_internal_errors (w : World) days log :
  (forall limit e,
      minus_days (datetime_now w) days = inl e ->
      exists detail,
        get_top_services w days limit log = (inl (HTTPException 500 detail), log)) /\
  (forall e,
      plus_days (datetime_now w) days = inl e ->
      exists detail,
        get_cost_forecast w days log = (inl (HTTPException 500 detail), log)).
Proof.
  split.
  - intros limit e Hm.
    assert (H : exists e, get_top_services_body w days limit log = (inl e, log)).
    { unfold get_top_services_body, bind, lift, get_cost_explorer_client, ret, raise.
      destruct (boto3_client w) as [[] |]; try (eexists; reflexivity).
      rewrite Hm. eexists; reflexivity. }
    destruct H as [e' H]. exact (except_clauses_raises _ _ H).
  - intros e Hp.
    assert (H : exists e, get_cost_forecast_body w days log = (inl e, log)).
    { unfold get_cost_forecast_body, bind, lift, get_cost_explorer_client, ret, raise.
      destruct (boto3_client w) as [[] |]; try (eexists; reflexivity).
      rewrite Hp. eexists; reflexivity. }
    destruct H as [e' H]. exact (except_clauses_raises _ _ H).
Qed.

End Failures.

(* ================================================================= *)
(** ** When [/costs/analyze] answers, and with which records *)

Section Records.
Context {RT : Runtime}.

(** A loop runs to its end exactly when every element can be processed,
    provided that this does not depend on the state. *)
Lemma for_each_succeeds_iff {S B : Type} (f : S -> B -> result S) (Q : B -> Prop) :
  (forall s b, (exists s', f s b = inr s') <-> Q b) ->
  forall l s, (exists s', for_each f l s = inr s') <-> Forall Q l.
Proof.
  intros Hf l. induction l as [| b l IH]; intros s; simpl.
  - split; [constructor | eauto].
  - split.
    + intros [s' H]. bound H as s1 H1. constructor.
      * apply (Hf s b). eauto.
      * apply (IH s1). eauto.
    + intros H. inversion H as [| b' l' Hb Hl]; subst.
      apply (Hf s b) in Hb. destruct Hb as [s1 H1]. rewrite H1. simpl.
      apply IH. exact Hl.
Qed.

Lemma priced_iff (metrics : dict CE.MetricValue.t) {A : Type}
      (k : CE.MetricValue.t -> float -> A) :
  (exists a,
      rbind (dict_item "BlendedCost" metrics)
            (fun blended =>
               rbind (float_of_str (CE.MetricValue.Amount blended))
                     (fun cost => inr (k blended cost)))
      = inr a)
  <-> priced metrics.
Proof.
  unfold priced, dict_item. split.
  - intros [a H]. bound H as blended Hb. bound H as cost Hc.
    destruct (dict_get "BlendedCost" metrics) as [mv |]; inversion Hb; subst.
    eauto.
  - intros (blended & cost & Hb & Hc). rewrite Hb. simpl. rewrite Hc. simpl. eauto.
Qed.

Lemma add_group_succeeds ps pe st g :
  (exists st', add_group ps pe st g = inr st') <-> priced (CE.Group.Metrics g).
Proof. unfold add_group. apply priced_iff. Qed.

Lemma add_result_succeeds st b :
  (exists st', add_result st b = inr st') <-> well_formed_bucket b.
Proof.
  unfold add_result, well_formed_bucket.
  destruct (CE.ResultByTime.Groups b) as [| g gs].
  - apply priced_iff.
  - apply (for_each_succeeds_iff
             (add_group (CE.DateInterval.Start (CE.ResultByTime.TimePeriod b))
                        (CE.DateInterval.End' (CE.ResultByTime.TimePeriod b)))).
    intros s g0. apply add_group_succeeds.
Qed.

(** [/costs/analyze] answers exactly when the client is built, both dates
    parse, the start is not at or after the end, the provider answers, and
    in every bucket returned each amount the loop reads is present and
    reads as a float: the bucket's own [BlendedCost] when it has no group,
    that of each of its groups otherwise. *)
Theorem analyze_costs_answers_iff (w : World) request log :
  (exists r log', analyze_costs w request log = (inr r, log')) <->
  (boto3_client w = None /\
   exists sd ed response,
     fromisoformat (Str.replace "Z" "+00:00" (CostRequest.start_date request))
       = inr sd /\
     fromisoformat (Str.replace "Z" "+00:00" (CostRequest.end_date request))
       = inr ed /\
     datetime_ge sd ed = inr false /\
     client_get_cost_and_usage w (cost_query request sd ed) = inr response /\
     Forall well_formed_bucket (CE.CostAndUsage.ResultsByTime response)).
Proof.
  split.
  - intros (r & log' & H). apply analyze_costs_returns in H.
    destruct H as (sd & ed & response & st & Hc & Hs & He & Hge & Hr & Hl & _).
    split; [exact Hc |]. exists sd, ed, response. repeat split; try assumption.
    apply (for_each_succeeds_iff add_result well_formed_bucket add_result_succeeds
             (CE.CostAndUsage.ResultsByTime response) analysis_start).
    eauto.
  - intros (Hc & sd & ed & response & Hs & He & Hge & Hr & Hwf).
    apply (for_each_succeeds_iff add_result well_formed_bucket add_result_succeeds
             (CE.CostAndUsage.ResultsByTime response) analysis_start) in Hwf.
    destruct Hwf as [st Hl].
    exists (cost_response request st). eexists.
    unfold analyze_costs, except_clauses, analyze_costs_body, bind, lift, ret,
      get_cost_explorer_client, get_cost_and_usage.
    rewrite Hc, Hs, He, Hge, Hr, Hl. reflexivity.
Qed.

(** What a returning [analyze_costs] computed from a given answer of the
    provider. *)
Lemma analyze_costs_loop (w : World) request log r log' sd ed response :
  analyze_costs w request log = (inr r, log') ->
  fromisoformat (Str.replace "Z" "+00:00" (CostRequest.start_date request)) = inr sd ->
  fromisoformat (Str.replace "Z" "+00:00" (CostRequest.end_date request)) = inr ed ->
  client_get_cost_and_usage w (cost_query request sd ed) = inr response ->
  exists st,
    for_each add_result (CE.CostAndUsage.ResultsByTime response) analysis_start
    = inr st /\
    r = cost_response request st.
Proof.
  intros H Hs He Hr. apply analyze_costs_returns in H.
  destruct H as (sd' & ed' & response' & st & _ & Hs' & He' & _ & Hr' & Hl & -> & _).
  rewrite Hs in Hs'. inversion Hs'; subst sd'.
  rewrite He in He'. inversion He'; subst ed'.
  rewrite Hr in Hr'. inversion Hr'; subst response'.
  exists st. split; [exact Hl | reflexivity].
Qed.

Lemma add_group_shape ps pe st g st' :
  add_group ps pe st g = inr st' ->
  map record_shape (acc_data st')
  = map record_shape (acc_data st) ++ [(ps, pe, Some (first_key g))].
Proof.
  unfold add_group. intros H. bound H as blended Hb. bound H as cost Hc.
  inversion H; subst; clear H. cbn [acc_data]. rewrite map_app. reflexivity.
Qed.

Lemma for_each_add_group_shape ps pe gs st st' :
  for_each (add_group ps pe) gs st = inr st' ->
  map record_shape (acc_data st')
  = map record_shape (acc_data st) ++ map (fun g => (ps, pe, Some (first_key g))) gs.
Proof.
  revert st. induction gs as [| g gs IH]; intros st H; simpl in H.
  - inversion H; subst. now rewrite app_nil_r.
  - bound H as st1 H1. rewrite (IH _ H), (add_group_shape _ _ _ _ H1).
    rewrite <- app_assoc. reflexivity.
Qed.

Lemma add_result_shape st b st' :
  add_result st b = inr st' ->
  map record_shape (acc_data st')
  = map record_shape (acc_data st) ++ bucket_shapes b.
Proof.
  unfold add_result, bucket_shapes. intros H.
  destruct (CE.ResultByTime.Groups b) as [| g gs].
  - bound H as blended Hb. bound H as cost Hc.
    inversion H; subst; clear H. cbn [acc_data]. rewrite map_app. reflexivity.
  - apply for_each_add_group_shape in H. exact H.
Qed.

Lemma for_each_add_result_shape bs st st' :
  for_each add_result bs st = inr st' ->
  map record_shape (acc_data st')
  = map record_shape (acc_data st) ++ flat_map bucket_shapes bs.
Proof.
  revert st. induction bs as [| b bs IH]; intros st H; simpl in H.
  - inversion H; subst. simpl. now rewrite app_nil_r.
  - bound H as st1 H1. rewrite (IH _ H), (add_result_shape _ _ H1).
    simpl. rewrite <- app_assoc. reflexivity.
Qed.

(** The records of [data] follow the provider's answer bucket by bucket:
    one record per group of a bucket that has groups, labelled by the
    group's first key (["Unknown"] without keys), and one record without
    group for a bucket that has none, each with the period of its bucket. *)
Theorem data_follows_the_buckets (w : World) request log r log' sd ed response :
  analyze_costs w request log = (inr r, log') ->
  fromisoformat (Str.replace "Z" "+00:00" (CostRequest.start_date request)) = inr sd ->
  fromisoformat (Str.replace "Z" "+00:00" (CostRequest.end_date request)) = inr ed ->
  client_get_cost_and_usage w (cost_query request sd ed) = inr response ->
  map record_shape (CostResponse.data r)
  = flat_map bucket_shapes (CE.CostAndUsage.ResultsByTime response).
Proof.
  intros H Hs He Hr.
  destruct (analyze_costs_loop _ _ _ H Hs He Hr) as (st & Hl & ->).
  apply for_each_add_result_shape in Hl. exact Hl.
Qed.

Lemma add_group_labels ps pe st g st' :
  labels_track_ungrouped st -> add_group ps pe st g = inr st' ->
  labels_track_ungrouped st'.
Proof.
  unfold labels_track_ungrouped, add_group. intros Hst H.
  bound H as blended Hb. bound H as cost Hc.
  inversion H; subst; clear H. cbn [acc_labels acc_data].
  rewrite filter_app. cbn [filter ungrouped CostRecord.group].
  rewrite app_nil_r. exact Hst.
Qed.

Lemma add_result_labels st b st' :
  labels_track_ungrouped st -> add_result st b = inr st' ->
  labels_track_ungrouped st'.
Proof.
  unfold add_result. intros Hst H.
  destruct (CE.ResultByTime.Groups b) as [| g gs].
  - unfold labels_track_ungrouped in *.
    bound H as blended Hb. bound H as cost Hc.
    inversion H; subst; clear H. cbn [acc_labels acc_data].
    rewrite filter_app. cbn [filter ungrouped CostRecord.group].
    rewrite map_app, Hst. reflexivity.
  - eapply for_each_invariant; [| exact Hst | exact H].
    intros s g0 s'. apply add_group_labels.
Qed.

(** [chart_data.labels] are the period starts of the records without
    group, in order: a bucket with groups adds records but no label, so a
    response made of grouped buckets only has no label at all, however many
    points its series have. *)
Theorem chart_labels_are_ungrouped_starts (w : World) request log r log' :
  analyze_costs w request log = (inr r, log') ->
  ChartData.labels (CostResponse.chart_data r)
  = map CostRecord.period_start (filter ungrouped (CostResponse.data r)) /\
  (forallb (fun item => negb (ungrouped item)) (CostResponse.data r) = true ->
   ChartData.labels (CostResponse.chart_data r) = []).
Proof.
  intros H. apply analyze_costs_returns in H.
  destruct H as (sd & ed & response & st & _ & _ & _ & _ & _ & Hl & -> & _).
  cbn [cost_response CostResponse.chart_data ChartData.labels CostResponse.data].
  assert (Hst : labels_track_ungrouped st).
  { apply (for_each_invariant add_result labels_track_ungrouped add_result_labels
             (CE.CostAndUsage.ResultsByTime response) analysis_start);
      [reflexivity | exact Hl]. }
  split; [exact Hst |].
  intros Hall. rewrite Hst.
  induction (acc_data st) as [| item data IH]; [reflexivity |].
  simpl in Hall. apply andb_true_iff in Hall. destruct Hall as [Hi Hd].
  simpl. destruct (ungrouped item); [discriminate | apply IH, Hd].
Qed.

End Records.

(* ================================================================= *)
(** ** The chart of [/costs/analyze] *)

Section Chart.
Context {RT : Runtime}.

Lemma dict_get_dict_modify {V : Type} (k n : string) (f : V -> V) (d : dict V) :
  dict_get k (dict_modify n f d)
  = if String.eqb k n then option_map f (dict_get k d) else dict_get k d.
Proof.
  induction d as [| [k' v] d IH]; simpl.
  - destruct (String.eqb k n); reflexivity.
  - destruct (String.eqb n k') eqn:En; simpl.
    + apply String.eqb_eq in En. subst k'.
      destruct (String.eqb k n); reflexivity.
    + destruct (String.eqb k k') eqn:Ek.
      * apply String.eqb_eq in Ek. subst k'.
        rewrite String.eqb_sym in En. rewrite En. reflexivity.
      * exact IH.
Qed.

Lemma In_dict_get {V : Type} (k : string) (v : V) (d : dict V) :
  NoDup (keys d) -> In (k, v) d -> dict_get k d = Some v.
Proof.
  induction d as [| [k' v'] d IH]; intros Hnd Hin; [destruct Hin |].
  simpl in *. inversion Hnd as [| x l Hx Hl]; subst.
  destruct Hin as [E | Hin].
  - inversion E; subst. now rewrite String.eqb_refl.
  - destruct (String.eqb k k') eqn:Ek.
    + apply String.eqb_eq in Ek. subst k'. exfalso. apply Hx.
      unfold keys. change k with (fst (k, v)). now apply in_map.
    + now apply IH.
Qed.

Lemma costs_labelled_snoc (label : string) (data : list CostRecord.t) item :
  costs_labelled label (data ++ [item])
  = costs_labelled label data ++
      (if String.eqb label (CostRecord.group_or_unknown item)
       then [CostRecord.cost item] else []).
Proof.
  unfold costs_labelled. rewrite filter_app, map_app. simpl.
  destruct (String.eqb label (CostRecord.group_or_unknown item)); reflexivity.
Qed.

Lemma costs_labelled_unseen (label : string) (data : list CostRecord.t) :
  existsb (String.eqb label) (map CostRecord.group_or_unknown data) = false ->
  costs_labelled label data = [].
Proof.
  unfold costs_labelled. induction data as [| item data IH]; simpl; [reflexivity |].
  destruct (String.eqb label (CostRecord.group_or_unknown item)); simpl;
    [discriminate | exact IH].
Qed.

Lemma add_to_groups_holds groups data item :
  groups_hold groups data -> groups_hold (add_to_groups groups item) (data ++ [item]).
Proof.
  unfold groups_hold, add_to_groups. intros H k.
  rewrite dict_get_dict_modify, map_app, existsb_app, costs_labelled_snoc.
  cbn [map existsb]. rewrite orb_false_r.
  set (n := CostRecord.group_or_unknown item).
  assert (Hmem : dict_mem n groups
                 = existsb (String.eqb n) (map CostRecord.group_or_unknown data)).
  { unfold dict_mem. rewrite (H n).
    destruct (existsb (String.eqb n) (map CostRecord.group_or_unknown data));
      reflexivity. }
  destruct (String.eqb k n) eqn:E.
  - apply String.eqb_eq in E. subst k. rewrite orb_true_r.
    destruct (dict_mem n groups) eqn:Em; simpl.
    + rewrite (H n), <- Hmem. reflexivity.
    + rewrite dict_get_dict_set, String.eqb_refl. simpl.
      rewrite costs_labelled_unseen by (now rewrite <- Hmem). reflexivity.
  - rewrite orb_false_r, app_nil_r.
    destruct (dict_mem n groups); simpl; [apply H |].
    rewrite dict_get_dict_set, E. apply H.
Qed.

Lemma group_costs_hold (data : list CostRecord.t) :
  groups_hold (group_costs data) data.
Proof.
  unfold group_costs.
  assert (G : forall rest groups seen,
             groups_hold groups seen ->
             groups_hold (fold_left add_to_groups rest groups) (seen ++ rest)).
  { induction rest as [| item rest IH]; intros groups seen H; simpl.
    - now rewrite app_nil_r.
    - replace (seen ++ item :: rest) with ((seen ++ [item]) ++ rest)
        by (now rewrite <- app_assoc).
      apply IH, add_to_groups_holds, H. }
  apply (G data [] []). intros k. reflexivity.
Qed.

Lemma enumerate_from_In {A : Type} (l : list A) (k i : nat) (x : A) :
  In (i, x) (enumerate_from k l) -> In x l.
Proof.
  revert k. induction l as [| a l IH]; intros k H; simpl in *; [exact H |].
  destruct H as [E | H]; [inversion E; now left | right; eapply IH, H].
Qed.

(** With a grouping, the data of each series are the costs of the records
    charted under the label of the series (their group, or ["Unknown"]), in
    the order of [data]: no cost is lost, moved to another series or
    reordered. *)
Theorem grouped_series_collect_costs (w : World) request log r log' :
  analyze_costs w request log = (inr r, log') ->
  grouping_requested request = true ->
  Forall (fun series =>
            Dataset.data series
            = costs_labelled (Dataset.label series) (CostResponse.data r))
         (ChartData.datasets (CostResponse.chart_data r)).
Proof.
  intros H Hg. apply analyze_costs_returns in H.
  destruct H as (sd & ed & response & st & _ & _ & _ & _ & _ & _ & -> & _).
  cbn [cost_response CostResponse.chart_data ChartData.datasets CostResponse.data].
  unfold grouping_requested in Hg. unfold make_datasets. rewrite Hg. cbn [negb].
  apply Forall_forall. intros series Hin.
  apply in_map_iff in Hin. destruct Hin as ([i [name costs]] & <- & Hin).
  cbn [Dataset.data Dataset.label].
  apply enumerate_from_In in Hin.
  assert (Hget : dict_get name (group_costs (acc_data st)) = Some costs).
  { apply In_dict_get; [| exact Hin].
    rewrite keys_group_costs. apply first_seen_onto_NoDup. constructor. }
  rewrite (group_costs_hold (acc_data st) name) in Hget.
  destruct (existsb (String.eqb name)
                    (map CostRecord.group_or_unknown (acc_data st)));
    inversion Hget. reflexivity.
Qed.

Lemma nth_error_enumerate_from {A : Type} (l : list A) (k i : nat) :
  nth_error (enumerate_from k l) i
  = option_map (fun x => ((k + i)%nat, x)) (nth_error l i).
Proof.
  revert k i. induction l as [| a l IH]; intros k i; destruct i; simpl;
    try reflexivity.
  - now rewrite Nat.add_0_r.
  - rewrite IH. now rewrite Nat.add_succ_r.
Qed.

Lemma color_in_palette (i : nat) : In (color i) colors.
Proof.
  unfold color. apply nth_In. apply Nat.mod_upper_bound. discriminate.
Qed.

(** With a grouping, the series at position [i] (from 0) is drawn in the
    palette color at index [i mod 6]: the index never leaves the palette,
    and from the seventh series on the colors repeat. *)
Theorem series_colors_cycle (w : World) request log r log' i series :
  analyze_costs w request log = (inr r, log') ->
  grouping_requested request = true ->
  nth_error (ChartData.datasets (CostResponse.chart_data r)) i = Some series ->
  Dataset.borderColor series = nth (Nat.modulo i 6) colors "" /\
  In (Dataset.borderColor series) colors /\
  Dataset.backgroundColor series
  = Str.replace ")" ", 0.2)" (Str.replace "rgb" "rgba" (Dataset.borderColor series)).
Proof.
  intros H Hg Hn. apply analyze_costs_returns in H.
  destruct H as (sd & ed & response & st & _ & _ & _ & _ & _ & _ & -> & _).
  cbn [cost_response CostResponse.chart_data ChartData.datasets] in Hn.
  unfold grouping_requested in Hg. unfold make_datasets in Hn.
  rewrite Hg in Hn. cbn [negb] in Hn.
  rewrite nth_error_map in Hn. unfold enumerate in Hn.
  rewrite nth_error_enumerate_from in Hn.
  destruct (nth_error (group_costs (acc_data st)) i) as [[name costs] |];
    simpl in Hn; inversion Hn; subst; clear Hn.
  cbn [Dataset.borderColor Dataset.backgroundColor].
  split; [reflexivity |]. split; [apply color_in_palette | reflexivity].
Qed.

Lemma ungrouped_buckets_loop bs st st' :
  Forall (fun b => CE.ResultByTime.Groups b = []) bs ->
  for_each add_result bs st = inr st' ->
  acc_labels st'
  = acc_labels st
      ++ map (fun b => CE.DateInterval.Start (CE.ResultByTime.TimePeriod b)) bs /\
  List.length (acc_data st') = (List.length (acc_data st) + List.length bs)%nat.
Proof.
  revert st. induction bs as [| b bs IH]; intros st Hall H; simpl in H.
  - inversion H; subst. simpl. rewrite app_nil_r. split; [reflexivity | lia].
  - inversion Hall as [| b' bs' Hb Hbs]; subst.
    bound H as st1 H1. destruct (IH _ Hbs H) as [Hl Hd].
    unfold add_result in H1. rewrite Hb in H1.
    bound H1 as blended Hbl. bound H1 as cost Hc.
    inversion H1; subst; clear H1. cbn [acc_labels acc_data] in *.
    rewrite Hl, Hd, <- app_assoc, length_app. simpl. split; [reflexivity | lia].
Qed.

(** Without a grouping, and when no bucket returned has groups, the chart
    is aligned: there is one label per bucket, its period start, and the
    single series ["Cost"] has as many points as there are labels. *)
Theorem ungrouped_chart_is_aligned (w : World) request log r log' sd ed response :
  analyze_costs w request log = (inr r, log') ->
  fromisoformat (Str.replace "Z" "+00:00" (CostRequest.start_date request)) = inr sd ->
  fromisoformat (Str.replace "Z" "+00:00" (CostRequest.end_date request)) = inr ed ->
  client_get_cost_and_usage w (cost_query request sd ed) = inr response ->
  grouping_requested request = false ->
  Forall (fun b => CE.ResultByTime.Groups b = [])
         (CE.CostAndUsage.ResultsByTime response) ->
  ChartData.labels (CostResponse.chart_data r)
  = map (fun b => CE.DateInterval.Start (CE.ResultByTime.TimePeriod b))
        (CE.CostAndUsage.ResultsByTime response) /\
  exists series,
    ChartData.datasets (CostResponse.chart_data r) = [series] /\
    Dataset.label series = "Cost" /\
    Dataset.data series = map CostRecord.cost (CostResponse.data r) /\
    List.length (Dataset.data series)
    = List.length (ChartData.labels (CostResponse.chart_data r)).
Proof.
  intros H Hs He Hr Hg Hall.
  destruct (analyze_costs_loop _ _ _ H Hs He Hr) as (st & Hl & ->).
  destruct (ungrouped_buckets_loop _ Hall Hl) as [Hlab Hlen].
  cbn [cost_response CostResponse.chart_data ChartData.labels ChartData.datasets
       CostResponse.data].
  simpl in Hlab, Hlen. split; [exact Hlab |].
  unfold grouping_requested in Hg. unfold make_datasets. rewrite Hg. cbn [negb].
  eexists. split; [reflexivity |]. cbn [Dataset.label Dataset.data].
  split; [reflexivity |]. split; [reflexivity |].
  rewrite length_map, Hlab, length_map. exact Hlen.
Qed.

Lemma round2_zero : PyFloat.round2 PrimFloat.zero = PrimFloat.zero.
Proof. vm_compute. reflexivity. Qed.

(** When the provider returns no bucket at all, [/costs/analyze] still
    answers: the total is 0.0, the currency the initial ["USD"], there is no
    record and no label, and the chart has no series under a grouping and
    one empty series without. *)
Theorem empty_result_is_answered (w : World) request sd ed log :
  boto3_client w = None ->
  fromisoformat (Str.replace "Z" "+00:00" (CostRequest.start_date request)) = inr sd ->
  fromisoformat (Str.replace "Z" "+00:00" (CostRequest.end_date request)) = inr ed ->
  datetime_ge sd ed = inr false ->
  client_get_cost_and_usage w (cost_query request sd ed)
    = inr {| CE.CostAndUsage.ResultsByTime := [] |} ->
  exists r,
    analyze_costs w request log
    = (inr r, log ++ [Call_get_cost_and_usage (cost_query request sd ed)]) /\
    CostResponse.total_cost r = PrimFloat.zero /\
    CostResponse.currency r = "USD" /\
    CostResponse.data r = [] /\
    ChartData.labels (CostResponse.chart_data r) = [] /\
    List.length (ChartData.datasets (CostResponse.chart_data r))
    = if grouping_requested request then 0%nat else 1%nat.
Proof.
  intros Hc Hs He Hge Hr. eexists. split.
  - unfold analyze_costs, except_clauses, analyze_costs_body, bind, lift, ret,
      get_cost_explorer_client, get_cost_and_usage.
    rewrite Hc, Hs, He, Hge, Hr. reflexivity.
  - cbn [cost_response analysis_start CostResponse.total_cost
         CostResponse.currency CostResponse.data CostResponse.chart_data
         ChartData.labels ChartData.datasets acc_total_cost acc_currency
         acc_data acc_labels].
    split; [apply round2_zero |]. repeat (split; [reflexivity |]).
    unfold grouping_requested, make_datasets.
    destruct (Str.truthy_option (CostRequest.group_by request)); reflexivity.
Qed.

(** A bucket without groups whose [Total] has no [BlendedCost] fails the
    whole request, grouped or not: after the buckets before it were read,
    [/costs/analyze] answers 500 with the detail
    ["Internal error: 'BlendedCost'"], and no partial result. *)
Theorem missing_total_is_internal_error
        (w : World) request sd ed response before b after log :
  boto3_client w = None ->
  fromisoformat (Str.replace "Z" "+00:00" (CostRequest.start_date request)) = inr sd ->
  fromisoformat (Str.replace "Z" "+00:00" (CostRequest.end_date request)) = inr ed ->
  datetime_ge sd ed = inr false ->
  client_get_cost_and_usage w (cost_query request sd ed) = inr response ->
  CE.CostAndUsage.ResultsByTime response = before ++ b :: after ->
  Forall well_formed_bucket before ->
  CE.ResultByTime.Groups b = [] ->
  dict_get "BlendedCost" (CE.ResultByTime.Total b) = None ->
  analyze_costs w request log
  = (inl (HTTPException 500 "Internal error: 'BlendedCost'"),
     log ++ [Call_get_cost_and_usage (cost_query request sd ed)]).
Proof.
  intros Hc Hs He Hge Hr Hbs Hwf Hg Ht.
  apply (for_each_succeeds_iff add_result well_formed_bucket add_result_succeeds
           before analysis_start) in Hwf.
  destruct Hwf as [st Hl].
  assert (Hloop : for_each add_result (CE.CostAndUsage.ResultsByTime response)
                           analysis_start
                  = inl (key_error "BlendedCost")).
  { rewrite Hbs, for_each_app, Hl. simpl.
    unfold add_result, dict_item. rewrite Hg, Ht. reflexivity. }
  unfold analyze_costs, except_clauses, analyze_costs_body, bind, lift, ret,
    get_cost_explorer_client, get_cost_and_usage.
  rewrite Hc, Hs, He, Hge, Hr, Hloop. reflexivity.
Qed.

End Chart.

(* ================================================================= *)
(** ** The list of [/costs/services] *)

Section Listing.
Context {RT : Runtime}.

(** The length of [top_services] is fixed by [limit] and by the number of
    services alone: [min(limit, total_services)] for [limit >= 0], so
    [limit = 0] lists nothing and a [limit] at or above [total_services]
    lists every service; for [limit < 0] the last [-limit] services of the
    ranking are missing. *)
Theorem top_services_length (w : World) days limit log r log' :
  get_top_services w days limit log = (inr r, log') ->
  Z.of_nat (List.length (TopServices.top_services r))
  = if limit <? 0
    then Z.max 0 (TopServices.total_services r + limit)
    else Z.min limit (TopServices.total_services r).
Proof.
  intros H. apply get_top_services_returns in H.
  destruct H as (sd & response & services & _ & _ & _ & _ & -> & _).
  cbn [TopServices.top_services TopServices.total_services].
  rewrite length_map. unfold ranked_services.
  destruct (limit <? 0) eqn:E.
  - apply Z.ltb_lt in E. rewrite slice_to_length_negative by exact E.
    now rewrite py_sorted_length.
  - apply Z.ltb_ge in E. rewrite slice_to_length by exact E.
    now rewrite py_sorted_length.
Qed.

(** [total_services] is the number of distinct services among the groups
    that the provider returned, whatever [limit] is. *)
Theorem total_services_counts_distinct
        (w : World) days limit log r log' start_date response :
  get_top_services w days limit log = (inr r, log') ->
  minus_days (datetime_now w) days = inr start_date ->
  client_get_cost_and_usage w (services_query start_date (datetime_now w))
    = inr response ->
  TopServices.total_services r
  = Z.of_nat (List.length (nodup string_dec (service_labels response))).
Proof.
  intros H Hs Hr. apply get_top_services_returns in H.
  destruct H as (sd & response' & services & _ & Hs' & Hr' & Ht & -> & _).
  rewrite Hs in Hs'. inversion Hs'; subst sd.
  rewrite Hr in Hr'. inversion Hr'; subst response'.
  cbn [TopServices.total_services]. f_equal.
  rewrite <- first_seen_length, <- (keys_service_totals _ Ht).
  unfold keys. now rewrite length_map.
Qed.

Lemma NoDup_firstn {A : Type} (n : nat) (l : list A) :
  NoDup l -> NoDup (firstn n l).
Proof.
  intros H. rewrite <- (firstn_skipn n l) in H.
  apply NoDup_app_remove_r in H. exact H.
Qed.

Lemma In_firstn {A : Type} (n : nat) (l : list A) (x : A) :
  In x (firstn n l) -> In x l.
Proof.
  intros H. rewrite <- (firstn_skipn n l). apply in_or_app. now left.
Qed.

(** No service is listed twice in [top_services], and every entry is a
    service of the provider's answer with its own total, rounded to two
    decimals. *)
Theorem top_services_entries
        (w : World) days limit log r log' start_date response services :
  get_top_services w days limit log = (inr r, log') ->
  minus_days (datetime_now w) days = inr start_date ->
  client_get_cost_and_usage w (services_query start_date (datetime_now w))
    = inr response ->
  service_totals response = inr services ->
  NoDup (map ServiceCost.service (TopServices.top_services r)) /\
  Forall (fun entry =>
            In (ServiceCost.service entry) (service_labels response) /\
            exists total,
              dict_get (ServiceCost.service entry) services = Some total /\
              ServiceCost.cost entry = PyFloat.round2 total)
         (TopServices.top_services r).
Proof.
  intros H Hs Hr Ht. apply get_top_services_returns in H.
  destruct H as (sd & response' & services' & _ & Hs' & Hr' & Ht' & -> & _).
  rewrite Hs in Hs'. inversion Hs'; subst sd.
  rewrite Hr in Hr'. inversion Hr'; subst response'.
  rewrite Ht in Ht'. inversion Ht'; subst services'.
  cbn [TopServices.top_services].
  pose proof (keys_service_totals _ Ht) as Hk.
  assert (Hnd : NoDup (keys services)).
  { rewrite Hk. apply first_seen_onto_NoDup. constructor. }
  pose proof (py_sorted_perm (fun e : string * float => snd e) true services) as Hp.
  unfold ranked_services, slice_to. split.
  - rewrite map_map.
    rewrite (map_ext _ (fun e : string * float => fst e))
      by (intros [name cost]; reflexivity).
    rewrite <- firstn_map. apply NoDup_firstn.
    eapply Permutation_NoDup; [| exact Hnd].
    apply Permutation_map, Permutation_sym, Hp.
  - apply Forall_forall. intros entry Hin.
    apply in_map_iff in Hin. destruct Hin as ([name total] & <- & Hin).
    apply In_firstn in Hin.
    apply (Permutation_in _ Hp) in Hin.
    cbn [service_entry ServiceCost.service ServiceCost.cost]. split.
        + assert (Hname : In name (first_seen (service_labels response))).
      { rewrite <- Hk. unfold keys. change name with (fst (name, total)).
        now apply in_map. }
      apply first_seen_onto_In in Hname. destruct Hname as [[] | Hname].
      exact Hname.
    + exists total. split; [| reflexivity].
      apply In_dict_get; assumption.
Qed.

End Listing.

(* ================================================================= *)
(** ** Dates with a [Z], and the requests of the dashboard *)

Section Requests.
Context {RT : Runtime}.

Lemma replace_Z_cons (c : ascii) (s : string) :
  Str.replace "Z" "+00:00" (String c s)
  = if Ascii.eqb c "Z"%char
    then String.append "+00:00" (Str.replace "Z" "+00:00" s)
    else String c (Str.replace "Z" "+00:00" s).
Proof.
  unfold Str.replace. cbn [Str.replace_from String.prefix String.length Nat.sub].
    destruct (ascii_dec "Z" c) as [E | E].
  - subst c. destruct s; reflexivity.
  - destruct (Ascii.eqb c "Z"%char) eqn:Ec.
    + apply Ascii.eqb_eq in Ec. congruence.
    + destruct s; reflexivity.
Qed.

Lemma replace_Z_app (s1 s2 : string) :
  Str.replace "Z" "+00:00" (String.append s1 s2)
  = String.append (Str.replace "Z" "+00:00" s1) (Str.replace "Z" "+00:00" s2).
Proof.
  induction s1 as [| c s1 IH]; [reflexivity |].
  cbn [String.append]. rewrite !replace_Z_cons, IH.
  destruct (Ascii.eqb c "Z"%char); reflexivity.
Qed.

(** What [analyze_costs] hands to the date parser: every ['Z'] of the
    string, wherever it stands, has become ["+00:00"], so that no ['Z'] is
    left; a string without ['Z'] is handed over unchanged; and a string
    ending in ['Z'] ends in ["+00:00"]. *)
Theorem dates_lose_their_Z (s : string) :
  no_Z (Str.replace "Z" "+00:00" s) = true /\
  (no_Z s = true -> Str.replace "Z" "+00:00" s = s) /\
  Str.replace "Z" "+00:00" (String.append s "Z")
  = String.append (Str.replace "Z" "+00:00" s) "+00:00".
Proof.
  split; [| split].
  - induction s as [| c s IH]; [reflexivity |].
    rewrite replace_Z_cons. destruct (Ascii.eqb c "Z"%char) eqn:E.
    + cbn. exact IH.
    + cbn [no_Z]. rewrite E, IH. reflexivity.
  - induction s as [| c s IH]; intros H; [reflexivity |].
    cbn [no_Z] in H. apply andb_true_iff in H. destruct H as [Hc Hs].
    rewrite replace_Z_cons.
    destruct (Ascii.eqb c "Z"%char); [discriminate | now rewrite IH].
  - rewrite replace_Z_app. reflexivity.
Qed.

(** [analyzeCosts] of the dashboard posts to [/costs/analyze] exactly when
    the page has all four controls and neither date is empty; the body then
    carries the two dates and the granularity as they stand, and the
    grouping with the empty choice sent as [null].  The page that is served
    has no start date control, so that on it every call throws and nothing
    is ever posted. *)
Theorem served_page_posts_no_analysis :
  (forall page body,
      Dashboard.analyzeCosts page = Dashboard.fetch body <->
      exists startDate endDate granularity groupBy,
        Dashboard.Controls.startDate page = Some startDate /\
        Dashboard.Controls.endDate page = Some endDate /\
        Dashboard.Controls.granularity page = Some granularity /\
        Dashboard.Controls.groupBy page = Some groupBy /\
        startDate <> "" /\ endDate <> "" /\
        body = {| CostRequest.start_date := startDate;
                  CostRequest.end_date := endDate;
                  CostRequest.granularity := granularity;
                  CostRequest.group_by :=
                    if String.eqb groupBy "" then None else Some groupBy |}) /\
  (forall endDate granularity groupBy,
      Dashboard.analyzeCosts (Dashboard.served endDate granularity groupBy)
      = Dashboard.TypeError).
Proof.
  split; [| reflexivity].
  intros page body. unfold Dashboard.analyzeCosts. split.
  - destruct (Dashboard.Controls.startDate page) as [s |]; [| discriminate].
    destruct (Dashboard.Controls.endDate page) as [e |]; [| discriminate].
    destruct (Dashboard.Controls.granularity page) as [g |]; [| discriminate].
    destruct (Dashboard.Controls.groupBy page) as [gb |]; [| discriminate].
    destruct s as [| c s]; [discriminate |].
    destruct e as [| c' e]; [discriminate |].
    cbn [Str.truthy negb orb]. intros H. inversion H; subst body; clear H.
    exists (String c s), (String c' e), g, gb.
    repeat split; try discriminate.
    now destruct gb.
  - intros (s & e & g & gb & -> & -> & -> & -> & Hs & He & ->).
    destruct s as [| c s]; [now elim Hs |].
    destruct e as [| c' e]; [now elim He |].
    cbn [Str.truthy negb orb]. now destruct gb.
Qed.

End Requests.

(* ================================================================= *)
(** ** When the two other handlers answer *)

Section Answers.
Context {RT : Runtime}.

Lemma add_service_succeeds services g :
  (exists services', add_service services g = inr services')
  <-> priced (CE.Group.Metrics g).
Proof.
  unfold add_service, priced, dict_item. split.
  - intros [a H]. bound H as blended Hb. bound H as cost Hc.
    destruct (dict_get "BlendedCost" (CE.Group.Metrics g)) as [mv |];
      inversion Hb; subst.
    eauto.
  - intros (blended & cost & Hb & Hc). rewrite Hb. simpl. rewrite Hc. simpl. eauto.
Qed.

Lemma add_result_services_succeeds services b :
  (exists services', add_result_services services b = inr services')
  <-> billed_groups b.
Proof.
  unfold add_result_services, billed_groups.
  apply (for_each_succeeds_iff add_service). intros s g.
  apply add_service_succeeds.
Qed.

Lemma add_forecast_succeeds acc r :
  (exists acc', add_forecast acc r = inr acc') <-> readable_forecast r.
Proof.
  unfold add_forecast, readable_forecast. split.
  - intros [a H]. bound H as mean Hm. bound H as lower Hl. bound H as upper Hu.
    repeat split; eauto.
  - intros ((mean & Hm) & (lower & Hl) & (upper & Hu)).
    rewrite Hm. simpl. rewrite Hl. simpl. rewrite Hu. simpl. eauto.
Qed.

(** [/costs/services] answers exactly when the client is built, the start
    of the window is a date, the provider answers, and every group of
    every bucket carries a [BlendedCost] whose amount reads as a float.
    Neither [limit] nor a bucket's own [Total] has a say: a bucket without
    groups is passed over, whatever else it holds. *)
Theorem get_top_services_answers_iff (w : World) days limit log :
  (exists r log', get_top_services w days limit log = (inr r, log')) <->
  (boto3_client w = None /\
   exists start_date response,
     minus_days (datetime_now w) days = inr start_date /\
     client_get_cost_and_usage w (services_query start_date (datetime_now w))
       = inr response /\
     Forall billed_groups (CE.CostAndUsage.ResultsByTime response)).
Proof.
  split.
  - intros (r & log' & H). apply get_top_services_returns in H.
    destruct H as (sd & response & services & Hc & Hs & Hr & Ht & _).
    split; [exact Hc |]. exists sd, response. repeat split; try assumption.
    apply (for_each_succeeds_iff add_result_services billed_groups
             add_result_services_succeeds
             (CE.CostAndUsage.ResultsByTime response) []).
    unfold service_totals in Ht. eauto.
  - intros (Hc & sd & response & Hs & Hr & Hwf).
    apply (for_each_succeeds_iff add_result_services billed_groups
             add_result_services_succeeds
             (CE.CostAndUsage.ResultsByTime response) []) in Hwf.
    destruct Hwf as [services Ht].
    eexists. eexists.
    unfold get_top_services, except_clauses, get_top_services_body, bind, lift,
      ret, get_cost_explorer_client, get_cost_and_usage, service_totals.
    rewrite Hc, Hs, Hr, Ht. reflexivity.
Qed.

(** [/costs/forecast] answers exactly when the client is built, the end of
    the window is a date, the provider answers, and in every period of the
    answer the mean and both bounds read as floats: an unreadable bound
    fails the request although it enters no total. *)
Theorem get_cost_forecast_answers_iff (w : World) days log :
  (exists r log', get_cost_forecast w days log = (inr r, log')) <->
  (boto3_client w = None /\
   exists end_date response,
     plus_days (datetime_now w) days = inr end_date /\
     client_get_cost_forecast w (forecast_query (datetime_now w) end_date)
       = inr response /\
     Forall readable_forecast (CE.CostForecast.ForecastResultsByTime response)).
Proof.
  split.
  - intros (r & log' & H). apply get_cost_forecast_returns in H.
    destruct H as (ed & response & fd & Hc & He & Hr & Hl & _).
    split; [exact Hc |]. exists ed, response. repeat split; try assumption.
    apply (for_each_succeeds_iff add_forecast readable_forecast
             add_forecast_succeeds
             (CE.CostForecast.ForecastResultsByTime response) []).
    eauto.
  - intros (Hc & ed & response & He & Hr & Hwf).
    apply (for_each_succeeds_iff add_forecast readable_forecast
             add_forecast_succeeds
             (CE.CostForecast.ForecastResultsByTime response) []) in Hwf.
    destruct Hwf as [fd Hl].
    eexists. eexists.
    unfold get_cost_forecast, except_clauses, get_cost_forecast_body, bind, lift,
      ret, get_cost_explorer_client, get_cost_forecast_call.
    rewrite Hc, He, Hr, Hl. reflexivity.
Qed.

End Answers.

(* ================================================================= *)
(** ** The further properties on the example worlds *)

(** A throttled provider: the answer is a 500 that names the provider. *)
Lemma handler_failures_are_500_witness :
  exists e log',
    analyze_costs Cases.throttled (Example.request "2024-01-01" "2024-01-03" None) []
    = (inl e, log') /\
    is_client_error e = false /\
    exists message,
      e = HTTPException 500 (String.append "AWS API Error: " message) \/
      e = HTTPException 500 (String.append "Internal error: " message).
Proof.
  eexists. eexists. split; [vm_compute; reflexivity |].
  eapply (@handler_failures_are_500 Reference.runtime Cases.throttled
            (Example.request "2024-01-01" "2024-01-03" None) 30 10 []).
  left. vm_compute. reflexivity.
Defined.

(** In [Cases.no_forecast] the forecasts alone are refused. *)
Lemma provider_client_error_is_reported_witness :
  (exists r log',
      get_top_services Cases.no_forecast 30 10 [] = (inr r, log')) /\
  get_cost_forecast Cases.no_forecast 30 []
  = (inl (HTTPException 500
            "AWS API Error: An error occurred (ThrottlingException) when calling the GetCostForecast operation: Rate exceeded"),
     [Call_get_cost_forecast
        (forecast_query (RT := Reference.runtime) Example.noon
           (Reference.Build_datetime (Reference.ymd2ord 2024 3 1) 43200 None))]).
Proof.
  split; [eexists; eexists; vm_compute; reflexivity |].
  exact (proj2 (proj2
           (@provider_client_error_is_reported Reference.runtime
              Cases.no_forecast eq_refl))
           30 (Reference.Build_datetime (Reference.ymd2ord 2024 3 1) 43200 None)
           _ [] eq_refl eq_refl).
Defined.

(** 800000 days before 2024-01-31 is no date of the calendar; 800000 days
    after it is one. *)
Lemma days_out_of_range_are_internal_errors_witness :
  (exists detail,
      get_top_services Example.world 800000 10 []
      = (inl (HTTPException 500 detail), [])) /\
  (exists r log', get_cost_forecast Example.world 800000 [] = (inr r, log')).
Proof.
  split; [| eexists; eexists; vm_compute; reflexivity].
  eapply (proj1 (@days_out_of_range_are_internal_errors Reference.runtime
                   Example.world 800000 [])).
  vm_compute. reflexivity.
Defined.

Lemma data_follows_the_buckets_witness :
  exists r log',
    analyze_costs Example.world
      (Example.request "2024-01-01" "2024-01-03" (Some "SERVICE")) []
    = (inr r, log') /\
    map record_shape (CostResponse.data r)
    = [ ("2024-01-01", "2024-02-01", Some "Amazon EC2");
        ("2024-01-01", "2024-02-01", Some "Amazon S3");
        ("2024-01-01", "2024-02-01", Some "AWS Lambda");
        ("2024-02-01", "2024-03-01", Some "Amazon EC2");
        ("2024-02-01", "2024-03-01", Some "Amazon RDS") ] /\
    map record_shape (CostResponse.data r)
    = flat_map bucket_shapes (CE.CostAndUsage.ResultsByTime Example.by_service).
Proof.
  eexists. eexists. split; [vm_compute; reflexivity |].
  split; [reflexivity |].
  eapply (@data_follows_the_buckets Reference.runtime Example.world
            (Example.request "2024-01-01" "2024-01-03" (Some "SERVICE")) []).
  - vm_compute. reflexivity.
  - vm_compute. reflexivity.
  - vm_compute. reflexivity.
  - reflexivity.
Defined.

(** Grouped by service, the response of [Example.world] has five records
    and four series, and not one label. *)
Lemma chart_labels_are_ungrouped_starts_witness :
  exists r log',
    analyze_costs Example.world
      (Example.request "2024-01-01" "2024-01-03" (Some "SERVICE")) []
    = (inr r, log') /\
    List.length (CostResponse.data r) = 5%nat /\
    ChartData.labels (CostResponse.chart_data r) = [] /\
    ChartData.labels (CostResponse.chart_data r)
    = map CostRecord.period_start (filter ungrouped (CostResponse.data r)).
Proof.
  eexists. eexists. split; [vm_compute; reflexivity |].
  split; [reflexivity |]. split; [reflexivity |].
  eapply proj1.
  eapply (@chart_labels_are_ungrouped_starts Reference.runtime Example.world
            (Example.request "2024-01-01" "2024-01-03" (Some "SERVICE")) []).
  vm_compute. reflexivity.
Defined.

Lemma grouped_series_collect_costs_witness :
  exists r log',
    analyze_costs Example.world
      (Example.request "2024-01-01" "2024-01-03" (Some "SERVICE")) []
    = (inr r, log') /\
    map (fun series => (Dataset.label series, Dataset.data series))
        (ChartData.datasets (CostResponse.chart_data r))
    = [ ("Amazon EC2", [5%float; 2.5%float]); ("Amazon S3", [7.5%float]);
        ("AWS Lambda", [5.25%float]); ("Amazon RDS", [7.5%float]) ] /\
    Forall (fun series =>
              Dataset.data series
              = costs_labelled (Dataset.label series) (CostResponse.data r))
           (ChartData.datasets (CostResponse.chart_data r)).
Proof.
  eexists. eexists. split; [vm_compute; reflexivity |].
  split; [reflexivity |].
  eapply (@grouped_series_collect_costs Reference.runtime Example.world
            (Example.request "2024-01-01" "2024-01-03" (Some "SERVICE")) []).
  - vm_compute. reflexivity.
  - reflexivity.
Defined.

(** With eight services, the seventh series is drawn like the first. *)
Lemma series_colors_cycle_witness :
  exists r log' first seventh,
    analyze_costs Cases.busy_world
      (Example.request "2024-01-01" "2024-02-01" (Some "SERVICE")) []
    = (inr r, log') /\
    nth_error (ChartData.datasets (CostResponse.chart_data r)) 0 = Some first /\
    nth_error (ChartData.datasets (CostResponse.chart_data r)) 6 = Some seventh /\
    Dataset.label seventh = "s6" /\
    Dataset.borderColor first = "rgb(255, 99, 132)" /\
    Dataset.borderColor seventh = "rgb(255, 99, 132)" /\
    Dataset.backgroundColor seventh = "rgba(255, 99, 132, 0.2)" /\
    In (Dataset.borderColor seventh) colors.
Proof.
  eexists. eexists. eexists. eexists.
  split; [vm_compute; reflexivity |].
  split; [reflexivity |]. split; [reflexivity |].
  split; [reflexivity |]. split; [reflexivity |].
  split; [reflexivity |]. split; [reflexivity |].
  eapply proj1. eapply proj2.
  eapply (@series_colors_cycle Reference.runtime Cases.busy_world
            (Example.request "2024-01-01" "2024-02-01" (Some "SERVICE")) []
            _ _ 6%nat).
  - vm_compute. reflexivity.
  - reflexivity.
  - reflexivity.
Defined.

Lemma ungrouped_chart_is_aligned_witness :
  exists r log',
    analyze_costs Example.world (Example.request "2024-01-01" "2024-01-03" None) []
    = (inr r, log') /\
    ChartData.labels (CostResponse.chart_data r) = ["2024-01-01"; "2024-01-02"] /\
    exists series,
      ChartData.datasets (CostResponse.chart_data r) = [series] /\
      Dataset.label series = "Cost" /\
      Dataset.data series = map CostRecord.cost (CostResponse.data r) /\
      List.length (Dataset.data series)
      = List.length (ChartData.labels (CostResponse.chart_data r)).
Proof.
  eexists. eexists. split; [vm_compute; reflexivity |].
  split; [reflexivity |].
  eapply proj2.
  eapply (@ungrouped_chart_is_aligned Reference.runtime Example.world
            (Example.request "2024-01-01" "2024-01-03" None) []
            _ _ _ _ Example.two_days).
  - vm_compute. reflexivity.
  - vm_compute. reflexivity.
  - vm_compute. reflexivity.
  - reflexivity.
  - reflexivity.
  - repeat constructor.
Defined.

Lemma empty_result_is_answered_witness :
  exists r,
    analyze_costs Example.quiet_world
      (Example.request "2024-01-01" "2024-01-03" (Some "SERVICE")) []
    = (inr r,
       [Call_get_cost_and_usage
          (cost_query (RT := Reference.runtime)
             (Example.request "2024-01-01" "2024-01-03" (Some "SERVICE"))
             (Reference.Build_datetime (Reference.ymd2ord 2024 1 1) 0 None)
             (Reference.Build_datetime (Reference.ymd2ord 2024 1 3) 0 None))]) /\
    CostResponse.total_cost r = PrimFloat.zero /\
    CostResponse.currency r = "USD" /\
    CostResponse.data r = [] /\
    ChartData.labels (CostResponse.chart_data r) = [] /\
    List.length (ChartData.datasets (CostResponse.chart_data r)) = 0%nat.
Proof.
  exact (@empty_result_is_answered Reference.runtime Example.quiet_world
           (Example.request "2024-01-01" "2024-01-03" (Some "SERVICE"))
           (Reference.Build_datetime (Reference.ymd2ord 2024 1 1) 0 None)
           (Reference.Build_datetime (Reference.ymd2ord 2024 1 3) 0 None)
           [] eq_refl eq_refl eq_refl eq_refl eq_refl).
Defined.

(** Grouped by service, the idle second month of [Cases.idle_world] fails
    the request although the first month was read. *)
Lemma missing_total_is_internal_error_witness :
  analyze_costs Cases.idle_world
    (Example.request "2024-01-01" "2024-03-01" (Some "SERVICE")) []
  = (inl (HTTPException 500 "Internal error: 'BlendedCost'"),
     [Call_get_cost_and_usage
        (cost_query (RT := Reference.runtime)
           (Example.request "2024-01-01" "2024-03-01" (Some "SERVICE"))
           (Reference.Build_datetime (Reference.ymd2ord 2024 1 1) 0 None)
           (Reference.Build_datetime (Reference.ymd2ord 2024 3 1) 0 None))]).
Proof.
  apply (@missing_total_is_internal_error Reference.runtime Cases.idle_world
           (Example.request "2024-01-01" "2024-03-01" (Some "SERVICE"))
           (Reference.Build_datetime (Reference.ymd2ord 2024 1 1) 0 None)
           (Reference.Build_datetime (Reference.ymd2ord 2024 3 1) 0 None)
           Cases.idle_month
           [ Example.bucket "2024-01-01" "2024-02-01" []
               [ Example.group_of "Amazon EC2" "5.00" "USD" ] ]
           (Example.bucket "2024-02-01" "2024-03-01" [] [])
           [] []);
    try reflexivity.
  constructor; [| constructor].
  unfold well_formed_bucket. cbn. constructor; [| constructor].
  unfold priced. eexists. eexists. split; [reflexivity |].
  vm_compute. reflexivity.
Defined.

(** Four services: [limit = 3] lists three of them, [limit = 0] none,
    [limit = 9] all four, and [limit = -1] three. *)
Lemma top_services_length_witness :
  exists r log',
    get_top_services Example.world 30 (-1) [] = (inr r, log') /\
    TopServices.total_services r = 4 /\
    Z.of_nat (List.length (TopServices.top_services r)) = 3.
Proof.
  eexists. eexists. split; [vm_compute; reflexivity |].
  split; [reflexivity |].
  exact (@top_services_length Reference.runtime Example.world 30 (-1) [] _ _
           eq_refl).
Defined.

Lemma total_services_counts_distinct_witness :
  exists r log',
    get_top_services Example.world 30 1 [] = (inr r, log') /\
    List.length (TopServices.top_services r) = 1%nat /\
    TopServices.total_services r = 4 /\
    TopServices.total_services r
    = Z.of_nat (List.length (nodup string_dec (service_labels Example.by_service))).
Proof.
  eexists. eexists. split; [vm_compute; reflexivity |].
  split; [reflexivity |]. split; [reflexivity |].
  eapply (@total_services_counts_distinct Reference.runtime Example.world 30 1 []).
  - vm_compute. reflexivity.
  - vm_compute. reflexivity.
  - reflexivity.
Defined.

Lemma top_services_entries_witness :
  exists r log',
    get_top_services Example.world 30 3 [] = (inr r, log') /\
    map ServiceCost.service (TopServices.top_services r)
    = ["Amazon EC2"; "Amazon S3"; "Amazon RDS"] /\
    NoDup (map ServiceCost.service (TopServices.top_services r)).
Proof.
  eexists. eexists. split; [vm_compute; reflexivity |].
  split; [reflexivity |].
  eapply proj1.
  eapply (@top_services_entries Reference.runtime Example.world 30 3 []).
  - vm_compute. reflexivity.
  - vm_compute. reflexivity.
  - reflexivity.
  - vm_compute. reflexivity.
Defined.

Lemma missing_credentials_at_call_witness :
  get_cost_forecast Cases.unsigned 30 []
  = (inl (HTTPException 500 "Internal error: Unable to locate credentials"),
     [Call_get_cost_forecast
        (forecast_query (RT := Reference.runtime) Example.noon
           (Reference.Build_datetime (Reference.ymd2ord 2024 3 1) 43200 None))]).
Proof.
  exact (@missing_credentials_at_call Reference.runtime Cases.unsigned 30
           (Reference.Build_datetime (Reference.ymd2ord 2024 3 1) 43200 None)
           "Unable to locate credentials" [] eq_refl eq_refl eq_refl).
Defined.

(** In [Example.by_service], Amazon EC2 is billed 5.00 and then 2.50. *)
Lemma service_totals_are_sums_witness :
  exists entries,
    Forall2 (billed (RT := Reference.runtime)) (all_groups Example.by_service)
            entries /\
    forall s,
      dict_get s [ ("Amazon EC2", 7.5%float); ("Amazon S3", 7.5%float);
                   ("AWS Lambda", 5.25%float); ("Amazon RDS", 7.5%float) ]
      = accumulate None (costs_of s entries).
Proof.
  apply (@service_totals_are_sums Reference.runtime Example.by_service).
  vm_compute. reflexivity.
Defined.

